(** * rlmolecule: the stable-radical reward and the graph-gym action mask

    A shallow embedding of

    - [examples/stable_radical_optimization/stable_radical_opt.py]
      (class [StableRadOptProblem]: [get_reward], [calc_reward], [calc_bde],
      [prepare_for_bde], [bde_get_inputs], [windowed_loss]), and
    - [rlmolecule/graph_gym/graph_gym_model.py]
      (class [GraphGymModel]: [forward], [value_function]).

    Conventions of the embedding.

    - Python numbers are exact rationals ([Q]), and results on numbers are
      stated up to [==] ([Qeq]).  Rounding is looked at where a statement
      depends on it: [Binary64.windowed_loss] is [windowed_loss] on binary64
      numbers, as the interpreter computes it.
    - A Python call that may raise returns a [result]: [Ok v] or [Raise e].
    - Code that mutates objects or calls a learned model runs in the monad
      [M]: it threads a [World] holding the store of molecule objects and the
      log of model invocations.  An exception keeps the world reached so far.
    - RDKit, the preprocessors and the learned models are collaborators that
      live outside the repository: they are fields of the classes [RDKit]
      and [Collaborators], and every theorem holds for all their instances. *)

From Stdlib Require Import QArith Qabs Qminmax Lqa ZArith Lia.
From Stdlib Require Import Floats.
From stdpp Require Import base option list strings pretty functions gmap.

(** ** Exceptions and results *)

Inductive exn : Type :=
| AssertionError
| TypeError
| IndexError
| ValueError
| KeyError
| ZeroDivisionError
| UnboundLocalError
| RuntimeError
| InvalidArgumentError.

Inductive result (A : Type) : Type :=
| Ok (a : A)
| Raise (e : exn).

Arguments Ok {A} a.
Arguments Raise {A} e.

Global Instance result_ret : MRet result := λ A a, Ok a.

Global Instance result_bind : MBind result := λ A B k r,
  match r with
  | Ok a => k a
  | Raise e => Raise e
  end.

Definition from_option {A : Type} (e : exn) (o : option A) : result A :=
  match o with
  | Some a => Ok a
  | None => Raise e
  end.

(** The value of a result, if there is one. *)
Definition from_result {A : Type} (r : result A) : option A :=
  match r with
  | Ok a => Some a
  | Raise _ => None
  end.

(** ** Python arithmetic on exact rationals *)

Module Py.

Local Open Scope Q_scope.

(** [x < y] *)
Definition lt (x y : Q) : bool := negb (Qle_bool y x).

(** [x > y] *)
Definition gt (x y : Q) : bool := lt y x.

(** [x / y] on floats: a zero divisor raises [ZeroDivisionError].  A
    division by a non-zero literal is written with [Qdiv] directly. *)
Definition truediv (x y : Q) : result Q :=
  if Qeq_bool y 0 then Raise ZeroDivisionError else Ok (x / y).

(** [max(x, y)]: the first argument is kept unless the second is greater. *)
Definition max (x y : Q) : Q := if gt y x then y else x.

(** [abs(x)] *)
Definition abs (x : Q) : Q := Qabs x.

End Py.

(** ** WindowedScorer: [windowed_loss] *)

Section windowed_loss.

Local Open Scope Q_scope.

(** [StableRadOptProblem.windowed_loss(self, target, desired_range)] *)
Definition windowed_loss (target : Q) (desired_range : Q * Q) : result Q :=
  let span := desired_range.2 - desired_range.1 in
  let lower_lim := desired_range.1 + span / 6 in
  let upper_lim := desired_range.2 - span / 6 in
  if Py.lt target lower_lim then
    d ← Py.truediv (Py.abs (target - lower_lim)) span;
    mret (Py.max (1 - 3 * d) 0)
  else if Py.gt target upper_lim then
    d ← Py.truediv (Py.abs (target - upper_lim)) span;
    mret (Py.max (1 - 3 * d) 0)
  else
    mret 1.

(** The piecewise score in the words of the specification (section 4.1),
    for a range [(low, high)]: a plateau between [inner_low] and
    [inner_high], and a clipped linear decay on either side. *)
Definition inner_low (low high : Q) : Q := low + (high - low) / 6.
Definition inner_high (low high : Q) : Q := high - (high - low) / 6.

Definition windowed_reference (target low high : Q) : Q :=
  let span := high - low in
  if Qle_bool (inner_low low high) target && Qle_bool target (inner_high low high)
  then 1
  else if Py.lt target (inner_low low high)
  then Qmax (1 - 3 * Qabs (target - inner_low low high) / span) 0
  else Qmax (1 - 3 * Qabs (target - inner_high low high) / span) 0.

(** The trapezoid on the unit interval: 0 up to -1/6, rising to 1 at 1/6,
    flat up to 5/6, falling to 0 at 7/6.  [window_position] is where a
    target lies in a range, 0 at [low] and 1 at [high]. *)
Definition trapezoid (x : Q) : Q :=
  Qmax 0 (Qmin 1 (Qmin ((1 # 2) + 3 * x) ((1 # 2) + 3 * (1 - x)))).

Definition window_position (target low high : Q) : Q :=
  (target - low) / (high - low).

End windowed_loss.

(** ** [windowed_loss] in binary64

    The interpreter computes [windowed_loss] on floats.  [Binary64] is the
    same function over the kernel's binary64 numbers, with the comparisons,
    the division and [max] of Python on floats; integers of a range, such
    as (60, 80), stand for the floats of the same value.  [to_Q] reads a
    finite float as the rational it denotes. *)

Module Binary64.

Local Open Scope float_scope.

(** [x < y] and [x > y]: false when an operand is NaN. *)
Definition lt (x y : float) : bool := (x <? y).

Definition gt (x y : float) : bool := lt y x.

(** [x / y]: a zero divisor, of either sign, raises. *)
Definition truediv (x y : float) : result float :=
  if (y =? 0) then Raise ZeroDivisionError else Ok (x / y).

(** [max(x, y)]: the first argument is kept unless the second is greater. *)
Definition max (x y : float) : float := if gt y x then y else x.

(** [StableRadOptProblem.windowed_loss(self, target, desired_range)] *)
Definition windowed_loss (target : float) (desired_range : float * float)
    : result float :=
  let span := desired_range.2 - desired_range.1 in
  let lower_lim := desired_range.1 + span / 6 in
  let upper_lim := desired_range.2 - span / 6 in
  if lt target lower_lim then
    d ← truediv (abs (target - lower_lim)) span;
    mret (max (1 - 3 * d) 0)
  else if gt target upper_lim then
    d ← truediv (abs (target - upper_lim)) span;
    mret (max (1 - 3 * d) 0)
  else
    mret 1.

Definition to_Q (x : float) : option Q :=
  match Prim2SF x with
  | S754_zero _ => Some 0%Q
  | S754_finite s m e =>
      Some ((if s then - inject_Z (Zpos m) else inject_Z (Zpos m)) * Qpower 2 e)%Q
  | S754_infinity _ | S754_nan => None
  end.

End Binary64.
(** ** Molecules, as the code reads and writes them through RDKit *)

(** An atom object: [GetSymbol()], [GetNumRadicalElectrons()] and
    [GetNumExplicitHs()]. *)
Record Atom : Type := {
  symbol : string;
  num_radical_electrons : nat;
  num_explicit_hs : nat;
}.

(** A bond object: the indices of [GetBeginAtom()] and [GetEndAtom()].
    [GetIdx()] of a bond is its position in [GetBonds()]. *)
Record Bond : Type := {
  begin_atom : nat;
  end_atom : nat;
}.

(** An [rdkit.Chem.Mol]: [GetAtoms()] and [GetBonds()]. *)
Record Mol : Type := {
  atoms : list Atom;
  bonds : list Bond;
}.

Global Instance Atom_eq_dec : EqDecision Atom.
Proof. solve_decision. Defined.
Global Instance Bond_eq_dec : EqDecision Bond.
Proof. solve_decision. Defined.
Global Instance Mol_eq_dec : EqDecision Mol.
Proof. solve_decision. Defined.

(** The RDKit functions the code calls.  [MolFromSmiles] returns [None] on
    a string it cannot parse. *)
Class RDKit : Type := {
  CanonicalRankAtoms : Mol → list nat;
  MolToSmiles : Mol → string;
  MolFromSmiles : string → option Mol;
  AddHs : Mol → Mol;
}.

(** [atom.SetNumExplicitHs(n)] and [atom.SetNumRadicalElectrons(n)] *)
Definition SetNumExplicitHs (n : nat) (a : Atom) : Atom :=
  {| symbol := symbol a;
     num_radical_electrons := num_radical_electrons a;
     num_explicit_hs := n |}.

Definition SetNumRadicalElectrons (n : nat) (a : Atom) : Atom :=
  {| symbol := symbol a;
     num_radical_electrons := n;
     num_explicit_hs := num_explicit_hs a |}.

(** The molecule after a method [f] ran on its atom number [i]. *)
Definition update_atom (i : nat) (f : Atom → Atom) (m : Mol) : Mol :=
  {| atoms := alter f i (atoms m); bonds := bonds m |}.

(** [mol.GetAtomWithIdx(i)]: RDKit raises a [RuntimeError] out of range. *)
Definition GetAtomWithIdx (m : Mol) (i : nat) : result Atom :=
  from_option RuntimeError (atoms m !! i).

(** The symbols of the two ends of a bond. *)
Definition bond_symbols (m : Mol) (b : Bond) : result (string * string) :=
  a1 ← GetAtomWithIdx m (begin_atom b);
  a2 ← GetAtomWithIdx m (end_atom b);
  mret (symbol a1, symbol a2).

(** [mol.GetBonds()] with each bond's [GetIdx()]. *)
Definition GetBonds (m : Mol) : list (nat * Bond) := imap (λ i b, (i, b)) (bonds m).

(** [mol.GetAtomWithIdx(i).GetBonds()]: the bonds that touch atom [i]. *)
Definition atom_bonds (m : Mol) (i : nat) : result (list (nat * Bond)) :=
  _ ← GetAtomWithIdx m i;
  mret (filter (λ ib, begin_atom ib.2 = i ∨ end_atom ib.2 = i) (GetBonds m)).

(** ** The world: molecule objects and model invocations *)

Abbreviation loc := nat.

Inductive model_name : Type := StabilityModel | RedoxModel | BdeModel.

Global Instance model_name_eq_dec : EqDecision model_name.
Proof. solve_decision. Defined.

(** [store] maps a reference to the molecule object it denotes; it is what
    [atom.SetNum...] mutates.  [predict_log] records, oldest first, which
    learned model each call of [predict] ran. *)
Record World : Type := {
  store : loc → Mol;
  predict_log : list model_name;
}.

Definition M (A : Type) : Type := World → result A * World.

Global Instance M_ret : MRet M := λ A a w, (Ok a, w).

Global Instance M_bind : MBind M := λ A B k m w,
  match m w with
  | (Ok a, w') => k a w'
  | (Raise e, w') => (Raise e, w')
  end.

(** A computation that touches nothing. *)
Definition lift {A : Type} (r : result A) : M A := λ w, (r, w).

(** [assert b] *)
Definition assert (b : bool) : result unit :=
  if b then Ok () else Raise AssertionError.

(** Reading the object behind a reference. *)
Definition deref (l : loc) : M Mol := λ w, (Ok (store w l), w).

(** A method call that mutates atom [i] of the object behind [l]. *)
Definition mutate_atom (l : loc) (i : nat) (f : Atom → Atom) : M unit := λ w,
  (Ok (), {| store := <[l := update_atom i f (store w l)]> (store w);
             predict_log := predict_log w |}).

(** [predict(model, inputs)]: the model runs, and the run is logged. *)
Definition predict {A : Type} (name : model_name) (output : A) : M A := λ w,
  (Ok output, {| store := store w; predict_log := predict_log w ++ [name] |}).

(** ** StableRadOptProblem *)

(** The feature matrices of a preprocessor: [inputs['atom']],
    [inputs['bond']] and [inputs['connectivity']].  The class index 1 is the
    unknown token. *)
Record Features : Type := {
  atom : list Z;
  bond : list Z;
  connectivity : list (nat * nat);
}.

(** [(array == 1).any()] *)
Definition any_eq_1 (array : list Z) : bool := existsb (λ x, (x =? 1)%Z) array.

(** A [StableRadMoleculeState]: a reference to its molecule object, the
    [forced_terminal] flag and the SMILES string. *)
Record MoleculeState : Type := {
  molecule : loc;
  forced_terminal : bool;
  smiles : string;
}.

(** The values stored in a stats dictionary. *)
Inductive pyvalue : Type :=
| PyBool (b : bool)
| PyStr (s : string).

Global Instance pyvalue_eq_dec : EqDecision pyvalue.
Proof. solve_decision. Defined.

(** What the problem receives from outside the module: the policy
    featurization of the parent class (a function of the state and of the
    molecule object as it is at the time of the call), the three learned
    models on the output of [predict], the preprocessor of the BDE model,
    and [str] on floats. *)
Class Collaborators : Type := {
  get_policy_inputs : MoleculeState → Mol → Features;
  stability_model : Features → list Q * list Q;
  redox_model : Features → Q * Q;
  bde_preprocessor : string → Features;
  bde_model : Features → list Q;
  str : Q → string;
}.

(** The [pd.Series] that [prepare_for_bde] returns. *)
Record RadicalBDEInputs : Type := {
  mol_smiles : string;
  radical_index_mol : nat;
  bond_index : nat;
  other_h_bonds : list nat;
}.

(** [array[i]] on a numpy array or a list. *)
Definition getitem {A : Type} (array : list A) (i : nat) : result A :=
  from_option IndexError (array !! i).

(** [array[indices]] with a list of indices. *)
Definition take_indices {A : Type} (array : list A) (indices : list nat) : result (list A) :=
  mapM (getitem array) indices.

(** [array.min()] *)
Definition array_min (array : list Q) : result Q :=
  match array with
  | [] => Raise ValueError
  | x :: xs => Ok (foldl Qmin x xs)
  end.

(** [array.argmax()]: the first index of a greatest entry. *)
Fixpoint argmax_from (best_i : nat) (best : Q) (i : nat) (array : list Q) : nat :=
  match array with
  | [] => best_i
  | x :: xs =>
      if Py.gt x best then argmax_from i x (S i) xs
      else argmax_from best_i best (S i) xs
  end.

Definition argmax (array : list Q) : result nat :=
  match array with
  | [] => Raise ValueError
  | x :: xs => Ok (argmax_from 0 x 1 xs)
  end.

(** [list.index(x)] *)
Definition index_of (x : nat) (l : list nat) : result nat :=
  from_option ValueError (fst <$> list_find (λ y, y = x) l).

(** ['H' in {begin symbol, end symbol}] *)
Definition has_h (ss : string * string) : bool :=
  bool_decide (ss.1 = "H" ∨ ss.2 = "H").

(** The loop over [molH.GetAtomWithIdx(i).GetBonds()]: the index of the
    first bond with a hydrogen end, if there is one. *)
Fixpoint find_h_bond (molH : Mol) (todo : list (nat * Bond)) : result (option nat) :=
  match todo with
  | [] => Ok None
  | ib :: todo' =>
      ss ← bond_symbols molH ib.2;
      if has_h ss then Ok (Some ib.1) else find_h_bond molH todo'
  end.

(** The comprehension [h_bond_indices]. *)
Fixpoint h_bond_indices (molH : Mol) (todo : list (nat * Bond)) : result (list nat) :=
  match todo with
  | [] => Ok []
  | ib :: todo' =>
      ss ← bond_symbols molH ib.2;
      rest ← h_bond_indices molH todo';
      mret (if has_h ss then ib.1 :: rest else rest)
  end.

Section problem.

Context {rdkit : RDKit} {collab : Collaborators}.

Local Open Scope Q_scope.

(** The [for i, atom in enumerate(mol.GetAtoms())] loop of
    [prepare_for_bde], from atom [i] on, with the loop variable
    [radical_index].  [todo] holds the atoms still to visit; no atom is
    written before the loop leaves, so they are the live atoms.  The
    setters write to the object behind [mol]. *)
Fixpoint cap_radical_loop (mol : loc) (radical_index : option nat) (i : nat)
    (todo : list Atom) : M (option nat) :=
  match todo with
  | [] => mret radical_index
  | a :: todo' =>
      if negb (num_radical_electrons a =? 0)%nat then
        _ ← lift (assert (bool_decide (radical_index = None)));
        let radical_index := Some i in
        _ ← mutate_atom mol i (SetNumExplicitHs (num_explicit_hs a + 1));
        _ ← mutate_atom mol i (SetNumRadicalElectrons 0);
        mret radical_index  (* break *)
      else cap_radical_loop mol radical_index (S i) todo'
  end.

(** The rest of [prepare_for_bde], from [radical_rank = ...] on.  It reads
    the object [m] behind [mol] as the loop left it, and writes nothing:
    [mol = Chem.MolFromSmiles(mol_smiles)] only binds the local name to a
    new object ([CanonicalRankAtoms] rejects [None]). *)
Definition prepare_from_radical (m : Mol) (radical_index : option nat)
    : result RadicalBDEInputs :=
  radical_rank ←
    match radical_index with
    | None => Raise TypeError
    | Some i => getitem (CanonicalRankAtoms m) i
    end;
  let mol_smiles := MolToSmiles m in
  mol ← from_option TypeError (MolFromSmiles mol_smiles);
  radical_index_reordered ← index_of radical_rank (CanonicalRankAtoms mol);
  let molH := AddHs mol in
  radical_bonds ← atom_bonds molH radical_index_reordered;
  bond_index ← find_h_bond molH radical_bonds;
  h_bond_indices ← h_bond_indices molH (GetBonds molH);
  bond_index ← from_option UnboundLocalError bond_index;
  let other_h_bonds :=
    elements ((list_to_set h_bond_indices : gset nat) ∖ {[bond_index]}) in
  mret {| mol_smiles := mol_smiles;
          radical_index_mol := radical_index_reordered;
          bond_index := bond_index;
          other_h_bonds := other_h_bonds |}.

(** [StableRadOptProblem.prepare_for_bde(self, mol)] *)
Definition prepare_for_bde (mol : loc) : M RadicalBDEInputs :=
  m ← deref mol;
  radical_index ← cap_radical_loop mol None 0 (atoms m);
  m ← deref mol;
  lift (prepare_from_radical m radical_index).

(** [StableRadOptProblem.bde_get_inputs(self, mol_smiles)] *)
Definition bde_get_inputs (mol_smiles : string) : result Features :=
  let inputs := bde_preprocessor mol_smiles in
  _ ← assert (negb (any_eq_1 (atom inputs) || any_eq_1 (bond inputs)));
  mret inputs.

(** [StableRadOptProblem.calc_bde(self, state)] *)
Definition calc_bde (state : MoleculeState) : M (Q * Q) :=
  bde_inputs ← prepare_for_bde (molecule state);
  model_inputs ← lift (bde_get_inputs (mol_smiles bde_inputs));
  pred_bdes ← predict BdeModel (bde_model model_inputs);
  bde_radical ← lift (getitem pred_bdes (bond_index bde_inputs));
  if (length (other_h_bonds bde_inputs) =? 0)%nat then
    let bde_diff := 30 in
    mret (bde_radical, bde_diff)
  else
    other_h_bdes ← lift (take_indices pred_bdes (other_h_bonds bde_inputs));
    bde_diff ← lift (array_min ((λ x, x - bde_radical) <$> other_h_bdes));
    mret (bde_radical, bde_diff).

Definition ea_range : Q * Q := (- (5 # 10), 2 # 10).
Definition ie_range : Q * Q := (5 # 10, 12 # 10).
Definition v_range : Q * Q := (1, 17 # 10).
Definition bde_range : Q * Q := (60, 80).

(** [self.get_policy_inputs(state)] reads the molecule of the state. *)
Definition policy_inputs_of (state : MoleculeState) : M Features :=
  m ← deref (molecule state);
  mret (get_policy_inputs state m).

(** [StableRadOptProblem.calc_reward(self, state)] *)
Definition calc_reward (state : MoleculeState) : M (Q * gmap string pyvalue) :=
  model_inputs ← policy_inputs_of state;
  '(spins, buried_vol) ← predict StabilityModel (stability_model model_inputs);
  atom_index ← lift (argmax spins);
  max_spin ← lift (getitem spins atom_index);
  spin_buried_vol ← lift (getitem buried_vol atom_index);
  m ← deref (molecule state);
  atom_type ← lift (a ← GetAtomWithIdx m atom_index; mret (symbol a));
  '(ionization_energy, electron_affinity) ← predict RedoxModel (redox_model model_inputs);
  let v_diff := ionization_energy - electron_affinity in
  '(bde, bde_diff) ← calc_bde state;
  l_ea ← lift (windowed_loss electron_affinity ea_range);
  l_ie ← lift (windowed_loss ionization_energy ie_range);
  l_v ← lift (windowed_loss v_diff v_range);
  l_bde ← lift (windowed_loss bde bde_range);
  let reward :=
    (1 - max_spin) * 50 + spin_buried_vol + 100 * (l_ea + l_ie + l_v + l_bde) / 4 in
  let stats : gmap string pyvalue :=
    {[ "max_spin" := PyStr (str max_spin);
       "spin_buried_vol" := PyStr (str spin_buried_vol);
       "ionization_energy" := PyStr (str ionization_energy);
       "electron_affinity" := PyStr (str electron_affinity);
       "bde" := PyStr (str bde);
       "bde_diff" := PyStr (str bde_diff) ]} in
  mret (reward, stats).

(** The dictionary [{'forced_terminal': b, 'smiles': state.smiles}] *)
Definition terminal_stats (b : bool) (state : MoleculeState) : gmap string pyvalue :=
  {[ "forced_terminal" := PyBool b; "smiles" := PyStr (smiles state) ]}.

(** [StableRadOptProblem.get_reward(self, state)] *)
Definition get_reward (state : MoleculeState) : M (Q * gmap string pyvalue) :=
  policy_inputs ← policy_inputs_of state;
  if any_eq_1 (atom policy_inputs) || any_eq_1 (bond policy_inputs) then
    mret (0, terminal_stats false state)
  else if forced_terminal state then
    '(reward, stats) ← calc_reward state;
    (* [stats.update(...)]: the new entries win *)
    mret (reward, terminal_stats true state ∪ stats)
  else
    mret (0, terminal_stats false state).

End problem.

(** ** Notions used in the statements *)

(** An atom is a radical atom when [GetNumRadicalElectrons() != 0]. *)
Definition is_radical (a : Atom) : Prop := num_radical_electrons a ≠ 0%nat.

Global Instance is_radical_dec a : Decision (is_radical a).
Proof. unfold is_radical. apply _. Defined.

(** The number of radical atoms of a molecule, and the first of them with
    its index. *)
Definition radical_count (m : Mol) : nat := length (filter is_radical (atoms m)).

Definition first_radical (m : Mol) : option (nat * Atom) := list_find is_radical (atoms m).

(** Capping: one more explicit hydrogen, no radical electron. *)
Definition cap (a : Atom) : Atom :=
  SetNumRadicalElectrons 0 (SetNumExplicitHs (num_explicit_hs a + 1) a).

Definition capped (i : nat) (m : Mol) : Mol := update_atom i cap m.

(** Bond number [i] of [m] has a hydrogen at one of its ends. *)
Definition h_bond (m : Mol) (i : nat) : Prop :=
  ∃ b a1 a2,
    bonds m !! i = Some b
    ∧ atoms m !! begin_atom b = Some a1
    ∧ atoms m !! end_atom b = Some a2
    ∧ (symbol a1 = "H" ∨ symbol a2 = "H").

(** The world after one more run of a model. *)
Definition after_predict (name : model_name) (w : World) : World :=
  {| store := store w; predict_log := predict_log w ++ [name] |}.

(** A featurization is in the domain of its model when it holds no unknown
    token. *)
Definition in_domain (inputs : Features) : bool :=
  negb (any_eq_1 (atom inputs) || any_eq_1 (bond inputs)).

(** The three pure stretches of [calc_reward] and [calc_bde], named so
    that statements can refer to them. *)

Section stretches.

Context {collab : Collaborators}.

Local Open Scope Q_scope.

(** [calc_reward], from [atom_index = ...] to [atom_type = ...]: the atom
    of greatest spin, its spin and its buried volume. *)
Definition radical_site (spins buried_vol : list Q) (m : Mol) : result (nat * Q * Q) :=
  atom_index ← argmax spins;
  max_spin ← getitem spins atom_index;
  spin_buried_vol ← getitem buried_vol atom_index;
  atom_type ← (a ← GetAtomWithIdx m atom_index; mret (symbol a));
  mret (atom_index, max_spin, spin_buried_vol).

(** [calc_reward], from the four [windowed_loss] calls on. *)
Definition combine_reward (max_spin spin_buried_vol ionization_energy
    electron_affinity bde bde_diff : Q) : result (Q * gmap string pyvalue) :=
  let v_diff := ionization_energy - electron_affinity in
  l_ea ← windowed_loss electron_affinity ea_range;
  l_ie ← windowed_loss ionization_energy ie_range;
  l_v ← windowed_loss v_diff v_range;
  l_bde ← windowed_loss bde bde_range;
  let reward :=
    (1 - max_spin) * 50 + spin_buried_vol + 100 * (l_ea + l_ie + l_v + l_bde) / 4 in
  let stats : gmap string pyvalue :=
    {[ "max_spin" := PyStr (str max_spin);
       "spin_buried_vol" := PyStr (str spin_buried_vol);
       "ionization_energy" := PyStr (str ionization_energy);
       "electron_affinity" := PyStr (str electron_affinity);
       "bde" := PyStr (str bde);
       "bde_diff" := PyStr (str bde_diff) ]} in
  mret (reward, stats).

(** The reward of the specification, section 4.4 step 3d. *)
Definition reward_formula (max_spin spin_buried_vol ionization_energy
    electron_affinity bde : Q) : Q :=
  (1 - max_spin) * 50 + spin_buried_vol
  + 100 * ((windowed_reference electron_affinity (- (5 # 10)) (2 # 10)
            + windowed_reference ionization_energy (5 # 10) (12 # 10)
            + windowed_reference (ionization_energy - electron_affinity) 1 (17 # 10)
            + windowed_reference bde 60 80) / 4).

(** [calc_bde], from [bde_radical = ...] on. *)
Definition bde_of_predictions (pred_bdes : list Q) (bde_inputs : RadicalBDEInputs)
    : result (Q * Q) :=
  bde_radical ← getitem pred_bdes (bond_index bde_inputs);
  if (length (other_h_bonds bde_inputs) =? 0)%nat then
    mret (bde_radical, 30)
  else
    other_h_bdes ← take_indices pred_bdes (other_h_bonds bde_inputs);
    bde_diff ← array_min ((λ x, x - bde_radical) <$> other_h_bdes);
    mret (bde_radical, bde_diff).

End stretches.

(** ** GraphGymModel *)

Module GraphGym.

Local Open Scope Q_scope.

(** A tensor of rank 2: its shape (batch size, number of actions) and its
    entries, row after row. *)
Record Tensor (A : Type) : Type := {
  shape : nat * nat;
  entries : list A;
}.
Arguments shape {A} t.
Arguments entries {A} t.

(** A tensor of rank 1 as the per-action model returns it, with
    [dtype.min] of its dtype. *)
Record FlatTensor : Type := {
  dtype_min : Q;
  flat_entries : list Q;
}.

(** [input_dict['obs']['action_mask']]: of dtype bool, or numeric. *)
Inductive MaskTensor : Type :=
| BoolMask (t : Tensor bool)
| NumericMask (t : Tensor Q).

(** The object state of a [GraphGymModel]: [self.total_value]. *)
Record GraphGymModel : Type := {
  total_value : option (list Q);
}.

(** Entry [(b, a)] of a tensor. *)
Definition entry {A : Type} (t : Tensor A) (b a : nat) : option A :=
  if decide (a < (shape t).2)%nat then entries t !! (b * (shape t).2 + a)%nat
  else None.

(** Row [b] of a tensor. *)
Definition row {A : Type} (t : Tensor A) (b : nat) : list A :=
  take (shape t).2 (drop (b * (shape t).2) (entries t)).

(** [tf.equal(t, 1.0)] *)
Definition tf_equal_1 (t : Tensor Q) : Tensor bool :=
  {| shape := shape t; entries := (λ x, Qeq_bool x 1) <$> entries t |}.

(** [tf.reshape(flat, shape)] *)
Definition tf_reshape (flat : FlatTensor) (sh : nat * nat) : result (Tensor Q) :=
  if decide (length (flat_entries flat) = sh.1 * sh.2)%nat
  then Ok {| shape := sh; entries := flat_entries flat |}
  else Raise InvalidArgumentError.

(** [tf.where(mask, t, c)] on tensors of one shape *)
Definition tf_where (mask : Tensor bool) (t : Tensor Q) (c : Q) : Tensor Q :=
  {| shape := shape t;
     entries := zip_with (λ (m : bool) x, if m then x else c) (entries mask) (entries t) |}.

Section model.

(** The rows of an observation tensor, the per-action model
    ([MoleculeModel.forward], on the flattened observations), what
    [tf.reduce_max] gives on an empty row, and the types of the
    arguments [state] and [seq_lens]. *)
Context {X S L : Type}.
Context (per_action_model : gmap string (list X) → FlatTensor * FlatTensor).
Context (reduce_max_empty : Q).

(** [input_dict['obs']] *)
Record Obs : Type := {
  action_mask : MaskTensor;
  action_observations : list (gmap string (list X));
}.

(** The greatest entry of a row. *)
Definition max_of (r : list Q) : Q :=
  match r with
  | [] => reduce_max_empty
  | x :: xs => foldl Qmax x xs
  end.

(** [tf.reduce_max(t, axis=1)] *)
Definition tf_reduce_max_axis1 (t : Tensor Q) : list Q :=
  (λ b, max_of (row t b)) <$> seq 0 (shape t).1.

(** The loop that builds [flat_action_observations]: for every key of
    the first action's observation, the concatenation along axis 0 of
    that entry of every action's observation. *)
Definition flatten_key (obs : list (gmap string (list X))) (key : string)
    : result (list X) :=
  sublist ← mapM (λ o : gmap string (list X), from_option KeyError (o !! key)) obs;
  mret (concat sublist).

Definition flatten_observations (obs : list (gmap string (list X)))
    : result (gmap string (list X)) :=
  first ← getitem obs 0;
  foldr (λ key acc,
           flat ← acc;
           v ← flatten_key obs key;
           mret (<[key := v]> flat))
        (Ok ∅) (elements (dom first)).

(** The bool mask that [forward] works with. *)
Definition bool_mask (mask : MaskTensor) : Tensor bool :=
  match mask with
  | BoolMask t => t
  | NumericMask t => tf_equal_1 t
  end.

(** The [action_values] of [forward] after [tf.where]. *)
Definition masked_action_values (mask : Tensor bool) (flat_action_values : FlatTensor)
    : result (Tensor Q) :=
  action_values ← tf_reshape flat_action_values (shape mask);
  mret (tf_where mask action_values (dtype_min flat_action_values)).

(** [GraphGymModel.forward(self, input_dict, state, seq_lens)]: the
    result or the exception, and the object afterwards. *)
Definition forward (self : GraphGymModel) (obs : Obs) (state : S) (seq_lens : L)
    : result (Tensor Q * S) * GraphGymModel :=
  let action_mask := bool_mask (action_mask obs) in
  let action_mask_shape := shape action_mask in
  match flatten_observations (action_observations obs) with
  | Raise e => (Raise e, self)
  | Ok flat_action_observations =>
      let '(flat_action_values, flat_action_weights) :=
        per_action_model flat_action_observations in
      match masked_action_values action_mask flat_action_values with
      | Raise e => (Raise e, self)
      | Ok action_values =>
          let self := {| total_value := Some (tf_reduce_max_axis1 action_values) |} in
          match tf_reshape flat_action_weights action_mask_shape with
          | Raise e => (Raise e, self)
          | Ok action_weights =>
              let action_weights :=
                tf_where action_mask action_weights (dtype_min flat_action_weights) in
              (Ok (action_weights, state), self)
          end
      end
  end.

(** [GraphGymModel.value_function(self)] *)
Definition value_function (self : GraphGymModel) : option (list Q) :=
  total_value self.

End model.

(** The shape of [input_dict['obs']['action_mask']], and whether action
    [a] of batch element [b] is valid: its mask entry is [True], or, in a
    numeric mask, equal to 1. *)
Definition mask_shape (mask : MaskTensor) : nat * nat :=
  match mask with
  | BoolMask t => shape t
  | NumericMask t => shape t
  end.

Definition valid_action (mask : MaskTensor) (b a : nat) : option bool :=
  match mask with
  | BoolMask t => entry t b a
  | NumericMask t => (λ x, Qeq_bool x 1) <$> entry t b a
  end.

End GraphGym.

(** ** A small laboratory: concrete molecules and collaborators

    The radicals below are written as RDKit holds them; the tables give, for
    these molecules only, what the four RDKit functions return.  They are
    used to run the code on concrete inputs. *)

Module Lab.

Local Open Scope Q_scope.

Definition mk_atom (s : string) (r h : nat) : Atom :=
  {| symbol := s; num_radical_electrons := r; num_explicit_hs := h |}.

Definition mk_bond (b e : nat) : Bond := {| begin_atom := b; end_atom := e |}.

Definition H : Atom := mk_atom "H" 0 0.

(** Methyl radical [[CH3]], its capped form, and methane [C] as parsed and
    with explicit hydrogens. *)
Definition methyl : Mol := {| atoms := [mk_atom "C" 1 3]; bonds := [] |}.
Definition methyl_capped : Mol := {| atoms := [mk_atom "C" 0 4]; bonds := [] |}.
Definition methane : Mol := {| atoms := [mk_atom "C" 0 0]; bonds := [] |}.
Definition methane_H : Mol :=
  {| atoms := [mk_atom "C" 0 0; H; H; H; H];
     bonds := [mk_bond 0 1; mk_bond 0 2; mk_bond 0 3; mk_bond 0 4] |}.

(** Methylthiyl radical [C[S]]; capped it is methanethiol [CS]. *)
Definition methylthiyl : Mol :=
  {| atoms := [mk_atom "C" 0 0; mk_atom "S" 1 0]; bonds := [mk_bond 0 1] |}.
Definition methylthiyl_capped : Mol :=
  {| atoms := [mk_atom "C" 0 0; mk_atom "S" 0 1]; bonds := [mk_bond 0 1] |}.
Definition methanethiol : Mol :=
  {| atoms := [mk_atom "C" 0 0; mk_atom "S" 0 0]; bonds := [mk_bond 0 1] |}.
Definition methanethiol_H : Mol :=
  {| atoms := [mk_atom "C" 0 0; mk_atom "S" 0 0; H; H; H; H];
     bonds := [mk_bond 0 1; mk_bond 0 2; mk_bond 0 3; mk_bond 0 4; mk_bond 1 5] |}.

(** The radical [[O]N=O]; capped it is nitrous acid, [O=NO] in canonical
    form, where the capped oxygen comes last. *)
Definition nitrite : Mol :=
  {| atoms := [mk_atom "O" 1 0; mk_atom "N" 0 0; mk_atom "O" 0 0];
     bonds := [mk_bond 0 1; mk_bond 1 2] |}.
Definition nitrite_capped : Mol :=
  {| atoms := [mk_atom "O" 0 1; mk_atom "N" 0 0; mk_atom "O" 0 0];
     bonds := [mk_bond 0 1; mk_bond 1 2] |}.
Definition nitrous_acid : Mol :=
  {| atoms := [mk_atom "O" 0 0; mk_atom "N" 0 0; mk_atom "O" 0 0];
     bonds := [mk_bond 0 1; mk_bond 1 2] |}.
Definition nitrous_acid_H : Mol :=
  {| atoms := [mk_atom "O" 0 0; mk_atom "N" 0 0; mk_atom "O" 0 0; H];
     bonds := [mk_bond 0 1; mk_bond 1 2; mk_bond 2 3] |}.

(** Ethane-1,2-diyl [[CH2][CH2]] has two radical atoms.  With the first
    one capped it is the ethyl radical, [[CH2]C] in canonical form. *)
Definition ethanediyl : Mol :=
  {| atoms := [mk_atom "C" 1 2; mk_atom "C" 1 2]; bonds := [mk_bond 0 1] |}.
Definition ethanediyl_capped : Mol :=
  {| atoms := [mk_atom "C" 0 3; mk_atom "C" 1 2]; bonds := [mk_bond 0 1] |}.
Definition ethyl : Mol :=
  {| atoms := [mk_atom "C" 1 2; mk_atom "C" 0 0]; bonds := [mk_bond 0 1] |}.
Definition ethyl_H : Mol :=
  {| atoms := [mk_atom "C" 1 0; mk_atom "C" 0 0; H; H; H; H; H];
     bonds := [mk_bond 0 1; mk_bond 0 2; mk_bond 0 3;
               mk_bond 1 4; mk_bond 1 5; mk_bond 1 6] |}.

(** Phosphine-derived radical [C[PH]]: phosphorus is not an atom the
    policy preprocessor knows. *)
Definition methylphosphinyl : Mol :=
  {| atoms := [mk_atom "C" 0 0; mk_atom "P" 1 1]; bonds := [mk_bond 0 1] |}.

Definition table_get {A B : Type} `{EqDecision A} (t : list (A * B)) (x : A) : option B :=
  snd <$> (snd <$> list_find (λ p, p.1 = x) t).

Global Instance rdkit : RDKit := {|
  CanonicalRankAtoms m :=
    default (seq 0 (length (atoms m)))
      (table_get [(nitrite_capped, [0; 2; 1]); (nitrous_acid, [1; 2; 0]);
                  (ethanediyl_capped, [0; 1]); (ethyl, [1; 0])]%nat m);
  MolToSmiles m :=
    default "" (table_get [(methyl_capped, "C"); (methane, "C");
                           (methylthiyl_capped, "CS");
                           (nitrite_capped, "O=NO");
                           (ethanediyl_capped, "[CH2]C")] m);
  MolFromSmiles s :=
    table_get [("C", methane); ("CS", methanethiol); ("O=NO", nitrous_acid);
               ("[CH2]C", ethyl)] s;
  AddHs m :=
    default m (table_get [(methane, methane_H); (methanethiol, methanethiol_H);
                          (nitrous_acid, nitrous_acid_H); (ethyl, ethyl_H)] m);
|}.

(** Class indices of a preprocessor with the given vocabulary: position
    in the vocabulary plus 2, and 1 for a symbol outside it. *)
Definition token (vocabulary : list string) (s : string) : Z :=
  match list_find (λ v, v = s) vocabulary with
  | Some (i, _) => Z.of_nat i + 2
  | None => 1
  end.

Definition featurize (vocabulary : list string) (m : Mol) : Features :=
  {| atom := (λ a, token vocabulary (symbol a)) <$> atoms m;
     bond := (λ _, 2%Z) <$> bonds m;
     connectivity := (λ b, (begin_atom b, end_atom b)) <$> bonds m |}.

Global Instance collab : Collaborators := {|
  get_policy_inputs _ m := featurize ["C"; "N"; "O"; "S"] m;
  stability_model inputs :=
    ((λ t, inject_Z t / 10) <$> atom inputs, (λ t, 40 + inject_Z t) <$> atom inputs);
  redox_model _ := (9 # 10, - (2 # 10));
  bde_preprocessor s :=
    match MolFromSmiles s with
    | Some m => featurize ["C"; "H"; "N"; "O"] (AddHs m)
    | None => {| atom := []; bond := []; connectivity := [] |}
    end;
  bde_model inputs := imap (λ i _, 70 + 5 * inject_Z (Z.of_nat i)) (bond inputs);
  str q := pretty (Qnum q) +:+ "/" +:+ pretty (Zpos (Qden q));
|}.

(** A world with one molecule object, and a state that refers to it. *)
Definition world (m : Mol) : World := {| store := λ _, m; predict_log := [] |}.

Definition state (terminal : bool) (s : string) : MoleculeState :=
  {| molecule := 0; forced_terminal := terminal; smiles := s |}.

(** A batch of two observations with three actions each: the mask, as
    numbers, and one observation tensor per action under the key [atom].
    The per-action model values an action by its observation and weighs it
    by a tenth of it; its outputs are float32 tensors. *)
Definition float32_min : Q := - 340282346638528859811704183484516925440.

Definition gym_obs : GraphGym.Obs (X := nat) :=
  {| GraphGym.action_mask :=
       GraphGym.NumericMask
         {| GraphGym.shape := (2, 3)%nat;
            GraphGym.entries := [1; 0; 1; 0; 0; 1] |};
     GraphGym.action_observations :=
       [ {[ "atom" := [5; 1]%nat ]};
         {[ "atom" := [7; 2]%nat ]};
         {[ "atom" := [3; 9]%nat ]} ] |}.

Definition gym_flat_obs : gmap string (list nat) :=
  {[ "atom" := [5; 1; 7; 2; 3; 9]%nat ]}.

Definition gym_model (flat : gmap string (list nat))
    : GraphGym.FlatTensor * GraphGym.FlatTensor :=
  let rows := default [] (flat !! "atom") in
  ({| GraphGym.dtype_min := float32_min;
      GraphGym.flat_entries := (λ x, inject_Z (Z.of_nat x)) <$> rows |},
   {| GraphGym.dtype_min := float32_min;
      GraphGym.flat_entries := (λ x, inject_Z (Z.of_nat x) / 10) <$> rows |}).

(** The same observations without any action, with no valid action for
    the second batch element (the mask given as booleans), and a per-action
    model that returns the values of [gym_model] and no weight. *)
Definition gym_obs_empty : GraphGym.Obs (X := nat) :=
  {| GraphGym.action_mask := GraphGym.action_mask gym_obs;
     GraphGym.action_observations := [] |}.

Definition gym_obs_idle : GraphGym.Obs (X := nat) :=
  {| GraphGym.action_mask :=
       GraphGym.BoolMask
         {| GraphGym.shape := (2, 3)%nat;
            GraphGym.entries := [true; false; true; false; false; false] |};
     GraphGym.action_observations := GraphGym.action_observations gym_obs |}.

Definition gym_model_no_weights (flat : gmap string (list nat))
    : GraphGym.FlatTensor * GraphGym.FlatTensor :=
  ((gym_model flat).1,
   {| GraphGym.dtype_min := float32_min; GraphGym.flat_entries := [] |}).

(** A molecule without atoms. *)
Definition no_atoms : Mol := {| atoms := []; bonds := [] |}.

End Lab.


(** * Properties *)

(** ** Python arithmetic *)

Ltac qconst :=
  unfold Qdiv in *;
  change (/ 3)%Q with (1 # 3)%Q in *;
  change (/ 6)%Q with (1 # 6)%Q in *;
  change (/ 4)%Q with (1 # 4)%Q in *.

Section py_facts.

Local Open Scope Q_scope.

Lemma lt_true x y : Py.lt x y = true ↔ x < y.
Proof.
  unfold Py.lt. rewrite negb_true_iff. split; intros Hxy.
  - apply Qnot_le_lt. intros Hle. apply Qle_bool_iff in Hle. congruence.
  - destruct (Qle_bool y x) eqn:E; [|done].
    apply Qle_bool_iff in E. exfalso. by apply (Qlt_not_le x y).
Qed.

Lemma lt_false x y : Py.lt x y = false ↔ y <= x.
Proof. unfold Py.lt. rewrite negb_false_iff. apply Qle_bool_iff. Qed.

Lemma truediv_nonzero x y : ¬ y == 0 → Py.truediv x y = Ok (x / y).
Proof.
  intros Hy. unfold Py.truediv.
  destruct (Qeq_bool y 0) eqn:E; [|done].
  apply Qeq_bool_iff in E. contradiction.
Qed.

Lemma truediv_zero x y : y == 0 → Py.truediv x y = Raise ZeroDivisionError.
Proof.
  intros Hy. unfold Py.truediv. apply Qeq_bool_iff in Hy. by rewrite Hy.
Qed.

Lemma max_0_nonneg x : 0 <= Py.max x 0.
Proof.
  unfold Py.max, Py.gt. destruct (Py.lt x 0) eqn:E; [lra|].
  by apply lt_false in E.
Qed.

Lemma max_0_neg x : x <= 0 → Py.max x 0 == 0.
Proof.
  intros Hx. unfold Py.max, Py.gt. destruct (Py.lt x 0) eqn:E; [lra|].
  apply lt_false in E. lra.
Qed.

Lemma max_0_pos x : 0 <= x → Py.max x 0 = x.
Proof.
  intros Hx. unfold Py.max, Py.gt. apply lt_false in Hx. by rewrite Hx.
Qed.

Lemma max_0_ge x : x <= Py.max x 0.
Proof.
  unfold Py.max, Py.gt. destruct (Py.lt x 0) eqn:E; [|lra].
  apply lt_true in E. lra.
Qed.

Lemma max_is_Qmax x y : Py.max x y = Qmax x y.
Proof.
  unfold Py.max, Py.gt. destruct (Py.lt x y) eqn:E.
  - apply lt_true in E. unfold Qmax, GenericMinMax.gmax.
    destruct (x ?= y) eqn:C; try done.
    + apply Qeq_alt in C. lra.
    + apply Qgt_alt in C. lra.
  - apply lt_false in E. unfold Qmax, GenericMinMax.gmax.
    destruct (x ?= y) eqn:C; try done.
    apply Qlt_alt in C. lra.
Qed.

(** The quotient by a positive span, read linearly. *)
Lemma quotient_bounds a span :
  0 < span → 0 <= a →
  0 <= a / span ∧ (span / 3 <= a → 1 <= 3 * (a / span))
  ∧ (a <= span / 3 → 3 * (a / span) <= 1).
Proof.
  intros Hs Ha. split_and!.
  - apply Qle_shift_div_l; lra.
  - intros H. assert (1 / 3 <= a / span) as Hd.
    { apply Qle_shift_div_l; qconst; lra. }
    qconst. lra.
  - intros H. assert (a / span <= 1 / 3) as Hd.
    { apply Qle_shift_div_r; qconst; lra. }
    qconst. lra.
Qed.

(** The same for a negative span. *)
Lemma quotient_neg a span : span < 0 → 0 <= a → a / span <= 0.
Proof.
  intros Hs Ha.
  assert (0 <= a / - span) as H by (apply Qle_shift_div_l; lra).
  assert (a / - span == - (a / span)) as E; [|lra].
  field. lra.
Qed.

End py_facts.

(** ** WindowedScorer *)

Section windowed_loss_facts.

Local Open Scope Q_scope.

(** One decaying side of the window: the distance [a] to the plateau
    scores [max(1 - 3a/span, 0)], which lies in [0, 1] and is 0 from
    [span/3] on. *)
Lemma decay_score a span :
  0 < span → 0 <= a →
  let score := Py.max (1 - 3 * (a / span)) 0 in
  score == Qmax (1 - 3 * a / span) 0
  ∧ 0 <= score <= 1
  ∧ (span / 3 <= a → score == 0).
Proof.
  intros Hs Ha score.
  destruct (quotient_bounds a span Hs Ha) as (Hd0 & Hge & _).
  assert (3 * a / span == 3 * (a / span)) as E by (field; lra).
  split_and!.
  - unfold score. rewrite max_is_Qmax. by rewrite E.
  - apply max_0_nonneg.
  - unfold score. destruct (Qlt_le_dec (1 - 3 * (a / span)) 0) as [Hn|Hp].
    + rewrite max_0_neg; lra.
    + rewrite max_0_pos; [|done]. revert Hd0. generalize (a / span). intros; lra.
  - intros H. apply max_0_neg. specialize (Hge H).
    revert Hge. generalize (a / span). intros; lra.
Qed.

(** What [windowed_loss] computes on a span that is not zero. *)
Lemma windowed_loss_nonzero_span target low high :
  ¬ high - low == 0 →
  windowed_loss target (low, high) =
    if Py.lt target (low + (high - low) / 6)
    then Ok (Py.max (1 - 3 * (Qabs (target - (low + (high - low) / 6)) / (high - low))) 0)
    else if Py.gt target (high - (high - low) / 6)
    then Ok (Py.max (1 - 3 * (Qabs (target - (high - (high - low) / 6)) / (high - low))) 0)
    else Ok 1.
Proof.
  intros Hspan. unfold windowed_loss, Py.abs. simpl.
  by rewrite !truediv_nonzero.
Qed.

(** On a positive span [windowed_loss] returns, and what it returns is
    the piecewise score. *)
Lemma windowed_loss_sound (target low high : Q) :
  low < high →
  ∃ score,
    windowed_loss target (low, high) = Ok score
    ∧ score == windowed_reference target low high
    ∧ (inner_low low high <= target <= inner_high low high → score == 1)
    ∧ (target < inner_low low high →
       score == Qmax (1 - 3 * Qabs (target - inner_low low high) / (high - low)) 0)
    ∧ (inner_high low high < target →
       score == Qmax (1 - 3 * Qabs (target - inner_high low high) / (high - low)) 0)
    ∧ 0 <= score <= 1
    ∧ (target <= low - (high - low) / 3 → score == 0)
    ∧ (high + (high - low) / 3 <= target → score == 0).
Proof.
  intros Hlh.
  assert (0 < high - low) as Hspan by lra.
  assert (inner_low low high < inner_high low high) as Hinner.
  { unfold inner_low, inner_high. qconst. lra. }
  rewrite windowed_loss_nonzero_span by lra.
  fold (inner_low low high) (inner_high low high).
  unfold windowed_reference, Py.gt.
  destruct (Py.lt target (inner_low low high)) eqn:Elow.
  - (* below the plateau *)
    apply lt_true in Elow.
    assert (Qle_bool (inner_low low high) target = false) as ->.
    { destruct (Qle_bool _ _) eqn:E; [|done]. apply Qle_bool_iff in E. lra. }
    simpl.
    assert (Qabs (target - inner_low low high) == inner_low low high - target) as Eabs.
    { rewrite Qabs_neg; lra. }
    destruct (decay_score (Qabs (target - inner_low low high)) (high - low))
      as (Eref & Hbounds & Hzero); [done|apply Qabs_nonneg|].
    eexists. split; [done|].
    split; [exact Eref|].
    split; [intros [? ?]; lra|].
    split; [intros _; exact Eref|].
    split; [intros ?; lra|].
    split; [exact Hbounds|].
    split; intros Ht.
    + apply Hzero. rewrite Eabs. unfold inner_low. qconst. lra.
    + unfold inner_low, inner_high in *. qconst. lra.
  - apply lt_false in Elow.
    assert (Qle_bool (inner_low low high) target = true) as ->
      by by apply Qle_bool_iff.
    destruct (Py.lt (inner_high low high) target) eqn:Ehigh.
    + (* above the plateau *)
      apply lt_true in Ehigh.
      assert (Qle_bool target (inner_high low high) = false) as ->.
      { destruct (Qle_bool _ _) eqn:E; [|done]. apply Qle_bool_iff in E. lra. }
      simpl.
      assert (Qabs (target - inner_high low high) == target - inner_high low high) as Eabs.
      { rewrite Qabs_pos; lra. }
      destruct (decay_score (Qabs (target - inner_high low high)) (high - low))
        as (Eref & Hbounds & Hzero); [done|apply Qabs_nonneg|].
      eexists. split; [done|].
      split; [exact Eref|].
      split; [intros [? ?]; lra|].
      split; [intros ?; lra|].
      split; [intros _; exact Eref|].
      split; [exact Hbounds|].
      split; intros Ht.
      * unfold inner_low, inner_high in *. qconst. lra.
      * apply Hzero. rewrite Eabs. unfold inner_high. qconst. lra.
    + (* on the plateau *)
      apply lt_false in Ehigh.
      assert (Qle_bool target (inner_high low high) = true) as ->
        by by apply Qle_bool_iff.
      simpl. eexists. split; [done|].
      split; [done|].
      split; [done|].
      split; [intros ?; lra|].
      split; [intros ?; lra|].
      split; [lra|].
      split; intros Ht.
      * unfold inner_low in *. qconst. lra.
      * unfold inner_high in *. qconst. lra.
Qed.

(** What the interpreter returns at the targets used below. *)
Lemma binary64_at_60 :
  Binary64.windowed_loss 60 (60, 80)%float = Ok 0x1.ffffffffffff8p-2%float
  ∧ Binary64.to_Q 0x1.ffffffffffff8p-2%float
    = Some (9007199254740984 # 18014398509481984).
Proof. by vm_compute. Qed.

Lemma binary64_at_80 :
  Binary64.windowed_loss (60 + 80 - 60) (60, 80)%float
  = Ok 0x1.0000000000006p-1%float
  ∧ Binary64.to_Q 0x1.0000000000006p-1%float
    = Some (4503599627370502 # 9007199254740992).
Proof. by vm_compute. Qed.

Lemma binary64_at_61 :
  Binary64.windowed_loss 61 (60, 80)%float = Ok 0x1.4cccccccccccap-1%float
  ∧ Binary64.to_Q 0x1.4cccccccccccap-1%float
    = Some (5854679515581642 # 9007199254740992).
Proof. by vm_compute. Qed.

Lemma binary64_overflow :
  ∃ r,
    Binary64.windowed_loss 0
      (-0x1.1ccf385ebc8ap+1023, 0x1.1ccf385ebc8ap+1023)%float = Ok r
    ∧ PrimFloat.is_nan r = true.
Proof. eexists. split; by vm_compute. Qed.

(** C6, as the claim states it, fails for the program: in binary64
    [windowed_loss(60, (60, 80))] is not 0.5 but a float below it
    (0.5 - 2^-51), and on the range (-1e308, 1e308), whose span overflows,
    the target 0 is given NaN, which is not between 0 and 1. *)
Lemma windowed_loss_binary64_not_half :
  (∃ r,
     Binary64.windowed_loss 60 (60, 80)%float = Ok r
     ∧ (r =? 0.5)%float = false
     ∧ (r <? 0.5)%float = true)
  ∧ (∃ r,
       (-0x1.1ccf385ebc8ap+1023 <? 0x1.1ccf385ebc8ap+1023)%float = true
       ∧ Binary64.windowed_loss 0
           (-0x1.1ccf385ebc8ap+1023, 0x1.1ccf385ebc8ap+1023)%float = Ok r
       ∧ ((0 <=? r) && (r <=? 1))%float = false).
Proof. split; eexists; by vm_compute. Qed.

(** C6, amended.  In exact arithmetic, on a range [(low, high)] of
    positive span [windowed_loss] returns (it does not raise) the piecewise
    score of the specification: 1 on the plateau
    [[low + span/6, high - span/6]], and on either side
    [max(1 - 3|target - edge|/span, 0)] for the edge of the plateau on
    that side; so the score lies in [[0, 1]], it is 0 for every target
    at [low - span/3] or below (and at [high + span/3] or above), and on
    the range (60, 80) the target 60 scores one half.  In binary64, as the
    interpreter computes, rounding breaks the equalities: on (60, 80) the
    target 60 scores 1/2 - 2^-51, and on a range whose span overflows the
    score is NaN. *)
Theorem windowed_loss_piecewise (target low high : Q) :
  (low < high →
   ∃ score,
     windowed_loss target (low, high) = Ok score
     ∧ score == windowed_reference target low high
     ∧ (inner_low low high <= target <= inner_high low high → score == 1)
     ∧ (target < inner_low low high →
        score == Qmax (1 - 3 * Qabs (target - inner_low low high) / (high - low)) 0)
     ∧ (inner_high low high < target →
        score == Qmax (1 - 3 * Qabs (target - inner_high low high) / (high - low)) 0)
     ∧ 0 <= score <= 1
     ∧ (target <= low - (high - low) / 3 → score == 0)
     ∧ (high + (high - low) / 3 <= target → score == 0))
  ∧ (∃ score, windowed_loss 60 (60, 80) = Ok score ∧ score == 1 # 2)
  ∧ (∃ r q,
       Binary64.windowed_loss 60 (60, 80)%float = Ok r
       ∧ Binary64.to_Q r = Some q
       ∧ q == (1 # 2) - (1 # 2251799813685248))
  ∧ (∃ r,
       Binary64.windowed_loss 0
         (-0x1.1ccf385ebc8ap+1023, 0x1.1ccf385ebc8ap+1023)%float = Ok r
       ∧ PrimFloat.is_nan r = true).
Proof.
  split; [by apply windowed_loss_sound|]. split; [by eexists|]. split.
  - destruct binary64_at_60 as [Hrun Hq].
    eexists _, _. split; [exact Hrun|]. split; [exact Hq|]. by vm_compute.
  - exact binary64_overflow.
Qed.

(** The float nearest to -1e-20, on the range (-1, 5). *)
Lemma binary64_below_plateau :
  Binary64.windowed_loss (-0x1.79ca10c924223p-67) (-1, 5)%float = Ok 1%float
  ∧ Binary64.to_Q (-0x1.79ca10c924223p-67)%float
    = Some (- (6646139978924579 # 1) * Qpower 2 (-119)).
Proof. by vm_compute. Qed.

Lemma windowed_loss_piecewise_witness :
  windowed_loss 53 (60, 80)%Q = Ok 0%Q
  ∧ (∃ score, windowed_loss 53 (60, 80)%Q = Ok score ∧ (0 <= score <= 1)%Q).
Proof.
  split; [reflexivity|].
  destruct (proj1 (windowed_loss_piecewise 53 60 80))
    as (score & H & _ & _ & _ & _ & Hb & _).
  - reflexivity.
  - exists score. split; [exact H|exact Hb].
Defined.

(** C7, as the claim states it, fails: on the range (1, 0), of span -1,
    the target 1/2 is given the score 2, and on the range (3, 3), of
    span 0, the target 3 is given the score 1; nothing is raised. *)
Lemma windowed_loss_nonpositive_span_returns :
  ¬ (∀ target low high : Q,
       high - low <= 0 → ∃ e, windowed_loss target (low, high) = Raise e).
Proof.
  intros Hclaim.
  destruct (Hclaim (1 # 2) 1 0) as [e He]; [by vm_compute|].
  vm_compute in He. discriminate He.
Qed.

(** C7, amended.  [windowed_loss] has no check of the span.  On a
    negative span it returns, from one of its two decaying branches, a
    score that is at least 1.  On a zero span it returns 1 when the
    target equals [low], and raises [ZeroDivisionError] for every other
    target. *)
Theorem windowed_loss_nonpositive_span (target low high : Q) :
  high - low <= 0 →
  (high - low < 0 →
     ∃ score, windowed_loss target (low, high) = Ok score ∧ 1 <= score)
  ∧ (high - low == 0 →
     (target == low → windowed_loss target (low, high) = Ok 1)
     ∧ (¬ target == low →
        windowed_loss target (low, high) = Raise ZeroDivisionError)).
Proof.
  intros _. split.
  - intros Hspan.
    rewrite windowed_loss_nonzero_span by lra.
    assert (∀ a, 0 <= a → 1 <= Py.max (1 - 3 * (a / (high - low))) 0) as Hone.
    { intros a Ha. pose proof (quotient_neg a (high - low) Hspan Ha) as Hd.
      eapply Qle_trans; [|apply max_0_ge].
      revert Hd. generalize (a / (high - low)). intros; lra. }
    destruct (Py.lt target _) eqn:Elow.
    { eexists. split; [done|]. apply Hone, Qabs_nonneg. }
    apply lt_false in Elow.
    assert (Py.gt target (high - (high - low) / 6) = true) as ->.
    { apply lt_true. qconst. lra. }
    eexists. split; [done|]. apply Hone, Qabs_nonneg.
  - intros Hspan. unfold windowed_loss. simpl.
    split; intros Ht.
    + assert (Py.lt target (low + (high - low) / 6) = false) as ->.
      { apply lt_false. qconst. lra. }
      assert (Py.gt target (high - (high - low) / 6) = false) as ->.
      { apply lt_false. qconst. lra. }
      done.
    + rewrite !truediv_zero by done.
      destruct (Py.lt target _) eqn:Elow; [done|].
      apply lt_false in Elow.
      assert (Py.gt target (high - (high - low) / 6) = true) as ->; [|done].
      apply lt_true.
      assert (low < target); [|qconst; lra].
      apply Qnot_le_lt. intros Hle. apply Ht. qconst. lra.
Qed.

Lemma windowed_loss_nonpositive_span_witness :
  (∃ score, windowed_loss (1 # 2) (1, 0) = Ok score ∧ 1 <= score)
  ∧ windowed_loss 4 (3, 3) = Raise ZeroDivisionError.
Proof.
  split.
  - apply (windowed_loss_nonpositive_span (1 # 2) 1 0); by vm_compute.
  - apply (windowed_loss_nonpositive_span 4 3 3); by vm_compute.
Defined.

End windowed_loss_facts.

(** ** The world: what each step reads and writes *)

Section world_facts.

Context {rdkit : RDKit} {collab : Collaborators}.

Lemma bind_unfold {A B : Type} (m : M A) (k : A → M B) (w : World) :
  (m ≫= k) w =
    match m w with
    | (Ok a, w') => k a w'
    | (Raise e, w') => (Raise e, w')
    end.
Proof. reflexivity. Qed.

(** Two setters in a row on the atom [i] that holds [a] cap it. *)
Lemma cap_in_place (m : Mol) (i : nat) (a : Atom) :
  atoms m !! i = Some a →
  update_atom i (SetNumRadicalElectrons 0)
    (update_atom i (SetNumExplicitHs (num_explicit_hs a + 1)) m) = capped i m.
Proof.
  intros Ha. unfold capped, update_atom. simpl. f_equal.
  rewrite list_alter_alter_eq. apply list_alter_ext; [|done].
  intros x Hx. by simplify_eq.
Qed.

(** The loop of [prepare_for_bde]: the assertion never fails; the first
    radical atom, if there is one, is capped where it stands. *)
Lemma cap_radical_loop_spec (mol : loc) (i : nat) (todo : list Atom) (w : World) :
  cap_radical_loop mol None i todo w =
    match list_find is_radical todo with
    | None => (Ok None, w)
    | Some (k, a) =>
        (Ok (Some (i + k)),
         (mutate_atom mol (i + k) (SetNumRadicalElectrons 0)
            (mutate_atom mol (i + k)
               (SetNumExplicitHs (num_explicit_hs a + 1)) w).2).2)
    end.
Proof.
  revert i. induction todo as [|a todo IH]; intros i; [done|].
  cbn [cap_radical_loop list_find]. unfold is_radical at 1.
  destruct (decide (num_radical_electrons a ≠ 0)) as [Hrad|Hrad].
  - assert ((num_radical_electrons a =? 0) = false) as -> by by apply Nat.eqb_neq.
    simpl. by rewrite Nat.add_0_r.
  - assert ((num_radical_electrons a =? 0) = true) as ->.
    { apply Nat.eqb_eq. by apply dec_stable. }
    simpl. rewrite IH.
    destruct (list_find is_radical todo) as [[k b]|]; simpl; [|done].
    by rewrite !Nat.add_succ_r.
Qed.

(** [prepare_for_bde] on the object behind [mol]: without a radical atom
    it raises and writes nothing; with one, the object is left capped at
    its first radical atom, and the result is computed from the capped
    object. *)
Lemma prepare_for_bde_spec (mol : loc) (w : World) :
  match first_radical (store w mol) with
  | None => prepare_for_bde mol w = (Raise TypeError, w)
  | Some (k, a) =>
      ∃ w',
        prepare_for_bde mol w =
          (prepare_from_radical (capped k (store w mol)) (Some k), w')
        ∧ store w' mol = capped k (store w mol)
        ∧ (∀ l, l ≠ mol → store w' l = store w l)
        ∧ predict_log w' = predict_log w
  end.
Proof.
  unfold first_radical, prepare_for_bde.
  rewrite bind_unfold. cbn [deref]. rewrite bind_unfold, cap_radical_loop_spec.
  destruct (list_find is_radical (atoms (store w mol))) as [[k a]|] eqn:Hfind.
  - apply list_find_Some in Hfind as (Ha & _ & _).
    exists ((mutate_atom mol k (SetNumRadicalElectrons 0)
               (mutate_atom mol k
                  (SetNumExplicitHs (num_explicit_hs a + 1)) w).2).2).
    assert (∀ w1 : World,
              store (mutate_atom mol k (SetNumRadicalElectrons 0)
                       (mutate_atom mol k
                          (SetNumExplicitHs (num_explicit_hs a + 1)) w1).2).2 mol
              = update_atom k (SetNumRadicalElectrons 0)
                  (update_atom k (SetNumExplicitHs (num_explicit_hs a + 1))
                     (store w1 mol))) as Hstore.
    { intros w1. cbn [mutate_atom snd store]. by rewrite !fn_lookup_insert. }
    split_and!.
    + rewrite bind_unfold. cbn [deref lift Nat.add].
      by rewrite Hstore, (cap_in_place _ _ a).
    + by rewrite Hstore, (cap_in_place _ _ a).
    + intros l Hl. cbn [mutate_atom snd store].
      by rewrite !fn_lookup_insert_ne.
    + done.
  - done.
Qed.

End world_facts.


(** ** RadicalBDEPreparer *)

Section prepare_facts.

Context {rdkit : RDKit} {collab : Collaborators}.

Lemma result_bind_Ok {A B : Type} (r : result A) (k : A → result B) (b : B) :
  r ≫= k = Ok b ↔ ∃ a, r = Ok a ∧ k a = Ok b.
Proof.
  destruct r as [a|e]; simpl.
  - split; [eauto|]. by intros (a' & [= ->] & ?).
  - split; [done|]. by intros (a' & ? & ?).
Qed.

Lemma bond_symbols_Ok (m : Mol) (b : Bond) (ss : string * string) :
  bond_symbols m b = Ok ss ↔
  ∃ a1 a2, atoms m !! begin_atom b = Some a1 ∧ atoms m !! end_atom b = Some a2
           ∧ ss = (symbol a1, symbol a2).
Proof.
  unfold bond_symbols, GetAtomWithIdx.
  destruct (atoms m !! begin_atom b) as [a1|]; simpl; [|naive_solver].
  destruct (atoms m !! end_atom b) as [a2|]; simpl; [|naive_solver].
  unfold mret, result_ret. naive_solver.
Qed.

Lemma has_h_true (ss : string * string) :
  has_h ss = true ↔ ss.1 = "H" ∨ ss.2 = "H".
Proof. unfold has_h. apply bool_decide_eq_true. Qed.

Lemma GetBonds_elem (m : Mol) (i : nat) (b : Bond) :
  (i, b) ∈ GetBonds m ↔ bonds m !! i = Some b.
Proof.
  unfold GetBonds. rewrite elem_of_lookup_imap. naive_solver.
Qed.

(** A pair of [todo] with a hydrogen end. *)
Lemma h_bond_indices_elem (molH : Mol) (todo : list (nat * Bond)) (l : list nat) :
  h_bond_indices molH todo = Ok l →
  ∀ i, i ∈ l ↔ ∃ b ss, (i, b) ∈ todo ∧ bond_symbols molH b = Ok ss ∧ has_h ss = true.
Proof.
  revert l. induction todo as [|[j b] todo IH]; intros l Hl i.
  - simpl in Hl. injection Hl as <-. split.
    + by intros ?%elem_of_nil.
    + intros (b & ss & ?%elem_of_nil & _). done.
  - simpl in Hl.
    apply result_bind_Ok in Hl as (ss & Hss & Hl).
    apply result_bind_Ok in Hl as (rest & Hrest & Hl).
    injection Hl as <-. specialize (IH rest Hrest i).
    destruct (has_h ss) eqn:Hh.
    + rewrite elem_of_cons, IH. split.
      * intros [->|(b' & ss' & ? & ? & ?)].
        -- exists b, ss. split_and!; [left|done|done].
        -- exists b', ss'. split_and!; [by right|done|done].
      * intros (b' & ss' & [[= -> ->]|?]%elem_of_cons & ? & ?); [by left|].
        right. by exists b', ss'.
    + rewrite IH. split.
      * intros (b' & ss' & ? & ? & ?). exists b', ss'. split_and!; [by right|done|done].
      * intros (b' & ss' & [[= -> ->]|?]%elem_of_cons & Hss' & Hh'); [congruence|].
        by exists b', ss'.
Qed.

(** The comprehension collects the indices of the bonds with a hydrogen
    end. *)
Lemma h_bond_indices_GetBonds (molH : Mol) (l : list nat) :
  h_bond_indices molH (GetBonds molH) = Ok l →
  ∀ i, i ∈ l ↔ h_bond molH i.
Proof.
  intros Hl i. rewrite (h_bond_indices_elem _ _ _ Hl). unfold h_bond. split.
  - intros (b & ss & Hb%GetBonds_elem & Hss%bond_symbols_Ok & Hh%has_h_true).
    destruct Hss as (a1 & a2 & ? & ? & ->). by exists b, a1, a2.
  - intros (b & a1 & a2 & Hb & H1 & H2 & Hh).
    exists b, (symbol a1, symbol a2). split_and!.
    + by apply GetBonds_elem.
    + apply bond_symbols_Ok. by exists a1, a2.
    + by apply has_h_true.
Qed.

(** What a successful [prepare_for_bde] has computed, read off its text. *)
Lemma prepare_from_radical_Ok (m : Mol) (radical_index : option nat)
    (inputs : RadicalBDEInputs) :
  prepare_from_radical m radical_index = Ok inputs →
  ∃ parsed hs,
    mol_smiles inputs = MolToSmiles m
    ∧ MolFromSmiles (MolToSmiles m) = Some parsed
    ∧ h_bond_indices (AddHs parsed) (GetBonds (AddHs parsed)) = Ok hs
    ∧ other_h_bonds inputs =
        elements ((list_to_set hs : gset nat) ∖ {[bond_index inputs]}).
Proof.
  unfold prepare_from_radical. intros H.
  apply result_bind_Ok in H as (radical_rank & _ & H).
  apply result_bind_Ok in H as (parsed & Hparsed & H).
  apply result_bind_Ok in H as (radical_index_reordered & _ & H).
  apply result_bind_Ok in H as (radical_bonds & _ & H).
  apply result_bind_Ok in H as (found & _ & H).
  apply result_bind_Ok in H as (hs & Hhs & H).
  apply result_bind_Ok in H as (bi & _ & H).
  injection H as <-. exists parsed, hs. simpl. split_and!; try done.
  by destruct (MolFromSmiles (MolToSmiles m)); simplify_eq/=.
Qed.

Lemma first_radical_None (m : Mol) :
  first_radical m = None ↔ radical_count m = 0%nat.
Proof.
  unfold first_radical, radical_count. rewrite list_find_None.
  induction (atoms m) as [|a l IH].
  - split; [done|constructor].
  - rewrite Forall_cons, filter_cons. destruct (decide (is_radical a)) as [Ha|Ha].
    + simpl. split; [tauto|lia].
    + rewrite <- IH. tauto.
Qed.

Lemma first_radical_Some (m : Mol) :
  (1 <= radical_count m)%nat → ∃ k a, first_radical m = Some (k, a).
Proof.
  intros Hcount. destruct (first_radical m) as [[k a]|] eqn:Hfirst; [eauto|].
  apply first_radical_None in Hfirst. lia.
Qed.

(** C3.  A molecule without a radical atom makes [prepare_for_bde] raise
    (a [TypeError], from indexing the ranks by [None]), and the molecule is
    left as it was.  A molecule with two or more radical atoms does not
    make it raise: the loop leaves at the first radical atom, so the
    assertion is never evaluated on a second one, and the function goes on
    as for a single radical atom, with the first one capped. *)
Theorem prepare_for_bde_radical_count (mol : loc) (w : World) :
  (radical_count (store w mol) = 0%nat →
     prepare_for_bde mol w = (Raise TypeError, w))
  ∧ ((2 <= radical_count (store w mol))%nat →
     ∃ k a,
       first_radical (store w mol) = Some (k, a)
       ∧ (prepare_for_bde mol w).1 =
           prepare_from_radical (capped k (store w mol)) (Some k)).
Proof.
  pose proof (prepare_for_bde_spec mol w) as Hspec. split.
  - intros Hcount. apply first_radical_None in Hcount. by rewrite Hcount in Hspec.
  - intros Hcount. destruct (first_radical_Some (store w mol)) as (k & a & Hfirst); [lia|].
    rewrite Hfirst in Hspec. destruct Hspec as (w' & Hrun & _).
    exists k, a. by rewrite Hrun.
Qed.

(** C8.  Whenever [prepare_for_bde] returns, in particular on a molecule
    with exactly one radical atom, [other_h_bonds] does not hold
    [bond_index], it holds no index twice, and its members are the indices
    other than [bond_index] of the bonds with a hydrogen end in the
    molecule with explicit hydrogens, that is [AddHs] of the molecule parsed
    from [mol_smiles]. *)
Theorem other_h_bonds_spec (mol : loc) (w : World) (inputs : RadicalBDEInputs) :
  (prepare_for_bde mol w).1 = Ok inputs →
  bond_index inputs ∉ other_h_bonds inputs
  ∧ NoDup (other_h_bonds inputs)
  ∧ ∃ k a parsed,
      first_radical (store w mol) = Some (k, a)
      ∧ mol_smiles inputs = MolToSmiles (capped k (store w mol))
      ∧ MolFromSmiles (mol_smiles inputs) = Some parsed
      ∧ ∀ i, i ∈ other_h_bonds inputs ↔
             h_bond (AddHs parsed) i ∧ i ≠ bond_index inputs.
Proof.
  intros Hrun. pose proof (prepare_for_bde_spec mol w) as Hspec.
  destruct (first_radical (store w mol)) as [[k a]|] eqn:Hfirst.
  - destruct Hspec as (w' & Hspec & _). rewrite Hspec in Hrun. simpl in Hrun.
    apply prepare_from_radical_Ok in Hrun as (parsed & hs & Hsmiles & Hparsed & Hhs & Hother).
    assert (∀ i, i ∈ other_h_bonds inputs ↔
                 h_bond (AddHs parsed) i ∧ i ≠ bond_index inputs) as Hmem.
    { intros i. rewrite Hother, elem_of_elements, elem_of_difference,
        elem_of_list_to_set, elem_of_singleton.
      by rewrite (h_bond_indices_GetBonds _ _ Hhs). }
    split_and!.
    + intros Hin%Hmem. by destruct Hin.
    + rewrite Hother. apply NoDup_elements.
    + exists k, a, parsed. rewrite Hsmiles. by split_and!.
  - rewrite Hspec in Hrun. discriminate Hrun.
Qed.

End prepare_facts.


(** ** The reward: how the steps follow one another *)

Ltac run_M :=
  unfold mbind, mret, M_bind, M_ret, result_bind, result_ret;
  cbn [lift deref predict fst snd store after_predict].

Section reward_steps.

Context {rdkit : RDKit} {collab : Collaborators}.

Local Open Scope Q_scope.

(** [calc_bde] step by step. *)
Lemma calc_bde_unfold (state : MoleculeState) (w : World) :
  calc_bde state w =
    match prepare_for_bde (molecule state) w with
    | (Raise e, w1) => (Raise e, w1)
    | (Ok bde_inputs, w1) =>
        match bde_get_inputs (mol_smiles bde_inputs) with
        | Raise e => (Raise e, w1)
        | Ok model_inputs =>
            (bde_of_predictions (bde_model model_inputs) bde_inputs,
             after_predict BdeModel w1)
        end
    end.
Proof.
  unfold calc_bde, bde_of_predictions. run_M.
  destruct (prepare_for_bde (molecule state) w) as [[bde_inputs|e] w1]; [|done].
  destruct (bde_get_inputs (mol_smiles bde_inputs)) as [model_inputs|e]; [|done].
  run_M. fold (after_predict BdeModel w1).
  destruct (getitem (bde_model model_inputs) (bond_index bde_inputs))
    as [bde_radical|e]; [|done].
  run_M.
  destruct (length (other_h_bonds bde_inputs) =? 0)%nat; [done|].
  run_M.
  destruct (take_indices _ _) as [other_h_bdes|e]; [|done].
  run_M.
  by destruct (array_min _).
Qed.

(** [calc_reward] step by step. *)
Lemma calc_reward_unfold (state : MoleculeState) (w : World) :
  calc_reward state w =
    let m := store w (molecule state) in
    let model_inputs := get_policy_inputs state m in
    let w1 := after_predict StabilityModel w in
    match radical_site (stability_model model_inputs).1
            (stability_model model_inputs).2 m with
    | Raise e => (Raise e, w1)
    | Ok (atom_index, max_spin, spin_buried_vol) =>
        match calc_bde state (after_predict RedoxModel w1) with
        | (Raise e, w3) => (Raise e, w3)
        | (Ok (bde, bde_diff), w3) =>
            (combine_reward max_spin spin_buried_vol
               (redox_model model_inputs).1 (redox_model model_inputs).2
               bde bde_diff, w3)
        end
    end.
Proof.
  unfold calc_reward, policy_inputs_of, radical_site. run_M.
  fold (after_predict StabilityModel w).
  destruct (stability_model _) as [spins buried_vol]. run_M.
  destruct (argmax spins) as [atom_index|e]; [|done]. run_M.
  destruct (getitem spins atom_index) as [max_spin|e]; [|done]. run_M.
  destruct (getitem buried_vol atom_index) as [spin_buried_vol|e]; [|done]. run_M.
  destruct (GetAtomWithIdx _ atom_index) as [a|e]; [|done]. run_M.
  destruct (redox_model _) as [ionization_energy electron_affinity]. run_M.
  match goal with |- context [calc_bde state ?w2] =>
    change w2 with (after_predict RedoxModel (after_predict StabilityModel w)) end.
  destruct (calc_bde state _) as [[[bde bde_diff]|e] w3]; [|done].
  unfold combine_reward. run_M.
  destruct (windowed_loss electron_affinity ea_range) as [l_ea|e]; [|done]. run_M.
  destruct (windowed_loss ionization_energy ie_range) as [l_ie|e]; [|done]. run_M.
  destruct (windowed_loss _ v_range) as [l_v|e]; [|done]. run_M.
  by destruct (windowed_loss bde bde_range) as [l_bde|e].
Qed.

(** [get_reward] step by step. *)
Lemma get_reward_unfold (state : MoleculeState) (w : World) :
  get_reward state w =
    if in_domain (get_policy_inputs state (store w (molecule state)))
    then
      if forced_terminal state
      then
        match calc_reward state w with
        | (Raise e, w') => (Raise e, w')
        | (Ok (reward, stats), w') => (Ok (reward, terminal_stats true state ∪ stats), w')
        end
      else (Ok (0, terminal_stats false state), w)
    else (Ok (0, terminal_stats false state), w).
Proof.
  unfold get_reward, policy_inputs_of, in_domain. run_M.
  destruct (any_eq_1 _ || any_eq_1 _); [done|]. cbn [negb].
  destruct (forced_terminal state); [|done].
  by destruct (calc_reward state w) as [[[reward stats]|e] w'].
Qed.

End reward_steps.


(** ** RewardAssembler *)

Section reward_facts.

Context {rdkit : RDKit} {collab : Collaborators}.

Local Open Scope Q_scope.

(** After [prepare_for_bde], [calc_bde] writes to no molecule. *)
Lemma calc_bde_store (state : MoleculeState) (w : World) :
  store (calc_bde state w).2 = store (prepare_for_bde (molecule state) w).2.
Proof.
  rewrite calc_bde_unfold.
  destruct (prepare_for_bde (molecule state) w) as [[bde_inputs|e] w1]; [|done].
  by destruct (bde_get_inputs (mol_smiles bde_inputs)).
Qed.

(** A [calc_bde] that returns has gone through each of its steps. *)
Lemma calc_bde_Ok (state : MoleculeState) (w : World) (r : Q * Q) :
  (calc_bde state w).1 = Ok r →
  ∃ bde_inputs model_inputs,
    (prepare_for_bde (molecule state) w).1 = Ok bde_inputs
    ∧ bde_get_inputs (mol_smiles bde_inputs) = Ok model_inputs
    ∧ bde_of_predictions (bde_model model_inputs) bde_inputs = Ok r
    ∧ (calc_bde state w).2 =
        after_predict BdeModel (prepare_for_bde (molecule state) w).2.
Proof.
  rewrite calc_bde_unfold.
  destruct (prepare_for_bde (molecule state) w) as [[bde_inputs|e] w1]; [|done].
  destruct (bde_get_inputs (mol_smiles bde_inputs)) as [model_inputs|e] eqn:Hfeat;
    [|done].
  cbn [fst snd]. intros Hr. by exists bde_inputs, model_inputs.
Qed.

(** A [calc_reward] that returns has run [calc_bde], after the stability
    and the redox model. *)
Lemma calc_reward_Ok (state : MoleculeState) (w : World) (r : Q * gmap string pyvalue) :
  (calc_reward state w).1 = Ok r →
  let w2 := after_predict RedoxModel (after_predict StabilityModel w) in
  (∃ bde_r, (calc_bde state w2).1 = Ok bde_r)
  ∧ (calc_reward state w).2 = (calc_bde state w2).2.
Proof.
  rewrite calc_reward_unfold. cbv zeta.
  destruct (radical_site _ _ _) as [[[atom_index max_spin] spin_buried_vol]|e]; [|done].
  destruct (calc_bde state _) as [[[bde bde_diff]|e] w3]; [|done].
  cbn [fst snd]. intros _. eauto.
Qed.

(** The atom that [capped] rewrites, and what it leaves alone. *)
Lemma capped_spec (m : Mol) (k : nat) (a : Atom) :
  atoms m !! k = Some a →
  atoms (capped k m) !! k = Some (cap a)
  ∧ num_radical_electrons (cap a) = 0%nat
  ∧ num_explicit_hs (cap a) = (num_explicit_hs a + 1)%nat
  ∧ symbol (cap a) = symbol a
  ∧ (∀ j, j ≠ k → atoms (capped k m) !! j = atoms m !! j)
  ∧ bonds (capped k m) = bonds m.
Proof.
  intros Ha. unfold capped, update_atom. simpl.
  split; [by rewrite list_lookup_alter_eq, Ha|].
  do 3 (split; [done|]).
  split; [|done].
  intros j Hj. by apply list_lookup_alter_ne.
Qed.

End reward_facts.

(** C4, as the claim states it, fails: scoring the forced-terminal methyl
    radical leaves the molecule of the state with no radical electron and
    four explicit hydrogens, where it had one and three. *)
Lemma scoring_mutates_the_molecule :
  store (Lab.world Lab.methyl) (molecule (Lab.state true "[CH3]")) = Lab.methyl
  ∧ store (prepare_for_bde (molecule (Lab.state true "[CH3]"))
             (Lab.world Lab.methyl)).2 (molecule (Lab.state true "[CH3]"))
    = Lab.methyl_capped
  ∧ store (get_reward (Lab.state true "[CH3]") (Lab.world Lab.methyl)).2
      (molecule (Lab.state true "[CH3]"))
    = Lab.methyl_capped
  ∧ Lab.methyl_capped ≠ Lab.methyl.
Proof. by vm_compute. Qed.

(** ** Arrays *)

Section array_facts.

Local Open Scope Q_scope.

Lemma Qmin_cases (x y : Q) : (Qmin x y = x ∧ x <= y) ∨ (Qmin x y = y ∧ y <= x).
Proof.
  unfold Qmin, GenericMinMax.gmin. destruct (x ?= y) eqn:C.
  - left. split; [done|]. apply Qeq_alt in C. lra.
  - left. split; [done|]. apply Qlt_alt in C. lra.
  - right. split; [done|]. apply Qgt_alt in C. lra.
Qed.

(** [foldl Qmin] returns a least element. *)
Lemma foldl_Qmin_spec (xs : list Q) (x : Q) :
  let m := foldl Qmin x xs in
  m ∈ x :: xs ∧ ∀ y, y ∈ x :: xs → m <= y.
Proof.
  revert x. induction xs as [|z xs IH]; intros x; simpl.
  - split; [left|]. intros y ->%list_elem_of_singleton. lra.
  - destruct (IH (Qmin x z)) as [Hin Hle]. split.
    + apply elem_of_cons in Hin as [->|Hin].
      * destruct (Qmin_cases x z) as [[-> _]|[-> _]]; [left|right; left].
      * by do 2 right.
    + intros y Hy.
      assert (foldl Qmin (Qmin x z) xs <= Qmin x z) as Hm by (apply Hle; left).
      revert Hm Hle. generalize (foldl Qmin (Qmin x z) xs). intros m Hm Hle.
      apply elem_of_cons in Hy as [->|Hy].
      * destruct (Qmin_cases x z) as [[E ?]|[E ?]]; rewrite E in Hm; lra.
      * apply elem_of_cons in Hy as [->|Hy].
        -- destruct (Qmin_cases x z) as [[E ?]|[E ?]]; rewrite E in Hm; lra.
        -- apply Hle. by right.
Qed.

Lemma array_min_spec (array : list Q) :
  array ≠ [] →
  ∃ m, array_min array = Ok m ∧ m ∈ array ∧ ∀ y, y ∈ array → m <= y.
Proof.
  destruct array as [|x xs]; [done|]. intros _.
  exists (foldl Qmin x xs). split; [done|]. apply foldl_Qmin_spec.
Qed.

(** [array[indices]] succeeds when every index is in range, and reads the
    entries in order. *)
Lemma take_indices_spec {A : Type} (array : list A) (indices : list nat) :
  (∀ i, i ∈ indices → is_Some (array !! i)) →
  ∃ vs, take_indices array indices = Ok vs
        ∧ Forall2 (λ i v, array !! i = Some v) indices vs.
Proof.
  unfold take_indices. induction indices as [|i indices IH]; intros Hrange.
  - exists []. split; [done|constructor].
  - destruct (Hrange i) as [v Hv]; [left|].
    destruct IH as (vs & Hvs & Hall); [intros j Hj; apply Hrange; by right|].
    exists (v :: vs). split; [|by constructor].
    cbn [mapM].
    assert (getitem array i = Ok v) as -> by (unfold getitem; by rewrite Hv).
    by rewrite Hvs.
Qed.

(** The scan of [argmax]: either the best so far stays, or a later entry,
    greater than it, is found; in both cases no entry is greater than the
    one at the result. *)
Lemma argmax_from_spec (array : list Q) (best_i : nat) (best : Q) (i : nat) :
  let r := argmax_from best_i best i array in
  (r = best_i ∧ ∀ y, y ∈ array → y <= best)
  ∨ (∃ k x, r = (i + k)%nat ∧ array !! k = Some x ∧ best < x
            ∧ ∀ y, y ∈ array → y <= x).
Proof.
  revert best_i best i. induction array as [|x xs IH]; intros best_i best i; simpl.
  - left. split; [done|]. by intros y ?%elem_of_nil.
  - unfold Py.gt. destruct (Py.lt best x) eqn:E.
    + apply lt_true in E. right.
      destruct (IH i x (S i)) as [[-> Hle]|(k & z & -> & Hk & Hlt & Hle)].
      * exists 0%nat, x. split_and!; [lia|done|done|].
        intros y [->|Hy]%elem_of_cons; [lra|by apply Hle].
      * exists (S k), z. split_and!; [lia|done|lra|].
        intros y [->|Hy]%elem_of_cons; [lra|by apply Hle].
    + apply lt_false in E.
      destruct (IH best_i best (S i)) as [[-> Hle]|(k & z & -> & Hk & Hlt & Hle)].
      * left. split; [done|].
        intros y [->|Hy]%elem_of_cons; [done|by apply Hle].
      * right. exists (S k), z. split_and!; [lia|done|done|].
        intros y [->|Hy]%elem_of_cons; [lra|by apply Hle].
Qed.

(** [argmax] of a non-empty array is the index of a greatest entry. *)
Lemma argmax_spec (array : list Q) (i : nat) :
  argmax array = Ok i →
  ∃ x, array !! i = Some x ∧ ∀ j y, array !! j = Some y → y <= x.
Proof.
  destruct array as [|x xs]; [done|]. intros [= <-].
  destruct (argmax_from_spec xs 0 x 1) as [[-> Hle]|(k & z & -> & Hk & Hlt & Hle)].
  - exists x. split; [done|]. intros [|j] y Hy; simpl in Hy.
    + injection Hy as ->. lra.
    + apply Hle. by eapply list_elem_of_lookup_2.
  - exists z. split; [done|]. intros [|j] y Hy; simpl in Hy.
    + injection Hy as ->. lra.
    + apply Hle. by eapply list_elem_of_lookup_2.
Qed.

Lemma argmax_nonempty (array : list Q) :
  array ≠ [] → ∃ i, argmax array = Ok i.
Proof. destruct array; [done|]. intros _. by eexists. Qed.

End array_facts.

(** ** What scoring does to the molecule of the state *)

Section frame_facts.

Context {rdkit : RDKit} {collab : Collaborators}.

Local Open Scope Q_scope.

(** The result of [prepare_for_bde] is a function of the object it is
    given. *)
Lemma prepare_for_bde_result (mol : loc) (w : World) :
  (prepare_for_bde mol w).1 =
    match first_radical (store w mol) with
    | None => Raise TypeError
    | Some (k, _) => prepare_from_radical (capped k (store w mol)) (Some k)
    end.
Proof.
  pose proof (prepare_for_bde_spec mol w) as Hspec.
  destruct (first_radical (store w mol)) as [[k a]|].
  - destruct Hspec as (w' & -> & _). done.
  - by rewrite Hspec.
Qed.

(** The world that [prepare_for_bde] leaves. *)
Lemma prepare_for_bde_world (mol : loc) (w : World) :
  store (prepare_for_bde mol w).2 mol =
    match first_radical (store w mol) with
    | None => store w mol
    | Some (k, _) => capped k (store w mol)
    end
  ∧ (∀ l, l ≠ mol → store (prepare_for_bde mol w).2 l = store w l)
  ∧ predict_log (prepare_for_bde mol w).2 = predict_log w.
Proof.
  pose proof (prepare_for_bde_spec mol w) as Hspec.
  destruct (first_radical (store w mol)) as [[k a]|].
  - destruct Hspec as (w' & -> & ? & ? & ?). done.
  - by rewrite Hspec.
Qed.

(** C4, amended.  [prepare_for_bde] works on the object it is given, and
    [calc_bde] gives it the molecule of the state itself: the first radical
    atom of that object is left with one more explicit hydrogen and no
    radical electron, every other atom, the bonds and every other object
    are left as they were, and an object without a radical atom is not
    changed.  [get_reward] changes nothing for a state that is out of
    domain or not forced-terminal; whenever it returns a reward for an
    in-domain forced-terminal state, the molecule of the state has been
    capped in this way. *)
Theorem scoring_caps_in_place (state : MoleculeState) (w : World) :
  let mol := molecule state in
  let m := store w mol in
  (store (prepare_for_bde mol w).2 mol =
     match first_radical m with
     | None => m
     | Some (k, _) => capped k m
     end)
  ∧ (∀ l, l ≠ mol → store (prepare_for_bde mol w).2 l = store w l)
  ∧ (∀ k a, first_radical m = Some (k, a) →
       atoms (capped k m) !! k = Some (cap a)
       ∧ num_radical_electrons a ≠ 0%nat
       ∧ num_radical_electrons (cap a) = 0%nat
       ∧ num_explicit_hs (cap a) = (num_explicit_hs a + 1)%nat
       ∧ (∀ j, j ≠ k → atoms (capped k m) !! j = atoms m !! j)
       ∧ bonds (capped k m) = bonds m)
  ∧ (in_domain (get_policy_inputs state m) = false ∨ forced_terminal state = false →
       (get_reward state w).2 = w)
  ∧ (∀ r, (get_reward state w).1 = Ok r →
       in_domain (get_policy_inputs state m) = true →
       forced_terminal state = true →
       ∃ k a,
         first_radical m = Some (k, a)
         ∧ store (get_reward state w).2 mol = capped k m
         ∧ ∀ l, l ≠ mol → store (get_reward state w).2 l = store w l).
Proof.
  intros mol m.
  destruct (prepare_for_bde_world mol w) as (Hmol & Hother & _).
  split; [exact Hmol|]. split; [exact Hother|]. split; [|split].
  - intros k a Hfirst. apply list_find_Some in Hfirst as (Ha & Hrad & _).
    destruct (capped_spec m k a Ha) as (? & ? & ? & _ & ? & ?). by split_and!.
  - rewrite get_reward_unfold. fold mol m.
    intros [-> | Hterminal]; [done|].
    rewrite Hterminal. by destruct (in_domain _).
  - intros r Hr Hdomain Hterminal.
    rewrite get_reward_unfold in Hr |- *. fold mol m in Hr |- *.
    rewrite Hdomain, Hterminal in Hr |- *.
    destruct (calc_reward state w) as [[[reward stats]|e] w'] eqn:Hcalc; [|done].
    cbn [fst snd] in *.
    destruct (calc_reward_Ok state w (reward, stats)) as [[bde_r Hbde] Hworld].
    { by rewrite Hcalc. }
    rewrite Hcalc in Hworld. cbn [snd] in Hworld. subst w'.
    set (w2 := after_predict RedoxModel (after_predict StabilityModel w)) in *.
    rewrite calc_bde_store.
    destruct (calc_bde_Ok state w2 bde_r Hbde) as (inputs & _ & Hprep & _).
    rewrite prepare_for_bde_result in Hprep.
    destruct (prepare_for_bde_world mol w2) as (Hmol2 & Hother2 & _).
    change (store w2) with (store w) in *. fold mol m in Hprep, Hmol2.
    destruct (first_radical m) as [[k a]|]; [|done].
    exists k, a. by split_and!.
Qed.

End frame_facts.

Lemma scoring_caps_in_place_witness :
  store (prepare_for_bde 0 (Lab.world Lab.methyl)).2 0%nat = Lab.methyl_capped
  ∧ (get_reward (Lab.state false "[CH3]") (Lab.world Lab.methyl)).2
    = Lab.world Lab.methyl
  ∧ ∃ k a, first_radical Lab.methyl = Some (k, a)
           ∧ store (get_reward (Lab.state true "[CH3]") (Lab.world Lab.methyl)).2 0%nat
             = capped k Lab.methyl.
Proof.
  pose proof (scoring_caps_in_place (Lab.state true "[CH3]") (Lab.world Lab.methyl))
    as (Hprep & _ & _ & _ & Hreward).
  pose proof (scoring_caps_in_place (Lab.state false "[CH3]") (Lab.world Lab.methyl))
    as (_ & _ & _ & Hkeep & _).
  split; [exact Hprep|]. split.
  - apply Hkeep. by right.
  - destruct ((get_reward (Lab.state true "[CH3]") (Lab.world Lab.methyl)).1)
      as [r|e] eqn:Hr.
    + destruct (Hreward r eq_refl) as (k & a & Hfirst & Hstore & _);
        [by vm_compute..|].
      by exists k, a.
    + vm_compute in Hr. discriminate Hr.
Defined.

(** ** The two gates of [get_reward] *)

Section gate_facts.

Context {rdkit : RDKit} {collab : Collaborators}.

Local Open Scope Q_scope.

(** [calc_reward] starts by running the stability model. *)
Lemma calc_reward_log (state : MoleculeState) (w : World) :
  ∃ rest,
    predict_log (calc_reward state w).2 = predict_log w ++ StabilityModel :: rest.
Proof.
  rewrite calc_reward_unfold. cbv zeta.
  destruct (radical_site _ _ _) as [[[atom_index max_spin] spin_buried_vol]|e].
  - set (w2 := after_predict RedoxModel (after_predict StabilityModel w)).
    assert (∃ rest', predict_log (calc_bde state w2).2 = predict_log w2 ++ rest')
      as [rest' Hrest'].
    { rewrite calc_bde_unfold.
      destruct (prepare_for_bde_world (molecule state) w2) as (_ & _ & Hlog).
      destruct (prepare_for_bde (molecule state) w2) as [[bde_inputs|e] w1];
        cbn [snd] in Hlog.
      - destruct (bde_get_inputs _); cbn [snd after_predict predict_log].
        + exists [BdeModel]. by rewrite Hlog.
        + exists []. by rewrite Hlog, app_nil_r.
      - exists []. cbn [snd]. by rewrite Hlog, app_nil_r. }
    exists (RedoxModel :: rest').
    destruct (calc_bde state w2) as [[[bde bde_diff]|e] w3]; cbn [snd] in *;
      rewrite Hrest'; unfold w2; cbn [after_predict predict_log];
      by rewrite <- !app_assoc.
  - by exists [].
Qed.

(** C2.  For a state whose policy featurization holds the unknown token 1
    in its atom or bond array, and for an in-domain state that is not
    forced-terminal, [get_reward] returns
    [(0.0, {'forced_terminal': False, 'smiles': state.smiles})] and leaves
    the world as it was: no model has been run.  An in-domain
    forced-terminal state goes on to [calc_reward], which runs the
    stability model first; so a state for which a model has been run is
    in-domain and forced-terminal. *)
Theorem get_reward_gates (state : MoleculeState) (w : World) :
  let policy_inputs := get_policy_inputs state (store w (molecule state)) in
  let unknown := any_eq_1 (atom policy_inputs) || any_eq_1 (bond policy_inputs) in
  (unknown = true ∨ (unknown = false ∧ forced_terminal state = false) →
     get_reward state w =
       (Ok (0, {[ "forced_terminal" := PyBool false;
                  "smiles" := PyStr (smiles state) ]}), w))
  ∧ (unknown = false ∧ forced_terminal state = true →
       get_reward state w =
         match calc_reward state w with
         | (Raise e, w') => (Raise e, w')
         | (Ok (reward, stats), w') =>
             (Ok (reward, {[ "forced_terminal" := PyBool true;
                             "smiles" := PyStr (smiles state) ]} ∪ stats), w')
         end
       ∧ ∃ rest, predict_log (get_reward state w).2
                 = predict_log w ++ StabilityModel :: rest)
  ∧ (predict_log (get_reward state w).2 ≠ predict_log w →
       unknown = false ∧ forced_terminal state = true).
Proof.
  intros policy_inputs unknown.
  assert (in_domain policy_inputs = negb unknown) as Hdomain by done.
  pose proof (get_reward_unfold state w) as Hunfold.
  fold policy_inputs in Hunfold. rewrite Hdomain in Hunfold.
  split; [|split].
  - intros [Hu | [Hu Ht]]; rewrite Hunfold, Hu; cbn [negb]; [done|].
    by rewrite Ht.
  - intros [Hu Ht]. rewrite Hu, Ht in Hunfold. cbn [negb] in Hunfold.
    split; [exact Hunfold|].
    destruct (calc_reward_log state w) as [rest Hrest]. exists rest.
    rewrite Hunfold.
    by destruct (calc_reward state w) as [[[reward stats]|e] w'].
  - intros Hlog. destruct unknown eqn:Hu.
    + rewrite Hunfold in Hlog. by cbn [negb snd] in Hlog.
    + destruct (forced_terminal state) eqn:Ht; [done|].
      rewrite Hunfold in Hlog. by cbn [negb snd] in Hlog.
Qed.

End gate_facts.

Lemma get_reward_gates_witness :
  get_reward (Lab.state true "C[PH]") (Lab.world Lab.methylphosphinyl)
  = (Ok (0%Q, {[ "forced_terminal" := PyBool false; "smiles" := PyStr "C[PH]" ]}),
     Lab.world Lab.methylphosphinyl)
  ∧ get_reward (Lab.state false "[CH3]") (Lab.world Lab.methyl)
    = (Ok (0%Q, {[ "forced_terminal" := PyBool false; "smiles" := PyStr "[CH3]" ]}),
       Lab.world Lab.methyl)
  ∧ ∃ rest, predict_log (get_reward (Lab.state true "[CH3]") (Lab.world Lab.methyl)).2
            = [] ++ StabilityModel :: rest.
Proof.
  split; [|split].
  - apply (get_reward_gates (Lab.state true "C[PH]") (Lab.world Lab.methylphosphinyl)).
    left. by vm_compute.
  - apply (get_reward_gates (Lab.state false "[CH3]") (Lab.world Lab.methyl)).
    right. by vm_compute.
  - apply (get_reward_gates (Lab.state true "[CH3]") (Lab.world Lab.methyl)).
    by vm_compute.
Defined.

(** ** Unknown tokens *)

Section domain_facts.

Context {rdkit : RDKit} {collab : Collaborators}.

Local Open Scope Q_scope.

(** An unknown token in the features of the BDE preprocessor fails the
    assertion of [bde_get_inputs]. *)
Lemma bde_get_inputs_unknown (mol_smiles : string) :
  in_domain (bde_preprocessor mol_smiles) = false →
  bde_get_inputs mol_smiles = Raise AssertionError.
Proof.
  unfold in_domain, bde_get_inputs. intros ->. done.
Qed.

Lemma bde_get_inputs_known (mol_smiles : string) :
  in_domain (bde_preprocessor mol_smiles) = true →
  bde_get_inputs mol_smiles = Ok (bde_preprocessor mol_smiles).
Proof.
  unfold in_domain, bde_get_inputs. intros ->. done.
Qed.

(** C5, amended.  An unknown token in the policy featurization, which the
    stability and the redox model share, makes [get_reward] return the
    zero reward with [forced_terminal] false; nothing is raised and no
    model is run.  An unknown token in the features of the BDE
    preprocessor is not recovered: [bde_get_inputs] raises
    [AssertionError], and [get_reward] raises it to its caller whenever an
    in-domain forced-terminal state gets as far as the BDE stage. *)
Theorem unknown_tokens (state : MoleculeState) (w : World) :
  let m := store w (molecule state) in
  let policy_inputs := get_policy_inputs state m in
  (in_domain policy_inputs = false →
     get_reward state w =
       (Ok (0, {[ "forced_terminal" := PyBool false;
                  "smiles" := PyStr (smiles state) ]}), w))
  ∧ (∀ mol_smiles, in_domain (bde_preprocessor mol_smiles) = false →
       bde_get_inputs mol_smiles = Raise AssertionError)
  ∧ (∀ site bde_inputs,
       in_domain policy_inputs = true →
       forced_terminal state = true →
       radical_site (stability_model policy_inputs).1
         (stability_model policy_inputs).2 m = Ok site →
       (prepare_for_bde (molecule state) w).1 = Ok bde_inputs →
       in_domain (bde_preprocessor (mol_smiles bde_inputs)) = false →
       (get_reward state w).1 = Raise AssertionError).
Proof.
  intros m policy_inputs. split; [|split].
  - intros Hdomain. rewrite get_reward_unfold. fold m policy_inputs.
    by rewrite Hdomain.
  - apply bde_get_inputs_unknown.
  - intros [[atom_index max_spin] spin_buried_vol] bde_inputs
      Hdomain Hterminal Hsite Hprep Hbde.
    rewrite get_reward_unfold. fold m policy_inputs. rewrite Hdomain, Hterminal.
    rewrite calc_reward_unfold. cbv zeta. fold m policy_inputs. rewrite Hsite.
    set (w2 := after_predict RedoxModel (after_predict StabilityModel w)).
    rewrite calc_bde_unfold.
    assert ((prepare_for_bde (molecule state) w2).1 = Ok bde_inputs) as Hprep2.
    { rewrite prepare_for_bde_result in Hprep |- *. exact Hprep. }
    destruct (prepare_for_bde (molecule state) w2) as [r w1].
    cbn [fst] in Hprep2. subst r.
    by rewrite (bde_get_inputs_unknown _ Hbde).
Qed.

End domain_facts.

(** C5, as the claim states it, fails for the BDE preprocessor: the
    forced-terminal methylthiyl radical is in the domain of the policy
    featurization, its prepared SMILES is [CS], the BDE preprocessor gives
    the sulfur atom the unknown token 1, and [get_reward] raises
    [AssertionError]. *)
Lemma bde_unknown_token_raises :
  in_domain (get_policy_inputs (Lab.state true "C[S]") Lab.methylthiyl) = true
  ∧ mol_smiles <$> from_result (prepare_for_bde 0 (Lab.world Lab.methylthiyl)).1
    = Some "CS"
  ∧ atom (bde_preprocessor "CS") = [2; 1; 3; 3; 3; 3]%Z
  ∧ (get_reward (Lab.state true "C[S]") (Lab.world Lab.methylthiyl)).1
    = Raise AssertionError.
Proof. by vm_compute. Qed.

Lemma unknown_tokens_witness :
  get_reward (Lab.state true "C[PH]") (Lab.world Lab.methylphosphinyl)
  = (Ok (0%Q, {[ "forced_terminal" := PyBool false; "smiles" := PyStr "C[PH]" ]}),
     Lab.world Lab.methylphosphinyl)
  ∧ bde_get_inputs "CS" = Raise AssertionError
  ∧ (get_reward (Lab.state true "C[S]") (Lab.world Lab.methylthiyl)).1
    = Raise AssertionError.
Proof.
  split; [|split].
  - apply (unknown_tokens (Lab.state true "C[PH]") (Lab.world Lab.methylphosphinyl)).
    by vm_compute.
  - apply (unknown_tokens (Lab.state true "C[S]") (Lab.world Lab.methylthiyl)).
    by vm_compute.
  - eapply (unknown_tokens (Lab.state true "C[S]") (Lab.world Lab.methylthiyl));
      by vm_compute.
Defined.

(** ** The BDE and its difference to the other X-H bonds *)

Section bde_facts.

Context {rdkit : RDKit} {collab : Collaborators}.

Local Open Scope Q_scope.

(** [bde_of_predictions] without competing bond: the sentinel. *)
Lemma bde_of_predictions_alone (pred_bdes : list Q) (bde_inputs : RadicalBDEInputs)
    (bde_radical : Q) :
  pred_bdes !! bond_index bde_inputs = Some bde_radical →
  other_h_bonds bde_inputs = [] →
  bde_of_predictions pred_bdes bde_inputs = Ok (bde_radical, 30).
Proof.
  intros Hradical Hother. unfold bde_of_predictions, getitem.
  by rewrite Hradical, Hother.
Qed.

(** [bde_of_predictions] with competing bonds: the least difference. *)
Lemma bde_of_predictions_others (pred_bdes : list Q) (bde_inputs : RadicalBDEInputs)
    (bde_radical : Q) :
  pred_bdes !! bond_index bde_inputs = Some bde_radical →
  other_h_bonds bde_inputs ≠ [] →
  (∀ b, b ∈ other_h_bonds bde_inputs → is_Some (pred_bdes !! b)) →
  ∃ bde_diff,
    bde_of_predictions pred_bdes bde_inputs = Ok (bde_radical, bde_diff)
    ∧ (∃ b x, b ∈ other_h_bonds bde_inputs ∧ pred_bdes !! b = Some x
              ∧ bde_diff = x - bde_radical)
    ∧ (∀ b x, b ∈ other_h_bonds bde_inputs → pred_bdes !! b = Some x →
              bde_diff <= x - bde_radical).
Proof.
  intros Hradical Hother Hrange. unfold bde_of_predictions, getitem.
  rewrite Hradical. cbn [from_option mbind result_bind].
  assert ((length (other_h_bonds bde_inputs) =? 0)%nat = false) as ->.
  { by destruct (other_h_bonds bde_inputs). }
  destruct (take_indices_spec pred_bdes (other_h_bonds bde_inputs) Hrange)
    as (vs & -> & Hvs).
  assert ((λ x, x - bde_radical) <$> vs ≠ []) as Hne.
  { intros Hnil. apply fmap_nil_inv in Hnil. subst vs.
    by apply Forall2_nil_inv_r in Hvs. }
  cbn [mbind result_bind].
  destruct (array_min_spec _ Hne) as (d & -> & Hin & Hle).
  exists d. split; [done|]. split.
  - apply list_elem_of_fmap in Hin as (x & -> & Hx).
    apply list_elem_of_lookup in Hx as [j Hj].
    destruct (Forall2_lookup_r _ _ _ _ _ Hvs Hj) as (b & Hb & Hbx).
    exists b, x. split_and!; [|done..]. by eapply list_elem_of_lookup_2.
  - intros b x Hb Hx.
    apply list_elem_of_lookup in Hb as [j Hj].
    destruct (Forall2_lookup_l _ _ _ _ _ Hvs Hj) as (x' & Hx' & Hbx').
    rewrite Hx in Hbx'. injection Hbx' as <-.
    apply Hle. apply list_elem_of_fmap. exists x. split; [done|].
    by eapply list_elem_of_lookup_2.
Qed.

(** C9.  With the inputs that [prepare_for_bde] returns and the
    predictions [pred_bdes] of the BDE model, the [bde] that [calc_bde]
    returns is the prediction at [bond_index]; [bde_diff] is exactly 30 when
    [other_h_bonds] is empty, and otherwise the least, over the other bonds
    that bear a hydrogen, of their prediction minus the prediction at
    [bond_index]. *)
Theorem calc_bde_spec (state : MoleculeState) (w : World)
    (bde_inputs : RadicalBDEInputs) (bde_radical : Q) :
  let pred_bdes := bde_model (bde_preprocessor (mol_smiles bde_inputs)) in
  (prepare_for_bde (molecule state) w).1 = Ok bde_inputs →
  in_domain (bde_preprocessor (mol_smiles bde_inputs)) = true →
  pred_bdes !! bond_index bde_inputs = Some bde_radical →
  (other_h_bonds bde_inputs = [] →
     (calc_bde state w).1 = Ok (bde_radical, 30))
  ∧ (other_h_bonds bde_inputs ≠ [] →
     (∀ b, b ∈ other_h_bonds bde_inputs → is_Some (pred_bdes !! b)) →
     ∃ bde_diff,
       (calc_bde state w).1 = Ok (bde_radical, bde_diff)
       ∧ (∃ b x, b ∈ other_h_bonds bde_inputs ∧ pred_bdes !! b = Some x
                 ∧ bde_diff = x - bde_radical)
       ∧ (∀ b x, b ∈ other_h_bonds bde_inputs → pred_bdes !! b = Some x →
                 bde_diff <= x - bde_radical)).
Proof.
  intros pred_bdes Hprep Hdomain Hradical.
  assert ((calc_bde state w).1 = bde_of_predictions pred_bdes bde_inputs) as ->.
  { rewrite calc_bde_unfold.
    destruct (prepare_for_bde (molecule state) w) as [r w1].
    cbn [fst] in Hprep. subst r.
    by rewrite (bde_get_inputs_known _ Hdomain). }
  split.
  - by apply bde_of_predictions_alone.
  - by apply bde_of_predictions_others.
Qed.

End bde_facts.

Lemma calc_bde_spec_witness :
  (calc_bde (Lab.state true "[O]N=O") (Lab.world Lab.nitrite)).1 = Ok (80, 30)%Q
  ∧ ∃ bde_diff,
      (calc_bde (Lab.state true "[CH3]") (Lab.world Lab.methyl)).1
      = Ok (70%Q, bde_diff)
      ∧ ∀ b x, b ∈ [2; 3; 1]%nat → [70; 75; 80; 85]%Q !! b = Some x →
               (bde_diff <= x - 70)%Q.
Proof.
  split.
  - refine (proj1 (calc_bde_spec (Lab.state true "[O]N=O") (Lab.world Lab.nitrite)
                     {| mol_smiles := "O=NO"; radical_index_mol := 2;
                        bond_index := 2; other_h_bonds := [] |} 80%Q _ _ _) _);
      by vm_compute.
  - assert ((prepare_for_bde 0 (Lab.world Lab.methyl)).1
            = Ok {| mol_smiles := "C"; radical_index_mol := 0;
                    bond_index := 0; other_h_bonds := [2; 3; 1] |}) as Hprep
      by by vm_compute.
    assert (in_domain (bde_preprocessor "C") = true) as Hdomain by by vm_compute.
    assert (bde_model (bde_preprocessor "C") !! 0%nat = Some 70%Q) as Hradical
      by by vm_compute.
    destruct (proj2 (calc_bde_spec (Lab.state true "[CH3]") (Lab.world Lab.methyl)
                       _ 70%Q Hprep Hdomain Hradical))
      as (bde_diff & Hrun & _ & Hleast).
    + done.
    + intros b Hb. cbn [other_h_bonds] in Hb.
      repeat (apply elem_of_cons in Hb as [->|Hb]; [by eexists|]).
      by apply elem_of_nil in Hb.
    + exists bde_diff. split; [exact Hrun|]. exact Hleast.
Defined.

(** ** The reward of a forced-terminal state *)

Section formula_facts.

Context {rdkit : RDKit} {collab : Collaborators}.

Local Open Scope Q_scope.

(** The four windows are proper ranges, so the last stretch of
    [calc_reward] returns, and its reward is the formula. *)
Lemma combine_reward_formula (max_spin spin_buried_vol ionization_energy
    electron_affinity bde bde_diff : Q) :
  ∃ reward stats,
    combine_reward max_spin spin_buried_vol ionization_energy electron_affinity
      bde bde_diff = Ok (reward, stats)
    ∧ reward == reward_formula max_spin spin_buried_vol ionization_energy
                  electron_affinity bde
    ∧ dom stats = {[ "max_spin"; "spin_buried_vol"; "ionization_energy";
                     "electron_affinity"; "bde"; "bde_diff" ]}.
Proof.
  unfold combine_reward, ea_range, ie_range, v_range, bde_range.
  destruct (windowed_loss_sound electron_affinity (- (5 # 10)) (2 # 10))
    as (l_ea & -> & Hea & _); [done|].
  destruct (windowed_loss_sound ionization_energy (5 # 10) (12 # 10))
    as (l_ie & -> & Hie & _); [done|].
  destruct (windowed_loss_sound (ionization_energy - electron_affinity) 1 (17 # 10))
    as (l_v & -> & Hv & _); [done|].
  destruct (windowed_loss_sound bde 60 80) as (l_bde & -> & Hbde & _); [done|].
  cbn [mbind result_bind mret result_ret].
  eexists _, _. split; [done|]. split.
  - unfold reward_formula. rewrite <- Hea, <- Hie, <- Hv, <- Hbde. qconst. lra.
  - rewrite !dom_insert_L, dom_singleton_L. set_solver.
Qed.

(** C1.  When the stability model gives a spin vector whose greatest
    entry is at [atom_index], a buried volume and an atom at that index,
    and [calc_bde] returns, [calc_reward] returns the reward
    (1 - max_spin) 50 + spin_buried_vol + 100 times the mean of the four
    windowed scores, where [max_spin] is the spin and [spin_buried_vol] the
    buried volume at [atom_index], of the electron affinity over
    (-0.5, 0.2), the ionization energy over (0.5, 1.2), their difference
    over (1, 1.7) and the BDE over (60, 80); and [get_reward] returns that
    reward for a forced-terminal in-domain state. *)
Theorem calc_reward_formula (state : MoleculeState) (w : World)
    (atom_index : nat) (spin_buried_vol bde bde_diff : Q) :
  let m := store w (molecule state) in
  let model_inputs := get_policy_inputs state m in
  let spins := (stability_model model_inputs).1 in
  let buried_vol := (stability_model model_inputs).2 in
  let ionization_energy := (redox_model model_inputs).1 in
  let electron_affinity := (redox_model model_inputs).2 in
  argmax spins = Ok atom_index →
  buried_vol !! atom_index = Some spin_buried_vol →
  is_Some (atoms m !! atom_index) →
  (calc_bde state (after_predict RedoxModel (after_predict StabilityModel w))).1
    = Ok (bde, bde_diff) →
  ∃ max_spin reward stats,
    spins !! atom_index = Some max_spin
    ∧ (∀ j x, spins !! j = Some x → x <= max_spin)
    ∧ (calc_reward state w).1 = Ok (reward, stats)
    ∧ reward == (1 - max_spin) * 50 + spin_buried_vol
                + 100 * ((windowed_reference electron_affinity (- (5 # 10)) (2 # 10)
                          + windowed_reference ionization_energy (5 # 10) (12 # 10)
                          + windowed_reference
                              (ionization_energy - electron_affinity) 1 (17 # 10)
                          + windowed_reference bde 60 80) / 4)
    ∧ (in_domain model_inputs = true → forced_terminal state = true →
       ∃ stats', (get_reward state w).1 = Ok (reward, stats')
                 ∧ stats' !! "forced_terminal" = Some (PyBool true)
                 ∧ stats' !! "smiles" = Some (PyStr (smiles state))).
Proof.
  intros m model_inputs spins buried_vol ionization_energy electron_affinity
    Hargmax Hvol [a Ha] Hbde.
  destruct (argmax_spec spins atom_index Hargmax) as (max_spin & Hspin & Hmax).
  destruct (combine_reward_formula max_spin spin_buried_vol ionization_energy
              electron_affinity bde bde_diff) as (reward & stats & Hcombine & Hreward & _).
  assert (calc_reward state w =
            (Ok (reward, stats),
             (calc_bde state
                (after_predict RedoxModel (after_predict StabilityModel w))).2))
    as Hcalc.
  { rewrite calc_reward_unfold. cbv zeta.
    fold m model_inputs spins buried_vol ionization_energy electron_affinity.
    unfold radical_site, getitem, GetAtomWithIdx.
    rewrite Hargmax. cbn [mbind result_bind].
    rewrite Hspin, Hvol, Ha. cbn [from_option mbind result_bind mret result_ret].
    destruct (calc_bde state _) as [r w3]. cbn [fst snd] in *. subst r.
    by rewrite Hcombine. }
  exists max_spin, reward, stats.
  split; [done|]. split; [done|]. split; [by rewrite Hcalc|].
  split; [exact Hreward|].
  intros Hdomain Hterminal. eexists.
  rewrite get_reward_unfold. fold m model_inputs.
  rewrite Hdomain, Hterminal, Hcalc. cbn [fst]. split; [done|].
  unfold terminal_stats. split.
  - apply lookup_union_Some_l. by rewrite lookup_insert_eq.
  - apply lookup_union_Some_l. rewrite lookup_insert_ne by done.
    by rewrite lookup_singleton_eq.
Qed.

End formula_facts.

Lemma calc_reward_formula_witness :
  ∃ reward stats,
    (calc_reward (Lab.state true "[CH3]") (Lab.world Lab.methyl)).1
    = Ok (reward, stats)
    ∧ (reward == 2523 # 14)%Q.
Proof.
  assert (argmax (stability_model
                    (get_policy_inputs (Lab.state true "[CH3]") Lab.methyl)).1
          = Ok 0%nat) as Hargmax by by vm_compute.
  assert ((stability_model
             (get_policy_inputs (Lab.state true "[CH3]") Lab.methyl)).2 !! 0%nat
          = Some 42%Q) as Hvol by by vm_compute.
  assert (is_Some (atoms Lab.methyl !! 0%nat)) as Hatom by by eexists.
  assert ((calc_bde (Lab.state true "[CH3]")
             (after_predict RedoxModel
                (after_predict StabilityModel (Lab.world Lab.methyl)))).1
          = Ok (70%Q, 5%Q)) as Hbde by by vm_compute.
  destruct (calc_reward_formula (Lab.state true "[CH3]") (Lab.world Lab.methyl)
              0 42%Q 70%Q 5%Q Hargmax Hvol Hatom Hbde)
    as (max_spin & reward & stats & Hspin & _ & Hcalc & Hreward & _).
  exists reward, stats. split; [exact Hcalc|].
  rewrite Hreward. vm_compute in Hspin. injection Hspin as <-.
  by vm_compute.
Defined.

(** ** RadicalBDEPreparer on the laboratory molecules *)

Lemma prepare_for_bde_radical_count_witness :
  prepare_for_bde 0 (Lab.world Lab.methane) = (Raise TypeError, Lab.world Lab.methane)
  ∧ radical_count Lab.ethanediyl = 2%nat
  ∧ (prepare_for_bde 0 (Lab.world Lab.ethanediyl)).1
    = Ok {| mol_smiles := "[CH2]C"; radical_index_mol := 1;
            bond_index := 3; other_h_bonds := [4; 2; 5; 1] |}.
Proof.
  split; [|split; [reflexivity|]].
  - apply (prepare_for_bde_radical_count 0 (Lab.world Lab.methane)). reflexivity.
  - destruct (prepare_for_bde_radical_count 0 (Lab.world Lab.ethanediyl))
      as [_ Htwo].
    destruct Htwo as (k & a & Hfirst & Hrun); [vm_compute; lia|].
    rewrite Hrun. vm_compute in Hfirst. injection Hfirst as <- <-.
    by vm_compute.
Defined.

Lemma other_h_bonds_spec_witness :
  (0 ∉ [2; 3; 1])%nat
  ∧ (∀ i, (i ∈ [2; 3; 1])%nat ↔ h_bond Lab.methane_H i ∧ i ≠ 0%nat).
Proof.
  assert ((prepare_for_bde 0 (Lab.world Lab.methyl)).1
          = Ok {| mol_smiles := "C"; radical_index_mol := 0;
                  bond_index := 0; other_h_bonds := [2; 3; 1] |}) as Hrun
    by by vm_compute.
  destruct (other_h_bonds_spec 0 (Lab.world Lab.methyl) _ Hrun)
    as (Hnotin & _ & k & a & parsed & _ & _ & Hparsed & Hmem).
  split; [exact Hnotin|].
  vm_compute in Hparsed. injection Hparsed as <-. exact Hmem.
Defined.

(** ** GraphGymModel: masked action values *)

Section graph_gym_facts.

Import GraphGym.

Local Open Scope Q_scope.

Context {X S L : Type}.
Context (per_action_model : gmap string (list X) → FlatTensor * FlatTensor).
Context (reduce_max_empty : Q).

Lemma Qmax_cases (x y : Q) : (Qmax x y = x ∧ y <= x) ∨ (Qmax x y = y ∧ x <= y).
Proof.
  unfold Qmax, GenericMinMax.gmax. destruct (x ?= y) eqn:C.
  - left. split; [done|]. apply Qeq_alt in C. lra.
  - right. split; [done|]. apply Qlt_alt in C. lra.
  - left. split; [done|]. apply Qgt_alt in C. lra.
Qed.

(** [foldl Qmax] returns a greatest element. *)
Lemma foldl_Qmax_spec (xs : list Q) (x : Q) :
  foldl Qmax x xs ∈ x :: xs ∧ ∀ y, y ∈ x :: xs → y <= foldl Qmax x xs.
Proof.
  revert x. induction xs as [|z xs IH]; intros x; simpl.
  - split; [left|]. intros y ->%list_elem_of_singleton. lra.
  - destruct (IH (Qmax x z)) as [Hin Hle]. split.
    + apply elem_of_cons in Hin as [->|Hin].
      * destruct (Qmax_cases x z) as [[-> _]|[-> _]]; [left|right; left].
      * by do 2 right.
    + intros y Hy.
      assert (Qmax x z <= foldl Qmax (Qmax x z) xs) as Hm by (apply Hle; left).
      revert Hm Hle. generalize (foldl Qmax (Qmax x z) xs). intros m Hm Hle.
      apply elem_of_cons in Hy as [->|Hy].
      * destruct (Qmax_cases x z) as [[E ?]|[E ?]]; rewrite E in Hm; lra.
      * apply elem_of_cons in Hy as [->|Hy].
        -- destruct (Qmax_cases x z) as [[E ?]|[E ?]]; rewrite E in Hm; lra.
        -- apply Hle. by right.
Qed.

Lemma max_of_spec (r : list Q) :
  r ≠ [] →
  max_of reduce_max_empty r ∈ r ∧ ∀ y, y ∈ r → y <= max_of reduce_max_empty r.
Proof.
  destruct r as [|x xs]; [done|]. intros _. apply foldl_Qmax_spec.
Qed.

(** Entry [a] of row [b] is entry [(b, a)]. *)
Lemma row_lookup {A : Type} (t : Tensor A) (b a : nat) :
  (a < (shape t).2)%nat → row t b !! a = entry t b a.
Proof.
  intros Ha. unfold row, entry. rewrite decide_True by done.
  by rewrite lookup_take_lt, lookup_drop.
Qed.

Lemma row_length {A : Type} (t : Tensor A) (b : nat) :
  length (entries t) = ((shape t).1 * (shape t).2)%nat →
  (b < (shape t).1)%nat →
  length (row t b) = (shape t).2.
Proof.
  intros Hlen Hb. unfold row. rewrite length_take, length_drop, Hlen. nia.
Qed.

Lemma entry_is_Some {A : Type} (t : Tensor A) (b a : nat) :
  length (entries t) = ((shape t).1 * (shape t).2)%nat →
  (b < (shape t).1)%nat → (a < (shape t).2)%nat →
  is_Some (entry t b a).
Proof.
  intros Hlen Hb Ha. unfold entry. rewrite decide_True by done.
  apply lookup_lt_is_Some. rewrite Hlen. nia.
Qed.

(** [tf.where] entry by entry. *)
Lemma tf_where_entry (mask : Tensor bool) (t : Tensor Q) (c : Q) (b a : nat)
    (valid : bool) (x : Q) :
  shape mask = shape t →
  entry mask b a = Some valid →
  entry t b a = Some x →
  entry (tf_where mask t c) b a = Some (if valid then x else c).
Proof.
  unfold entry, tf_where. cbn [shape entries]. intros ->.
  destruct (decide (a < (shape t).2)%nat); [|done].
  intros Hm Ht. by rewrite lookup_zip_with, Hm, Ht.
Qed.

(** What [forward] computes when its steps succeed. *)
Lemma forward_unfold (self : GraphGymModel) (obs : Obs) (state : S) (seq_lens : L)
    (flat_obs : gmap string (list X)) :
  let mask := bool_mask (action_mask obs) in
  let flat_values := (per_action_model flat_obs).1 in
  let flat_weights := (per_action_model flat_obs).2 in
  flatten_observations (action_observations obs) = Ok flat_obs →
  length (flat_entries flat_values) = ((shape mask).1 * (shape mask).2)%nat →
  length (flat_entries flat_weights) = ((shape mask).1 * (shape mask).2)%nat →
  let action_values :=
    tf_where mask {| shape := shape mask; entries := flat_entries flat_values |}
      (dtype_min flat_values) in
  let action_weights :=
    tf_where mask {| shape := shape mask; entries := flat_entries flat_weights |}
      (dtype_min flat_weights) in
  masked_action_values mask flat_values = Ok action_values
  ∧ forward per_action_model reduce_max_empty self obs state seq_lens
    = (Ok (action_weights, state),
       {| total_value := Some (tf_reduce_max_axis1 reduce_max_empty action_values) |}).
Proof.
  intros mask flat_values flat_weights Hflat Hvalues Hweights action_values
    action_weights.
  assert (masked_action_values mask flat_values = Ok action_values) as Hmasked.
  { unfold masked_action_values, tf_reshape. by rewrite decide_True. }
  split; [exact Hmasked|].
  unfold forward. rewrite Hflat. fold mask.
  unfold flat_values, flat_weights in *.
  destruct (per_action_model flat_obs) as [fv fw]. cbn [fst snd] in *.
  rewrite Hmasked. unfold tf_reshape. by rewrite decide_True.
Qed.

End graph_gym_facts.

(** The laboratory batch meets the hypotheses of the theorem. *)
Lemma gym_flatten :
  GraphGym.flatten_observations (GraphGym.action_observations Lab.gym_obs)
  = Ok Lab.gym_flat_obs.
Proof. by vm_compute. Qed.

Lemma gym_mask_length :
  length (GraphGym.entries (GraphGym.bool_mask (GraphGym.action_mask Lab.gym_obs)))
  = (2 * 3)%nat.
Proof. by vm_compute. Qed.

Lemma gym_values_length :
  length (GraphGym.flat_entries (Lab.gym_model Lab.gym_flat_obs).1) = (2 * 3)%nat.
Proof. by vm_compute. Qed.

Lemma gym_weights_length :
  length (GraphGym.flat_entries (Lab.gym_model Lab.gym_flat_obs).2) = (2 * 3)%nat.
Proof. by vm_compute. Qed.


(** * Further properties *)

(** ** The shape of the windowed score *)

Section window_shape.

Local Open Scope Q_scope.

Lemma trapezoid_cases (x : Q) :
  (x <= - (1 # 6) ∧ trapezoid x == 0)
  ∨ (- (1 # 6) <= x <= 1 # 6 ∧ trapezoid x == (1 # 2) + 3 * x)
  ∨ (1 # 6 <= x <= 5 # 6 ∧ trapezoid x == 1)
  ∨ (5 # 6 <= x <= 7 # 6 ∧ trapezoid x == (7 # 2) - 3 * x)
  ∨ (7 # 6 <= x ∧ trapezoid x == 0).
Proof.
  unfold trapezoid.
  destruct (Q.min_spec ((1 # 2) + 3 * x) ((1 # 2) + 3 * (1 - x))) as [[H1 E1]|[H1 E1]];
    rewrite E1;
    (destruct (Q.min_spec 1 ((1 # 2) + 3 * x)) as [[H2 E2]|[H2 E2]]);
    (destruct (Q.min_spec 1 ((1 # 2) + 3 * (1 - x))) as [[H3 E3]|[H3 E3]]);
    rewrite ?E2, ?E3;
    (destruct (Q.max_spec 0 1) as [[H4 E4]|[H4 E4]]);
    (destruct (Q.max_spec 0 ((1 # 2) + 3 * x)) as [[H5 E5]|[H5 E5]]);
    (destruct (Q.max_spec 0 ((1 # 2) + 3 * (1 - x))) as [[H6 E6]|[H6 E6]]);
    rewrite ?E4, ?E5, ?E6;
    try lra;
    first [ left; split; lra
          | right; left; split; lra
          | right; right; left; split; lra
          | right; right; right; left; split; lra
          | right; right; right; right; split; lra ].
Qed.

End window_shape.

Section window_shape2.

Local Open Scope Q_scope.

(** A target below the plateau lies below 1/6 of the window, and so on. *)
Lemma window_position_bounds (target low high : Q) :
  low < high →
  let x := window_position target low high in
  (target < inner_low low high → x < 1 # 6)
  ∧ (inner_low low high <= target → 1 # 6 <= x)
  ∧ (target <= inner_high low high → x <= 5 # 6)
  ∧ (inner_high low high < target → 5 # 6 < x).
Proof.
  intros Hlh x. unfold x, window_position, inner_low, inner_high.
  assert (0 < high - low) as Hspan by lra.
  split_and!; intros H.
  - apply Qlt_shift_div_r; [done|]. qconst. lra.
  - apply Qle_shift_div_l; [done|]. qconst. lra.
  - apply Qle_shift_div_r; [done|]. qconst. lra.
  - apply Qlt_shift_div_l; [done|]. qconst. lra.
Qed.

(** The score through the position of the target in the window. *)
Lemma windowed_loss_closed_form (target low high : Q) :
  low < high →
  ∃ score,
    windowed_loss target (low, high) = Ok score
    ∧ score == trapezoid (window_position target low high).
Proof.
  intros Hlh.
  assert (0 < high - low) as Hspan by lra.
  destruct (window_position_bounds target low high Hlh) as (Hb1 & Hb2 & Hb3 & Hb4).
  rewrite windowed_loss_nonzero_span by lra.
  fold (inner_low low high) (inner_high low high).
  set (x := window_position target low high) in *.
  destruct (Py.lt target (inner_low low high)) eqn:Elow.
  - apply lt_true in Elow. specialize (Hb1 Elow).
    eexists. split; [done|]. rewrite max_is_Qmax.
    assert (Qabs (target - inner_low low high) / (high - low) == (1 # 6) - x) as ->.
    { rewrite Qabs_neg by lra. unfold x, window_position, inner_low. field. lra. }
    destruct (trapezoid_cases x) as [[? ->]|[[? ->]|[[? ->]|[[? ->]|[? ->]]]]];
      destruct (Q.max_spec (1 - 3 * ((1 # 6) - x)) 0) as [[? ->]|[? ->]]; lra.
  - apply lt_false in Elow. specialize (Hb2 Elow). unfold Py.gt.
    destruct (Py.lt (inner_high low high) target) eqn:Ehigh.
    + apply lt_true in Ehigh. specialize (Hb4 Ehigh).
      eexists. split; [done|]. rewrite max_is_Qmax.
      assert (Qabs (target - inner_high low high) / (high - low) == x - (5 # 6)) as ->.
      { rewrite Qabs_pos by lra. unfold x, window_position, inner_high. field. lra. }
      destruct (trapezoid_cases x) as [[? ->]|[[? ->]|[[? ->]|[[? ->]|[? ->]]]]];
        destruct (Q.max_spec (1 - 3 * (x - (5 # 6))) 0) as [[? ->]|[? ->]]; lra.
    + apply lt_false in Ehigh. specialize (Hb3 Ehigh).
      eexists. split; [done|].
      destruct (trapezoid_cases x) as [[? ->]|[[? ->]|[[? ->]|[[? ->]|[? ->]]]]]; lra.
Qed.

(** X1.  For a range with [low < high], [windowed_loss] returns the
    clipped trapezoid max(0, min(1, 1/2 + 3 x, 1/2 + 3 (1 - x))) of the
    position x = (target - low) / (high - low) of the target in the range. *)
Theorem windowed_loss_trapezoid (target low high : Q) :
  low < high →
  ∃ score,
    windowed_loss target (low, high) = Ok score
    ∧ score == Qmax 0 (Qmin 1 (Qmin ((1 # 2) + 3 * ((target - low) / (high - low)))
                                 ((1 # 2) + 3 * (1 - (target - low) / (high - low))))).
Proof. exact (windowed_loss_closed_form target low high). Qed.

(** The position in the window is increasing in the target, and mirrored
    by the reflection of the target about the middle of the range. *)
Lemma window_position_mono (t1 t2 low high : Q) :
  low < high → t1 <= t2 →
  window_position t1 low high <= window_position t2 low high.
Proof.
  intros Hlh Ht. unfold window_position, Qdiv.
  apply Qmult_le_compat_r; [lra|].
  apply Qlt_le_weak, Qinv_lt_0_compat. lra.
Qed.

Lemma window_position_mirror (target low high : Q) :
  low < high →
  window_position (low + high - target) low high
  == 1 - window_position target low high.
Proof. intros Hlh. unfold window_position. field. lra. Qed.

Lemma window_position_diff (t1 t2 low high : Q) :
  low < high →
  window_position t2 low high - window_position t1 low high
  == (t2 - t1) / (high - low).
Proof. intros Hlh. unfold window_position. field. lra. Qed.

Lemma trapezoid_Qeq (x y : Q) : x == y → trapezoid x == trapezoid y.
Proof. intros Hxy. unfold trapezoid. by rewrite Hxy. Qed.

(** X2.  In exact arithmetic the score is symmetric about the middle of
    the range.  In binary64 rounding breaks the symmetry: on (60, 80) the
    targets 60 and 80 score 1/2 - 2^-51 and 1/2 + 3 * 2^-52. *)
Theorem windowed_loss_symmetric (target low high : Q) :
  (low < high →
   ∃ score mirrored,
     windowed_loss target (low, high) = Ok score
     ∧ windowed_loss (low + high - target) (low, high) = Ok mirrored
     ∧ mirrored == score)
  ∧ (∃ r60 r80 q60 q80,
       Binary64.windowed_loss 60 (60, 80)%float = Ok r60
       ∧ Binary64.windowed_loss (60 + 80 - 60) (60, 80)%float = Ok r80
       ∧ Binary64.to_Q r60 = Some q60
       ∧ Binary64.to_Q r80 = Some q80
       ∧ q60 == (1 # 2) - (1 # 2251799813685248)
       ∧ q80 == (1 # 2) + (3 # 4503599627370496)).
Proof.
  split.
  { intros Hlh.
    destruct (windowed_loss_closed_form target low high Hlh) as (score & Hrun & Hscore).
    destruct (windowed_loss_closed_form (low + high - target) low high Hlh)
      as (mirrored & Hrun' & Hmirrored).
    exists score, mirrored. split; [done|]. split; [done|].
    rewrite Hscore, Hmirrored.
    rewrite (trapezoid_Qeq _ _ (window_position_mirror target low high Hlh)).
    generalize (window_position target low high). intros x.
    destruct (trapezoid_cases x) as [[? ->]|[[? ->]|[[? ->]|[[? ->]|[? ->]]]]];
      destruct (trapezoid_cases (1 - x)) as [[? ->]|[[? ->]|[[? ->]|[[? ->]|[? ->]]]]];
      lra. }
  destruct binary64_at_60 as [H60 Hq60]. destruct binary64_at_80 as [H80 Hq80].
  eexists _, _, _, _. split; [exact H60|]. split; [exact H80|].
  split; [exact Hq60|]. split; [exact Hq80|]. split; by vm_compute.
Qed.

(** X3.  The score does not decrease while the target moves up to the
    upper end of the plateau, and does not increase from the lower end of
    the plateau on. *)
Theorem windowed_loss_monotone (t1 t2 low high : Q) :
  low < high → t1 <= t2 →
  ∃ s1 s2,
    windowed_loss t1 (low, high) = Ok s1
    ∧ windowed_loss t2 (low, high) = Ok s2
    ∧ (t2 <= inner_high low high → s1 <= s2)
    ∧ (inner_low low high <= t1 → s2 <= s1).
Proof.
  intros Hlh Ht.
  destruct (windowed_loss_closed_form t1 low high Hlh) as (s1 & Hrun1 & Hs1).
  destruct (windowed_loss_closed_form t2 low high Hlh) as (s2 & Hrun2 & Hs2).
  exists s1, s2. split; [done|]. split; [done|].
  pose proof (window_position_mono t1 t2 low high Hlh Ht) as Hmono.
  destruct (window_position_bounds t2 low high Hlh) as (_ & _ & Hup & _).
  destruct (window_position_bounds t1 low high Hlh) as (_ & Hdown & _ & _).
  rewrite Hs1, Hs2. cbv zeta in Hup, Hdown.
  revert Hmono Hup Hdown.
  generalize (window_position t1 low high) (window_position t2 low high).
  intros x1 x2 Hmono Hup Hdown. split; intros H.
  - specialize (Hup H).
    destruct (trapezoid_cases x1) as [[? ->]|[[? ->]|[[? ->]|[[? ->]|[? ->]]]]];
      destruct (trapezoid_cases x2) as [[? ->]|[[? ->]|[[? ->]|[[? ->]|[? ->]]]]];
      lra.
  - specialize (Hdown H).
    destruct (trapezoid_cases x1) as [[? ->]|[[? ->]|[[? ->]|[[? ->]|[? ->]]]]];
      destruct (trapezoid_cases x2) as [[? ->]|[[? ->]|[[? ->]|[[? ->]|[? ->]]]]];
      lra.
Qed.

(** X4.  In exact arithmetic the score is continuous: two targets score
    no further apart than three times their distance over the span.  In
    binary64 rounding can exceed the bound: on (60, 80) the scores of the
    targets 60 and 61 are further apart than 3/20. *)
Theorem windowed_loss_lipschitz (t1 t2 low high : Q) :
  (low < high →
   ∃ s1 s2,
     windowed_loss t1 (low, high) = Ok s1
     ∧ windowed_loss t2 (low, high) = Ok s2
     ∧ Qabs (s2 - s1) <= 3 * (Qabs (t2 - t1) / (high - low)))
  ∧ (∃ r60 r61 q60 q61,
       Binary64.windowed_loss 60 (60, 80)%float = Ok r60
       ∧ Binary64.windowed_loss 61 (60, 80)%float = Ok r61
       ∧ Binary64.to_Q r60 = Some q60
       ∧ Binary64.to_Q r61 = Some q61
       ∧ 3 * (Qabs (61 - 60) / (80 - 60)) < Qabs (q61 - q60)).
Proof.
  split.
  { intros Hlh.
    destruct (windowed_loss_closed_form t1 low high Hlh) as (s1 & Hrun1 & Hs1).
    destruct (windowed_loss_closed_form t2 low high Hlh) as (s2 & Hrun2 & Hs2).
    exists s1, s2. split; [done|]. split; [done|].
    assert (Qabs (t2 - t1) / (high - low)
            == Qabs (window_position t2 low high - window_position t1 low high)) as ->.
    { rewrite window_position_diff by done. unfold Qdiv.
      rewrite Qabs_Qmult. rewrite (Qabs_pos (/ (high - low))); [done|].
      apply Qlt_le_weak, Qinv_lt_0_compat. lra. }
    rewrite Hs1, Hs2.
    generalize (window_position t1 low high) (window_position t2 low high).
    intros x1 x2.
    apply Qabs_case; intros Hd;
      (apply Qabs_case; intros Hx);
      destruct (trapezoid_cases x1) as [[? E1]|[[? E1]|[[? E1]|[[? E1]|[? E1]]]]];
      destruct (trapezoid_cases x2) as [[? E2]|[[? E2]|[[? E2]|[[? E2]|[? E2]]]]];
      rewrite E1, E2 in *; lra. }
  destruct binary64_at_60 as [H60 Hq60]. destruct binary64_at_61 as [H61 Hq61].
  eexists _, _, _, _. split; [exact H60|]. split; [exact H61|].
  split; [exact Hq60|]. split; [exact Hq61|]. by vm_compute.
Qed.

(** X5.  In exact arithmetic the score is 1 exactly on the plateau, and
    0 exactly outside the open interval from [low - span/6] to
    [high + span/6].  In binary64 a target just below the plateau can score
    1: on (-1, 5), whose plateau starts at 0, the float nearest to -1e-20
    does. *)
Theorem windowed_loss_levels (target low high : Q) :
  (low < high →
   ∃ score,
     windowed_loss target (low, high) = Ok score
     ∧ (score == 1 ↔ inner_low low high <= target <= inner_high low high)
     ∧ (score == 0 ↔
        target <= low - (high - low) / 6 ∨ high + (high - low) / 6 <= target))
  ∧ (∃ t q,
       Binary64.to_Q t = Some q
       ∧ q < inner_low (- 1) 5
       ∧ Binary64.windowed_loss t (-1, 5)%float = Ok 1%float).
Proof.
  split.
  { intros Hlh.
    destruct (windowed_loss_sound target low high Hlh)
      as (score & Hrun & _ & Hplateau & Hbelow & Habove & _ & _ & _).
    destruct (windowed_loss_closed_form target low high Hlh) as (score' & Hrun' & Hscore).
    rewrite Hrun in Hrun'. injection Hrun' as <-.
    exists score. split; [done|].
    assert (0 < high - low) as Hspan by lra.
    assert (∀ c : Q, (c <= window_position target low high ↔ low + c * (high - low) <= target)
                     ∧ (window_position target low high <= c ↔ target <= low + c * (high - low)))
      as Hpos.
    { intros c. unfold window_position. split; split; intros H.
      - apply Qnot_lt_le. intros Hlt.
        assert ((target - low) / (high - low) < c); [|lra].
        apply Qlt_shift_div_r; lra.
      - apply Qle_shift_div_l; lra.
      - apply Qnot_lt_le. intros Hlt.
        assert (c < (target - low) / (high - low)); [|lra].
        apply Qlt_shift_div_l; lra.
      - apply Qle_shift_div_r; lra. }
    pose proof (Hpos (1 # 6)) as [H16 _]. pose proof (Hpos (5 # 6)) as [_ H56].
    pose proof (Hpos (- (1 # 6))) as [_ Hm16]. pose proof (Hpos (7 # 6)) as [H76 _].
    unfold inner_low, inner_high. rewrite Hscore.
    revert H16 H56 Hm16 H76. generalize (window_position target low high).
    intros x H16 H56 Hm16 H76. qconst.
    destruct (trapezoid_cases x) as [[? ->]|[[? ->]|[[? ->]|[[? ->]|[? ->]]]]];
      (split; split; intros Hgoal);
      first [ lra
            | split; [apply H16|apply H56]; lra
            | left; apply Hm16; lra
            | right; apply H76; lra
            | destruct Hgoal as [Hgoal|Hgoal];
              [apply Hm16 in Hgoal|apply H76 in Hgoal]; lra
            | destruct Hgoal as [Hlo Hhi]; apply H16 in Hlo; apply H56 in Hhi; lra ]. }
  destruct binary64_below_plateau as [Hrun Hq].
  eexists _, _. split; [exact Hq|]. split; [by vm_compute|exact Hrun].
Qed.

End window_shape2.

Lemma windowed_loss_trapezoid_witness :
  ∃ score,
    windowed_loss 60 (60, 80)%Q = Ok score
    ∧ (score == Qmax 0 (Qmin 1 (Qmin ((1 # 2) + 3 * ((60 - 60) / (80 - 60)))
                                  ((1 # 2) + 3 * (1 - (60 - 60) / (80 - 60))))))%Q.
Proof. apply (windowed_loss_trapezoid 60 60 80). reflexivity. Defined.

Lemma windowed_loss_symmetric_witness :
  ∃ score mirrored,
    windowed_loss 62 (60, 80)%Q = Ok score
    ∧ windowed_loss (60 + 80 - 62) (60, 80)%Q = Ok mirrored
    ∧ (mirrored == score)%Q.
Proof. apply (proj1 (windowed_loss_symmetric 62 60 80)). reflexivity. Defined.

Lemma windowed_loss_monotone_witness :
  ∃ s1 s2,
    windowed_loss 55 (60, 80)%Q = Ok s1
    ∧ windowed_loss 62 (60, 80)%Q = Ok s2
    ∧ ((62 <= inner_high 60 80)%Q → (s1 <= s2)%Q)
    ∧ ((inner_low 60 80 <= 55)%Q → (s2 <= s1)%Q).
Proof.
  apply (windowed_loss_monotone 55 62 60 80); [reflexivity|].
  by vm_compute.
Defined.

Lemma windowed_loss_lipschitz_witness :
  ∃ s1 s2,
    windowed_loss 55 (60, 80)%Q = Ok s1
    ∧ windowed_loss 62 (60, 80)%Q = Ok s2
    ∧ (Qabs (s2 - s1) <= 3 * (Qabs (62 - 55) / (80 - 60)))%Q.
Proof. apply (proj1 (windowed_loss_lipschitz 55 62 60 80)). reflexivity. Defined.

Lemma windowed_loss_levels_witness :
  ∃ score,
    windowed_loss 70 (60, 80)%Q = Ok score
    ∧ ((score == 1)%Q ↔ (inner_low 60 80 <= 70 <= inner_high 60 80)%Q)
    ∧ ((score == 0)%Q ↔
       (70 <= 60 - (80 - 60) / 6)%Q ∨ (80 + (80 - 60) / 6 <= 70)%Q).
Proof. apply (proj1 (windowed_loss_levels 70 60 80)). reflexivity. Defined.

(** ** The reward that comes back *)

Section reward_shape.

Context {rdkit : RDKit} {collab : Collaborators}.

Local Open Scope Q_scope.

(** Between the stability term and the stability term plus 100. *)
Lemma combine_reward_bounds (max_spin spin_buried_vol ionization_energy
    electron_affinity bde bde_diff : Q) :
  ∃ reward stats,
    combine_reward max_spin spin_buried_vol ionization_energy electron_affinity
      bde bde_diff = Ok (reward, stats)
    ∧ (1 - max_spin) * 50 + spin_buried_vol <= reward
    ∧ reward <= (1 - max_spin) * 50 + spin_buried_vol + 100
    ∧ stats = {[ "max_spin" := PyStr (str max_spin);
                 "spin_buried_vol" := PyStr (str spin_buried_vol);
                 "ionization_energy" := PyStr (str ionization_energy);
                 "electron_affinity" := PyStr (str electron_affinity);
                 "bde" := PyStr (str bde);
                 "bde_diff" := PyStr (str bde_diff) ]}.
Proof.
  unfold combine_reward, ea_range, ie_range, v_range, bde_range.
  destruct (windowed_loss_sound electron_affinity (- (5 # 10)) (2 # 10))
    as (l_ea & -> & _ & _ & _ & _ & Hea & _); [done|].
  destruct (windowed_loss_sound ionization_energy (5 # 10) (12 # 10))
    as (l_ie & -> & _ & _ & _ & _ & Hie & _); [done|].
  destruct (windowed_loss_sound (ionization_energy - electron_affinity) 1 (17 # 10))
    as (l_v & -> & _ & _ & _ & _ & Hv & _); [done|].
  destruct (windowed_loss_sound bde 60 80)
    as (l_bde & -> & _ & _ & _ & _ & Hbde & _); [done|].
  cbn [mbind result_bind mret result_ret].
  eexists _, _. split; [done|]. split_and!; [qconst; lra|qconst; lra|done].
Qed.

(** A [calc_reward] that returns: the pieces it is made of. *)
Lemma calc_reward_Ok_inv (state : MoleculeState) (w : World)
    (reward : Q) (stats : gmap string pyvalue) :
  (calc_reward state w).1 = Ok (reward, stats) →
  let m := store w (molecule state) in
  let model_inputs := get_policy_inputs state m in
  let w2 := after_predict RedoxModel (after_predict StabilityModel w) in
  ∃ atom_index max_spin spin_buried_vol bde bde_diff,
    radical_site (stability_model model_inputs).1
      (stability_model model_inputs).2 m
      = Ok (atom_index, max_spin, spin_buried_vol)
    ∧ (calc_bde state w2).1 = Ok (bde, bde_diff)
    ∧ (calc_reward state w).2 = (calc_bde state w2).2
    ∧ combine_reward max_spin spin_buried_vol (redox_model model_inputs).1
        (redox_model model_inputs).2 bde bde_diff = Ok (reward, stats).
Proof.
  rewrite calc_reward_unfold. cbv zeta.
  destruct (radical_site _ _ _) as [[[atom_index max_spin] spin_buried_vol]|e]; [|done].
  destruct (calc_bde state _) as [[[bde bde_diff]|e] w3]; [|done].
  cbn [fst snd]. intros Hcombine.
  by exists atom_index, max_spin, spin_buried_vol, bde, bde_diff.
Qed.

(** X6.  A reward that [calc_reward] returns lies between the stability
    term (1 - max_spin) 50 + spin_buried_vol and that term plus 100. *)
Theorem calc_reward_bounds (state : MoleculeState) (w : World)
    (reward : Q) (stats : gmap string pyvalue) :
  (calc_reward state w).1 = Ok (reward, stats) →
  let m := store w (molecule state) in
  let model_inputs := get_policy_inputs state m in
  ∃ atom_index max_spin spin_buried_vol,
    radical_site (stability_model model_inputs).1
      (stability_model model_inputs).2 m
      = Ok (atom_index, max_spin, spin_buried_vol)
    ∧ (1 - max_spin) * 50 + spin_buried_vol <= reward
    ∧ reward <= (1 - max_spin) * 50 + spin_buried_vol + 100.
Proof.
  intros Hrun m model_inputs.
  destruct (calc_reward_Ok_inv state w reward stats Hrun)
    as (atom_index & max_spin & spin_buried_vol & bde & bde_diff
        & Hsite & _ & _ & Hcombine).
  exists atom_index, max_spin, spin_buried_vol. split; [exact Hsite|].
  destruct (combine_reward_bounds max_spin spin_buried_vol
              (redox_model model_inputs).1 (redox_model model_inputs).2 bde bde_diff)
    as (reward' & stats' & Hcombine' & Hlow & Hhigh & _).
  fold m model_inputs in Hcombine. rewrite Hcombine in Hcombine'.
  injection Hcombine' as <- <-. by split.
Qed.

(** X7.  A [calc_reward] that returns has run each of the three models
    once: the stability model, then the redox model, then the BDE model. *)
Theorem calc_reward_runs_each_model_once (state : MoleculeState) (w : World)
    (r : Q * gmap string pyvalue) :
  (calc_reward state w).1 = Ok r →
  predict_log (calc_reward state w).2
  = predict_log w ++ [StabilityModel; RedoxModel; BdeModel].
Proof.
  destruct r as [reward stats]. intros Hrun.
  destruct (calc_reward_Ok_inv state w reward stats Hrun)
    as (atom_index & max_spin & spin_buried_vol & bde & bde_diff
        & _ & Hbde & -> & _).
  destruct (calc_bde_Ok state _ _ Hbde) as (bde_inputs & model_inputs & _ & _ & _ & ->).
  cbn [after_predict predict_log].
  destruct (prepare_for_bde_world (molecule state)
              (after_predict RedoxModel (after_predict StabilityModel w)))
    as (_ & _ & ->).
  cbn [after_predict predict_log]. by rewrite <- !app_assoc.
Qed.

(** X8.  The dictionary that [get_reward] returns for a forced-terminal
    in-domain state has eight keys: [forced_terminal] as [True], [smiles],
    and the six diagnostics, each one [str] of its value: the spin and the
    buried volume at the atom of greatest spin, the two outputs of the redox
    model, and the pair that [calc_bde] returned. *)
Theorem get_reward_stats (state : MoleculeState) (w : World)
    (reward : Q) (stats : gmap string pyvalue) :
  let m := store w (molecule state) in
  let model_inputs := get_policy_inputs state m in
  in_domain model_inputs = true →
  forced_terminal state = true →
  (get_reward state w).1 = Ok (reward, stats) →
  ∃ atom_index max_spin spin_buried_vol bde bde_diff,
    radical_site (stability_model model_inputs).1 (stability_model model_inputs).2 m
      = Ok (atom_index, max_spin, spin_buried_vol)
    ∧ (calc_bde state
         (after_predict RedoxModel (after_predict StabilityModel w))).1
      = Ok (bde, bde_diff)
    ∧ dom stats = {[ "max_spin"; "spin_buried_vol"; "ionization_energy";
                     "electron_affinity"; "bde"; "bde_diff";
                     "forced_terminal"; "smiles" ]}
    ∧ stats !! "forced_terminal" = Some (PyBool true)
    ∧ stats !! "smiles" = Some (PyStr (smiles state))
    ∧ stats !! "max_spin" = Some (PyStr (str max_spin))
    ∧ stats !! "spin_buried_vol" = Some (PyStr (str spin_buried_vol))
    ∧ stats !! "ionization_energy" = Some (PyStr (str (redox_model model_inputs).1))
    ∧ stats !! "electron_affinity" = Some (PyStr (str (redox_model model_inputs).2))
    ∧ stats !! "bde" = Some (PyStr (str bde))
    ∧ stats !! "bde_diff" = Some (PyStr (str bde_diff)).
Proof.
  intros m model_inputs Hdomain Hterminal.
  rewrite get_reward_unfold. fold m model_inputs. rewrite Hdomain, Hterminal.
  destruct (calc_reward state w) as [[[reward' stats']|e] w'] eqn:Hcalc; [|done].
  cbn [fst]. intros [= <- <-].
  destruct (calc_reward_Ok_inv state w reward' stats')
    as (atom_index & max_spin & spin_buried_vol & bde & bde_diff
        & Hsite & Hbde & _ & Hcombine); [by rewrite Hcalc|].
  fold m model_inputs in Hsite, Hcombine.
  destruct (combine_reward_bounds max_spin spin_buried_vol
              (redox_model model_inputs).1 (redox_model model_inputs).2
              bde bde_diff) as (reward'' & stats'' & Hcombine' & _ & _ & Hstats).
  rewrite Hcombine in Hcombine'. injection Hcombine' as <- <-.
  exists atom_index, max_spin, spin_buried_vol, bde, bde_diff.
  split; [exact Hsite|]. split; [exact Hbde|].
  subst stats'. unfold terminal_stats. split.
  { rewrite dom_union_L, !dom_insert_L, !dom_singleton_L. set_solver. }
  split; [apply lookup_union_Some_l; by rewrite lookup_insert_eq|].
  split.
  { apply lookup_union_Some_l. rewrite lookup_insert_ne by done.
    by rewrite lookup_singleton_eq. }
  split_and!; rewrite lookup_union_r by done; by simplify_map_eq.
Qed.

End reward_shape.

(** The forced-terminal methyl radical is scored. *)
Lemma methyl_calc_reward :
  ∃ r, (calc_reward (Lab.state true "[CH3]") (Lab.world Lab.methyl)).1 = Ok r.
Proof.
  assert (match (calc_reward (Lab.state true "[CH3]") (Lab.world Lab.methyl)).1 with
          | Ok _ => true
          | Raise _ => false
          end = true) as Hrun by by vm_compute.
  destruct ((calc_reward (Lab.state true "[CH3]") (Lab.world Lab.methyl)).1) as [r|e];
    [by exists r|discriminate Hrun].
Qed.

Lemma methyl_get_reward :
  ∃ r, (get_reward (Lab.state true "[CH3]") (Lab.world Lab.methyl)).1 = Ok r.
Proof.
  assert (match (get_reward (Lab.state true "[CH3]") (Lab.world Lab.methyl)).1 with
          | Ok _ => true
          | Raise _ => false
          end = true) as Hrun by by vm_compute.
  destruct ((get_reward (Lab.state true "[CH3]") (Lab.world Lab.methyl)).1) as [r|e];
    [by exists r|discriminate Hrun].
Qed.

Lemma methyl_in_domain :
  in_domain (get_policy_inputs (Lab.state true "[CH3]")
               (store (Lab.world Lab.methyl) (molecule (Lab.state true "[CH3]"))))
  = true.
Proof. by vm_compute. Qed.

Lemma calc_reward_bounds_witness :
  ∃ reward stats,
    (calc_reward (Lab.state true "[CH3]") (Lab.world Lab.methyl)).1
    = Ok (reward, stats)
    ∧ ∃ atom_index max_spin spin_buried_vol,
        radical_site
          (stability_model (get_policy_inputs (Lab.state true "[CH3]") Lab.methyl)).1
          (stability_model (get_policy_inputs (Lab.state true "[CH3]") Lab.methyl)).2
          Lab.methyl
        = Ok (atom_index, max_spin, spin_buried_vol)
        ∧ ((1 - max_spin) * 50 + spin_buried_vol <= reward)%Q
        ∧ (reward <= (1 - max_spin) * 50 + spin_buried_vol + 100)%Q.
Proof.
  destruct methyl_calc_reward as [[reward stats] Hr].
  exists reward, stats. split; [exact Hr|].
  exact (calc_reward_bounds (Lab.state true "[CH3]") (Lab.world Lab.methyl)
           reward stats Hr).
Defined.

Lemma calc_reward_runs_each_model_once_witness :
  predict_log (calc_reward (Lab.state true "[CH3]") (Lab.world Lab.methyl)).2
  = [] ++ [StabilityModel; RedoxModel; BdeModel].
Proof.
  destruct methyl_calc_reward as [r Hr].
  exact (calc_reward_runs_each_model_once (Lab.state true "[CH3]")
           (Lab.world Lab.methyl) r Hr).
Defined.

Lemma methyl_calc_bde_scored :
  (calc_bde (Lab.state true "[CH3]")
     (after_predict RedoxModel
        (after_predict StabilityModel (Lab.world Lab.methyl)))).1
  = Ok (70, 5)%Q.
Proof. by vm_compute. Qed.

Lemma get_reward_stats_witness :
  ∃ reward stats,
    (get_reward (Lab.state true "[CH3]") (Lab.world Lab.methyl)).1
    = Ok (reward, stats)
    ∧ dom stats = {[ "max_spin"; "spin_buried_vol"; "ionization_energy";
                     "electron_affinity"; "bde"; "bde_diff";
                     "forced_terminal"; "smiles" ]}
    ∧ stats !! "forced_terminal" = Some (PyBool true)
    ∧ stats !! "smiles" = Some (PyStr "[CH3]")
    ∧ stats !! "bde" = Some (PyStr (str 70%Q))
    ∧ stats !! "bde_diff" = Some (PyStr (str 5%Q)).
Proof.
  destruct methyl_get_reward as [[reward stats] Hr].
  exists reward, stats. split; [exact Hr|].
  destruct (get_reward_stats (Lab.state true "[CH3]") (Lab.world Lab.methyl)
              reward stats methyl_in_domain eq_refl Hr)
    as (atom_index & max_spin & spin_buried_vol & bde & bde_diff
        & _ & Hbde & Hdom & Hterminal & Hsmiles & _ & _ & _ & _ & Hsbde & Hsdiff).
  rewrite methyl_calc_bde_scored in Hbde. injection Hbde as <- <-.
  split; [exact Hdom|]. split; [exact Hterminal|]. split; [exact Hsmiles|].
  split; [exact Hsbde|exact Hsdiff].
Defined.

(** ** The radical atom that [prepare_for_bde] caps *)

Section capping.

Context {rdkit : RDKit} {collab : Collaborators}.

Local Open Scope Q_scope.

Lemma cap_not_radical (a : Atom) : ¬ is_radical (cap a).
Proof. unfold is_radical, cap. simpl. tauto. Qed.

(** Capping a radical atom leaves one radical atom less. *)
Lemma radical_count_alter (l : list Atom) (k : nat) (a : Atom) :
  l !! k = Some a → is_radical a →
  S (length (filter is_radical (alter cap k l))) = length (filter is_radical l).
Proof.
  revert k. induction l as [|x l IH]; intros k Hk Ha; [done|].
  destruct k as [|k]; simpl in Hk.
  - injection Hk as ->. cbn [alter list_alter].
    rewrite filter_cons_False by apply cap_not_radical.
    by rewrite filter_cons_True.
  - cbn [alter list_alter]. rewrite !filter_cons.
    destruct (decide (is_radical x)); simpl; by rewrite <- (IH k).
Qed.

Lemma radical_count_capped (m : Mol) (k : nat) (a : Atom) :
  first_radical m = Some (k, a) →
  radical_count (capped k m) = pred (radical_count m).
Proof.
  intros (Ha & Hrad & _)%list_find_Some. unfold radical_count, capped, update_atom.
  simpl. by rewrite <- (radical_count_alter (atoms m) k a).
Qed.

(** The molecule that [calc_bde] leaves is the one its first step leaves. *)
Lemma calc_bde_leaves (state : MoleculeState) (w : World) :
  store (calc_bde state w).2 (molecule state)
  = match first_radical (store w (molecule state)) with
    | None => store w (molecule state)
    | Some (k, _) => capped k (store w (molecule state))
    end.
Proof.
  rewrite calc_bde_store.
  by destruct (prepare_for_bde_world (molecule state) w) as (-> & _ & _).
Qed.

(** X9.  Whether it returns or raises, [prepare_for_bde] leaves the
    molecule it is given with one radical atom less (with none, when it
    had none), and [calc_bde] does the same to the molecule of the state. *)
Theorem prepare_for_bde_caps_one_radical (state : MoleculeState) (w : World) :
  radical_count (store (prepare_for_bde (molecule state) w).2 (molecule state))
  = pred (radical_count (store w (molecule state)))
  ∧ radical_count (store (calc_bde state w).2 (molecule state))
    = pred (radical_count (store w (molecule state))).
Proof.
  rewrite calc_bde_leaves.
  destruct (prepare_for_bde_world (molecule state) w) as (-> & _ & _).
  destruct (first_radical (store w (molecule state))) as [[k a]|] eqn:Hfirst.
  - by rewrite (radical_count_capped _ k a Hfirst).
  - apply first_radical_None in Hfirst. by rewrite Hfirst.
Qed.

(** Without a radical atom [calc_bde] raises, whatever the log holds. *)
Lemma calc_bde_no_radical (state : MoleculeState) (w : World) :
  radical_count (store w (molecule state)) = 0%nat →
  calc_bde state w = (Raise TypeError, w).
Proof.
  intros Hcount. rewrite calc_bde_unfold.
  pose proof (prepare_for_bde_spec (molecule state) w) as Hspec.
  apply first_radical_None in Hcount. rewrite Hcount in Hspec. by rewrite Hspec.
Qed.

(** X10.  Scoring uses the radical up: after a [calc_reward] that returned
    for a molecule with one radical atom, the molecule of the state has no
    radical atom, [calc_bde] on the same state raises [TypeError], and
    [calc_reward] on the same state raises. *)
Theorem calc_reward_twice_raises (state : MoleculeState) (w : World)
    (r : Q * gmap string pyvalue) :
  radical_count (store w (molecule state)) = 1%nat →
  (calc_reward state w).1 = Ok r →
  let w' := (calc_reward state w).2 in
  radical_count (store w' (molecule state)) = 0%nat
  ∧ calc_bde state w' = (Raise TypeError, w')
  ∧ ∃ e, (calc_reward state w').1 = Raise e.
Proof.
  intros Hcount Hrun w'.
  destruct (calc_reward_Ok state w r Hrun) as [_ Hworld].
  assert (radical_count (store w' (molecule state)) = 0%nat) as Hnone.
  { unfold w'. rewrite Hworld, calc_bde_leaves. cbn [after_predict store].
    destruct (first_radical (store w (molecule state))) as [[k a]|] eqn:Hfirst.
    - by rewrite (radical_count_capped _ k a Hfirst), Hcount.
    - apply first_radical_None in Hfirst. congruence. }
  split; [exact Hnone|]. split; [by apply calc_bde_no_radical|].
  rewrite calc_reward_unfold. cbv zeta.
  destruct (radical_site _ _ _) as [[[atom_index max_spin] spin_buried_vol]|e];
    [|by exists e].
  rewrite calc_bde_no_radical by done. by exists TypeError.
Qed.

End capping.

Lemma methyl_radical_count :
  radical_count (store (Lab.world Lab.methyl) (molecule (Lab.state true "[CH3]")))
  = 1%nat.
Proof. reflexivity. Qed.

Lemma calc_reward_twice_raises_witness :
  calc_bde (Lab.state true "[CH3]")
    (calc_reward (Lab.state true "[CH3]") (Lab.world Lab.methyl)).2
  = (Raise TypeError, (calc_reward (Lab.state true "[CH3]") (Lab.world Lab.methyl)).2)
  ∧ ∃ e, (calc_reward (Lab.state true "[CH3]")
            (calc_reward (Lab.state true "[CH3]") (Lab.world Lab.methyl)).2).1
         = Raise e.
Proof.
  destruct methyl_calc_reward as [r Hr].
  exact (proj2 (calc_reward_twice_raises (Lab.state true "[CH3]")
                  (Lab.world Lab.methyl) r methyl_radical_count Hr)).
Defined.

(** ** The bond whose BDE is read *)

Section radical_bond.

Context {rdkit : RDKit} {collab : Collaborators}.

(** The loop over the bonds of the radical atom stops at a bond of its
    list with a hydrogen end. *)
Lemma find_h_bond_Some (molH : Mol) (todo : list (nat * Bond)) (i : nat) :
  find_h_bond molH todo = Ok (Some i) →
  ∃ b ss, (i, b) ∈ todo ∧ bond_symbols molH b = Ok ss ∧ has_h ss = true.
Proof.
  induction todo as [|[j b] todo IH]; [done|].
  cbn [find_h_bond]. intros Hfind.
  apply result_bind_Ok in Hfind as (ss & Hss & Hfind). cbn [fst snd] in *.
  destruct (has_h ss) eqn:Hh.
  - injection Hfind as <-. exists b, ss. split; [left|done].
  - destruct (IH Hfind) as (b' & ss' & Hin & Hss' & Hh').
    exists b', ss'. split; [by right|done].
Qed.

(** [list.index(x)] returns the first position that holds [x]. *)
Lemma index_of_Ok (x : nat) (l : list nat) (i : nat) :
  index_of x l = Ok i ↔ l !! i = Some x ∧ ∀ j, (j < i)%nat → l !! j ≠ Some x.
Proof.
  unfold index_of.
  destruct (list_find (λ y, y = x) l) as [[k y]|] eqn:Hfind; simpl.
  - apply list_find_Some in Hfind as (Hk & -> & Hfirst). split.
    + intros [= <-]. split; [done|]. intros j Hj Hx. by eapply Hfirst.
    + intros [Hi Hbefore]. f_equal.
      destruct (Nat.lt_trichotomy k i) as [Hlt|[->|Hlt]]; [|done|].
      * by destruct (Hbefore k Hlt).
      * by destruct (Hfirst i x Hi Hlt).
  - split; [done|]. intros [Hi _].
    eapply list_find_None, Forall_lookup in Hfind; [|exact Hi]. done.
Qed.

(** X11.  When [prepare_for_bde] returns, [radical_index_mol] is the first
    atom of the re-parsed molecule that has the canonical rank of the
    capped atom, and [bond_index] is a bond of the molecule with explicit
    hydrogens that touches this atom and has a hydrogen at one end. *)
Theorem prepare_for_bde_bond_index (mol : loc) (w : World) (inputs : RadicalBDEInputs) :
  (prepare_for_bde mol w).1 = Ok inputs →
  ∃ k a parsed rank b,
    first_radical (store w mol) = Some (k, a)
    ∧ MolFromSmiles (MolToSmiles (capped k (store w mol))) = Some parsed
    ∧ CanonicalRankAtoms (capped k (store w mol)) !! k = Some rank
    ∧ CanonicalRankAtoms parsed !! radical_index_mol inputs = Some rank
    ∧ (∀ j, (j < radical_index_mol inputs)%nat →
         CanonicalRankAtoms parsed !! j ≠ Some rank)
    ∧ bonds (AddHs parsed) !! bond_index inputs = Some b
    ∧ (begin_atom b = radical_index_mol inputs
       ∨ end_atom b = radical_index_mol inputs)
    ∧ h_bond (AddHs parsed) (bond_index inputs).
Proof.
  rewrite prepare_for_bde_result.
  destruct (first_radical (store w mol)) as [[k a]|]; [|done].
  unfold prepare_from_radical. intros H.
  apply result_bind_Ok in H as (rank & Hrank & H).
  apply result_bind_Ok in H as (parsed & Hparsed & H).
  apply result_bind_Ok in H as (radical_index_reordered & Hindex & H).
  apply result_bind_Ok in H as (radical_bonds & Hbonds & H).
  apply result_bind_Ok in H as (found & Hfound & H).
  apply result_bind_Ok in H as (hs & Hhs & H).
  apply result_bind_Ok in H as (bi & Hbi & H).
  injection H as <-. cbn [radical_index_mol bond_index].
  destruct found as [bi'|]; [|done]. injection Hbi as ->.
  destruct (MolFromSmiles _) as [parsed'|] eqn:Hparse; [|done].
  injection Hparsed as ->.
  apply index_of_Ok in Hindex as [Hindex Hfirst].
  unfold atom_bonds in Hbonds.
  apply result_bind_Ok in Hbonds as (_ & _ & [= <-]).
  apply find_h_bond_Some in Hfound as (b & ss & Hin & Hss & Hh).
  apply list_elem_of_filter in Hin as [Htouch Hin]. cbn [snd] in Htouch.
  apply GetBonds_elem in Hin.
  apply bond_symbols_Ok in Hss as (a1 & a2 & Ha1 & Ha2 & ->).
  apply has_h_true in Hh.
  exists k, a, parsed, rank, b. split_and!; try done.
  - unfold getitem in Hrank. by destruct (_ !! k); simplify_eq/=.
  - by exists b, a1, a2.
Qed.

End radical_bond.

Lemma methyl_prepared :
  (prepare_for_bde 0 (Lab.world Lab.methyl)).1
  = Ok {| mol_smiles := "C"; radical_index_mol := 0;
          bond_index := 0; other_h_bonds := [2; 3; 1] |}.
Proof. by vm_compute. Qed.

Lemma prepare_for_bde_bond_index_witness :
  ∃ b,
    bonds Lab.methane_H !! 0%nat = Some b
    ∧ (begin_atom b = 0%nat ∨ end_atom b = 0%nat)
    ∧ h_bond Lab.methane_H 0.
Proof.
  destruct (prepare_for_bde_bond_index 0 (Lab.world Lab.methyl) _ methyl_prepared)
    as (k & a & parsed & rank & b & Hfirst & Hparsed & _ & _ & _ & Hb & Htouch & Hh).
  vm_compute in Hfirst. injection Hfirst as <- <-.
  vm_compute in Hparsed. injection Hparsed as <-.
  exists b. split; [exact Hb|]. split; [exact Htouch|exact Hh].
Defined.

(** ** Where an [AssertionError] can come from *)

Section assertions.

Context {rdkit : RDKit} {collab : Collaborators}.

Local Open Scope Q_scope.

Lemma result_bind_Raise {A B : Type} (r : result A) (k : A → result B) (e : exn) :
  r ≫= k = Raise e ↔ r = Raise e ∨ ∃ a, r = Ok a ∧ k a = Raise e.
Proof.
  destruct r as [a|e']; unfold mbind, result_bind.
  - split; [eauto|]. intros [?|(a' & [= ->] & ?)]; done.
  - split; [intros [= ->]; by left|]. intros [[= ->]|(a' & ? & ?)]; done.
Qed.

Lemma bond_symbols_Raise (m : Mol) (b : Bond) (e : exn) :
  bond_symbols m b = Raise e → e = RuntimeError.
Proof.
  unfold bond_symbols, GetAtomWithIdx.
  destruct (atoms m !! begin_atom b); simpl; [|congruence].
  destruct (atoms m !! end_atom b); simpl; [done|congruence].
Qed.

Lemma find_h_bond_Raise (molH : Mol) (todo : list (nat * Bond)) (e : exn) :
  find_h_bond molH todo = Raise e → e = RuntimeError.
Proof.
  induction todo as [|ib todo IH]; [done|]. cbn [find_h_bond].
  intros [H|(ss & _ & H)]%result_bind_Raise.
  - by eapply bond_symbols_Raise.
  - destruct (has_h ss); [done|by apply IH].
Qed.

Lemma h_bond_indices_Raise (molH : Mol) (todo : list (nat * Bond)) (e : exn) :
  h_bond_indices molH todo = Raise e → e = RuntimeError.
Proof.
  induction todo as [|ib todo IH]; [done|]. cbn [h_bond_indices].
  intros [H|(ss & _ & H)]%result_bind_Raise.
  - by eapply bond_symbols_Raise.
  - apply result_bind_Raise in H as [H|(rest & _ & H)]; [by apply IH|done].
Qed.

(** The exceptions of [prepare_for_bde] after the loop. *)
Lemma prepare_from_radical_Raise (m : Mol) (radical_index : option nat) (e : exn) :
  prepare_from_radical m radical_index = Raise e →
  e ∈ [TypeError; IndexError; ValueError; RuntimeError; UnboundLocalError].
Proof.
  unfold prepare_from_radical.
  intros [H|(radical_rank & _ & H)]%result_bind_Raise.
  { destruct radical_index as [i|]; [|injection H as <-; set_solver].
    unfold getitem in H. destruct (_ !! i); [done|]. injection H as <-. set_solver. }
  apply result_bind_Raise in H as [H|(mol & _ & H)].
  { destruct (MolFromSmiles _); [done|]. injection H as <-. set_solver. }
  apply result_bind_Raise in H as [H|(radical_index_reordered & _ & H)].
  { unfold index_of in H. destruct (list_find _ _); [done|].
    injection H as <-. set_solver. }
  apply result_bind_Raise in H as [H|(radical_bonds & _ & H)].
  { unfold atom_bonds, GetAtomWithIdx in H. destruct (_ !! _); [done|].
    injection H as <-. set_solver. }
  apply result_bind_Raise in H as [H|(found & _ & H)].
  { apply find_h_bond_Raise in H as ->. set_solver. }
  apply result_bind_Raise in H as [H|(hs & _ & H)].
  { apply h_bond_indices_Raise in H as ->. set_solver. }
  apply result_bind_Raise in H as [H|(bi & _ & H)]; [|done].
  destruct found; [done|]. injection H as <-. set_solver.
Qed.

Lemma take_indices_Raise {A : Type} (array : list A) (indices : list nat) (e : exn) :
  take_indices array indices = Raise e → e = IndexError.
Proof.
  unfold take_indices. induction indices as [|i indices IH]; [done|].
  cbn [mapM]. intros [H|(v & _ & H)]%result_bind_Raise.
  - unfold getitem in H. destruct (_ !! i); [done|]. by injection H.
  - apply result_bind_Raise in H as [H|(vs & _ & H)]; [by apply IH|done].
Qed.

Lemma bde_of_predictions_Raise (pred_bdes : list Q) (bde_inputs : RadicalBDEInputs)
    (e : exn) :
  bde_of_predictions pred_bdes bde_inputs = Raise e →
  e = IndexError ∨ e = ValueError.
Proof.
  unfold bde_of_predictions.
  intros [H|(bde_radical & _ & H)]%result_bind_Raise.
  { unfold getitem in H. destruct (_ !! _); [done|]. injection H as <-. by left. }
  destruct (length _ =? 0)%nat; [done|].
  apply result_bind_Raise in H as [H|(other_h_bdes & _ & H)].
  { apply take_indices_Raise in H. by left. }
  apply result_bind_Raise in H as [H|(bde_diff & _ & H)]; [|done].
  unfold array_min in H. destruct (_ <$> _); [|done]. injection H as <-. by right.
Qed.

(** X12.  [prepare_for_bde] never raises [AssertionError]: its assertion
    cannot fail.  An [AssertionError] out of [calc_bde] always comes from
    [bde_get_inputs]: the molecule was prepared, and the features of the BDE
    preprocessor for its SMILES hold the unknown token. *)
Theorem calc_bde_assertion_error (state : MoleculeState) (w : World) :
  (prepare_for_bde (molecule state) w).1 ≠ Raise AssertionError
  ∧ ((calc_bde state w).1 = Raise AssertionError ↔
     ∃ bde_inputs,
       (prepare_for_bde (molecule state) w).1 = Ok bde_inputs
       ∧ in_domain (bde_preprocessor (mol_smiles bde_inputs)) = false).
Proof.
  assert ((prepare_for_bde (molecule state) w).1 ≠ Raise AssertionError) as Hprep.
  { rewrite prepare_for_bde_result.
    destruct (first_radical _) as [[k a]|]; [|done].
    intros H%prepare_from_radical_Raise. set_solver. }
  split; [exact Hprep|].
  rewrite calc_bde_unfold.
  destruct (prepare_for_bde (molecule state) w) as [[bde_inputs|e] w1];
    cbn [fst] in *.
  - destruct (in_domain (bde_preprocessor (mol_smiles bde_inputs))) eqn:Hdomain.
    + rewrite (bde_get_inputs_known _ Hdomain). cbn [fst]. split.
      * intros [?|?]%bde_of_predictions_Raise; done.
      * intros (bde_inputs' & [= <-] & ?). congruence.
    + rewrite (bde_get_inputs_unknown _ Hdomain). cbn [fst]. split; [|done].
      intros _. by exists bde_inputs.
  - split; [intros [= ->]; by destruct Hprep|]. by intros (bde_inputs & ? & _).
Qed.

End assertions.

Lemma calc_bde_assertion_error_witness :
  (calc_bde (Lab.state true "C[S]") (Lab.world Lab.methylthiyl)).1
  = Raise AssertionError.
Proof.
  apply (calc_bde_assertion_error (Lab.state true "C[S]") (Lab.world Lab.methylthiyl)).
  exists {| mol_smiles := "CS"; radical_index_mol := 1;
            bond_index := 4; other_h_bonds := [2; 3; 1] |}.
  split; by vm_compute.
Defined.

(** ** Which models have run *)

Section model_order.

Context {rdkit : RDKit} {collab : Collaborators}.

Local Open Scope Q_scope.

(** [calc_bde] runs the BDE model at most once, and nothing else. *)
Lemma calc_bde_log (state : MoleculeState) (w : World) :
  ∃ n, (n <= 1)%nat
       ∧ predict_log (calc_bde state w).2 = predict_log w ++ take n [BdeModel].
Proof.
  rewrite calc_bde_unfold.
  destruct (prepare_for_bde_world (molecule state) w) as (_ & _ & Hlog).
  destruct (prepare_for_bde (molecule state) w) as [[bde_inputs|e] w1];
    cbn [snd] in Hlog.
  - destruct (bde_get_inputs _); cbn [snd after_predict predict_log].
    + exists 1%nat. split; [lia|]. by rewrite Hlog.
    + exists 0%nat. split; [lia|]. by rewrite Hlog, app_nil_r.
  - exists 0%nat. split; [lia|]. cbn [snd]. by rewrite Hlog, app_nil_r.
Qed.

(** X13.  Whatever the outcome, [get_reward] runs the models in the order
    stability, redox, BDE, each at most once, and stops at the first one it
    does not reach; [calc_reward] always runs the stability model. *)
Theorem get_reward_model_order (state : MoleculeState) (w : World) :
  (∃ n, (n <= 3)%nat
        ∧ predict_log (get_reward state w).2
          = predict_log w ++ take n [StabilityModel; RedoxModel; BdeModel])
  ∧ (∃ n, (1 <= n <= 3)%nat
          ∧ predict_log (calc_reward state w).2
            = predict_log w ++ take n [StabilityModel; RedoxModel; BdeModel]).
Proof.
  assert (∃ n, (1 <= n <= 3)%nat
               ∧ predict_log (calc_reward state w).2
                 = predict_log w ++ take n [StabilityModel; RedoxModel; BdeModel])
    as Hcalc.
  { rewrite calc_reward_unfold. cbv zeta.
    destruct (radical_site _ _ _) as [[[atom_index max_spin] spin_buried_vol]|e].
    - destruct (calc_bde_log state
                  (after_predict RedoxModel (after_predict StabilityModel w)))
        as (n & Hn & Hlog).
      exists (2 + n)%nat. split; [lia|].
      destruct (calc_bde state _) as [[[bde bde_diff]|e] w3]; cbn [snd] in *;
        rewrite Hlog; cbn [after_predict predict_log]; rewrite <- !app_assoc;
        by destruct n as [|[|n]]; [..|lia].
    - exists 1%nat. split; [lia|done]. }
  split; [|exact Hcalc].
  rewrite get_reward_unfold.
  destruct (in_domain _); [|exists 0%nat; split; [lia|by rewrite app_nil_r]].
  destruct (forced_terminal state); [|exists 0%nat; split; [lia|by rewrite app_nil_r]].
  destruct Hcalc as (n & Hn & Hlog). exists n. split; [lia|].
  by destruct (calc_reward state w) as [[[reward stats]|e] w'].
Qed.

(** X14.  The atom of greatest spin is looked up before anything else is
    done.  A stability model that returns no spin makes [calc_reward] raise
    [ValueError]; a buried-volume vector that is too short, [IndexError];
    a molecule with no atom at that index, [RuntimeError].  In each case
    only the stability model has run and no molecule has been written. *)
Theorem calc_reward_site_errors (state : MoleculeState) (w : World) :
  let m := store w (molecule state) in
  let spins := (stability_model (get_policy_inputs state m)).1 in
  let buried_vol := (stability_model (get_policy_inputs state m)).2 in
  (spins = [] →
     calc_reward state w = (Raise ValueError, after_predict StabilityModel w))
  ∧ (∀ atom_index, argmax spins = Ok atom_index →
       buried_vol !! atom_index = None →
       calc_reward state w = (Raise IndexError, after_predict StabilityModel w))
  ∧ (∀ atom_index, argmax spins = Ok atom_index →
       is_Some (buried_vol !! atom_index) →
       atoms m !! atom_index = None →
       calc_reward state w = (Raise RuntimeError, after_predict StabilityModel w)).
Proof.
  intros m spins buried_vol.
  pose proof (calc_reward_unfold state w) as Hunfold. cbv zeta in Hunfold.
  fold m spins buried_vol in Hunfold. unfold radical_site in Hunfold.
  split_and!.
  - intros Hspins. by rewrite Hunfold, Hspins.
  - intros atom_index Hargmax Hvol. rewrite Hunfold, Hargmax.
    destruct (argmax_spec spins atom_index Hargmax) as (max_spin & Hspin & _).
    cbn [mbind result_bind]. unfold getitem. rewrite Hspin.
    cbn [from_option mbind result_bind]. by rewrite Hvol.
  - intros atom_index Hargmax [spin_buried_vol Hvol] Hatom.
    rewrite Hunfold, Hargmax.
    destruct (argmax_spec spins atom_index Hargmax) as (max_spin & Hspin & _).
    cbn [mbind result_bind]. unfold getitem, GetAtomWithIdx. rewrite Hspin.
    cbn [from_option mbind result_bind]. rewrite Hvol.
    cbn [from_option mbind result_bind]. by rewrite Hatom.
Qed.

End model_order.

Lemma calc_reward_site_errors_witness :
  calc_reward (Lab.state true "") (Lab.world Lab.no_atoms)
  = (Raise ValueError, after_predict StabilityModel (Lab.world Lab.no_atoms)).
Proof.
  apply (calc_reward_site_errors (Lab.state true "") (Lab.world Lab.no_atoms)).
  reflexivity.
Defined.

(** ** Reading a result of [calc_bde] backwards *)

Section bde_reading.

Context {rdkit : RDKit} {collab : Collaborators}.

Local Open Scope Q_scope.

Lemma take_indices_Ok {A : Type} (array : list A) (indices : list nat) (vs : list A) :
  take_indices array indices = Ok vs →
  ∀ i, i ∈ indices → is_Some (array !! i).
Proof.
  unfold take_indices. revert vs.
  induction indices as [|i indices IH]; intros vs Hvs j Hj.
  - by apply elem_of_nil in Hj.
  - cbn [mapM] in Hvs.
    apply result_bind_Ok in Hvs as (v & Hv & Hvs).
    apply result_bind_Ok in Hvs as (vs' & Hvs' & _).
    apply elem_of_cons in Hj as [->|Hj]; [|by eapply IH].
    unfold getitem in Hv. destruct (array !! i); [by eexists|done].
Qed.

(** X15.  A pair that [calc_bde] returns: [bde] is the prediction of the
    BDE model at [bond_index]; without another X-H bond [bde_diff] is 30,
    and with other X-H bonds [bde_diff] is positive exactly when every one
    of them is predicted stronger than the bond at [bond_index]. *)
Theorem calc_bde_diff_sign (state : MoleculeState) (w : World) (bde bde_diff : Q) :
  (calc_bde state w).1 = Ok (bde, bde_diff) →
  ∃ bde_inputs,
    (prepare_for_bde (molecule state) w).1 = Ok bde_inputs
    ∧ in_domain (bde_preprocessor (mol_smiles bde_inputs)) = true
    ∧ bde_model (bde_preprocessor (mol_smiles bde_inputs)) !! bond_index bde_inputs
      = Some bde
    ∧ (other_h_bonds bde_inputs = [] → bde_diff = 30)
    ∧ (other_h_bonds bde_inputs ≠ [] →
       (0 < bde_diff ↔
        ∀ b x, b ∈ other_h_bonds bde_inputs →
               bde_model (bde_preprocessor (mol_smiles bde_inputs)) !! b = Some x →
               bde < x)).
Proof.
  intros Hrun.
  destruct (calc_bde_Ok state w _ Hrun)
    as (bde_inputs & model_inputs & Hprep & Hfeat & Hpred & _).
  exists bde_inputs. split; [exact Hprep|].
  destruct (in_domain (bde_preprocessor (mol_smiles bde_inputs))) eqn:Hdomain;
    [|by rewrite (bde_get_inputs_unknown _ Hdomain) in Hfeat].
  rewrite (bde_get_inputs_known _ Hdomain) in Hfeat. injection Hfeat as <-.
  split; [done|].
  set (pred_bdes := bde_model (bde_preprocessor (mol_smiles bde_inputs))) in *.
  assert (pred_bdes !! bond_index bde_inputs = Some bde) as Hradical.
  { unfold bde_of_predictions in Hpred.
    apply result_bind_Ok in Hpred as (bde_radical & Hradical & Hpred).
    unfold getitem in Hradical.
    destruct (pred_bdes !! bond_index bde_inputs) as [x|]; [|done].
    injection Hradical as ->.
    destruct (length _ =? 0)%nat; [by injection Hpred as ->|].
    apply result_bind_Ok in Hpred as (other_h_bdes & _ & Hpred).
    apply result_bind_Ok in Hpred as (d & _ & Hpred). by injection Hpred as ->. }
  split; [exact Hradical|]. split.
  - intros Hother.
    rewrite (bde_of_predictions_alone _ _ bde Hradical Hother) in Hpred.
    by injection Hpred.
  - intros Hother.
    assert (∀ b, b ∈ other_h_bonds bde_inputs → is_Some (pred_bdes !! b)) as Hrange.
    { unfold bde_of_predictions, getitem in Hpred. rewrite Hradical in Hpred.
      cbn [from_option mbind result_bind] in Hpred.
      destruct (length _ =? 0)%nat eqn:Hlen.
      - apply Nat.eqb_eq in Hlen. by destruct (other_h_bonds bde_inputs).
      - apply result_bind_Ok in Hpred as (other_h_bdes & Htake & _).
        by eapply take_indices_Ok. }
    destruct (bde_of_predictions_others _ _ bde Hradical Hother Hrange)
      as (d & Hd & (b0 & x0 & Hb0 & Hx0 & Hd0) & Hle).
    rewrite Hd in Hpred. injection Hpred as ->. split.
    + intros Hpos b x Hb Hx. specialize (Hle b x Hb Hx). lra.
    + intros Hall. specialize (Hall b0 x0 Hb0 Hx0). rewrite Hd0. lra.
Qed.

End bde_reading.

Lemma methyl_calc_bde :
  (calc_bde (Lab.state true "[CH3]") (Lab.world Lab.methyl)).1 = Ok (70, 5)%Q.
Proof. by vm_compute. Qed.

Lemma calc_bde_diff_sign_witness :
  ∃ bde_inputs,
    (prepare_for_bde 0 (Lab.world Lab.methyl)).1 = Ok bde_inputs
    ∧ bde_model (bde_preprocessor (mol_smiles bde_inputs)) !! bond_index bde_inputs
      = Some 70%Q.
Proof.
  destruct (calc_bde_diff_sign (Lab.state true "[CH3]") (Lab.world Lab.methyl)
              70 5 methyl_calc_bde)
    as (bde_inputs & Hprep & _ & Hradical & _).
  exists bde_inputs. split; [exact Hprep|exact Hradical].
Defined.

(** ** GraphGymModel: the flattened observations *)

Section gym_flatten_facts.

Import GraphGym.

Context {X : Type}.

(** The comprehension over the actions reads the entry of every action. *)
Lemma flatten_parts_Ok (obs : list (gmap string (list X))) (key : string)
    (parts : list (list X)) :
  mapM (λ o : gmap string (list X), from_option KeyError (o !! key)) obs = Ok parts
  ↔ Forall2 (λ o p, o !! key = Some p) obs parts.
Proof.
  revert parts. induction obs as [|o obs IH]; intros parts; cbn [mapM].
  - split.
    + intros [= <-]. constructor.
    + by intros ->%Forall2_nil_inv_l.
  - split.
    + intros H. apply result_bind_Ok in H as (p & Hp & H).
      apply result_bind_Ok in H as (ps & Hps & [= <-]).
      constructor; [|by apply IH].
      by destruct (o !! key); simplify_eq/=.
    + intros (p & ps & Hp & Hps & ->)%Forall2_cons_inv_l.
      rewrite Hp. cbn [from_option mbind result_bind].
      apply IH in Hps. by rewrite Hps.
Qed.

Lemma flatten_key_Ok (obs : list (gmap string (list X))) (key : string)
    (flat : list X) :
  flatten_key obs key = Ok flat ↔
  ∃ parts, Forall2 (λ o p, o !! key = Some p) obs parts ∧ flat = concat parts.
Proof.
  unfold flatten_key. rewrite result_bind_Ok. split.
  - intros (parts & Hparts%flatten_parts_Ok & [= <-]). by exists parts.
  - intros (parts & Hparts%flatten_parts_Ok & ->). by exists parts.
Qed.

(** The only exception of the comprehension is the [KeyError] of an
    observation without the key. *)
Lemma flatten_key_Raise (obs : list (gmap string (list X))) (key : string) (e : exn) :
  flatten_key obs key = Raise e → e = KeyError.
Proof.
  unfold flatten_key. intros [H|(parts & _ & H)]%result_bind_Raise; [|done].
  induction obs as [|o obs IH]; [done|]. cbn [mapM] in H.
  apply result_bind_Raise in H as [H|(p & _ & H)].
  - destruct (o !! key); [done|]. by injection H.
  - apply result_bind_Raise in H as [H|(ps & _ & H)]; [by apply IH|done].
Qed.

(** The loop over the keys. *)
Lemma flatten_loop_Ok (obs : list (gmap string (list X))) (keys : list string)
    (flat : gmap string (list X)) :
  foldr (λ key acc,
           flat ← acc;
           v ← flatten_key obs key;
           mret (<[key := v]> flat)) (Ok ∅) keys = Ok flat →
  dom flat = list_to_set keys
  ∧ ∀ key, key ∈ keys → ∃ v, flatten_key obs key = Ok v ∧ flat !! key = Some v.
Proof.
  revert flat. induction keys as [|key keys IH]; intros flat; cbn [foldr].
  - intros [= <-]. split; [set_solver|]. by intros key ?%elem_of_nil.
  - intros H. apply result_bind_Ok in H as (flat' & Hflat' & H).
    apply result_bind_Ok in H as (v & Hv & [= <-]).
    destruct (IH flat' Hflat') as [Hdom Hkeys]. split.
    + rewrite dom_insert_L, Hdom. set_solver.
    + intros key' Hkey'. destruct (decide (key' = key)) as [->|Hne].
      * exists v. by rewrite lookup_insert_eq.
      * apply elem_of_cons in Hkey' as [?|Hkey']; [done|].
        destruct (Hkeys key' Hkey') as (v' & Hv' & Hlookup).
        exists v'. by rewrite lookup_insert_ne.
Qed.

Lemma flatten_loop_Raise (obs : list (gmap string (list X))) (keys : list string)
    (e : exn) :
  foldr (λ key acc,
           flat ← acc;
           v ← flatten_key obs key;
           mret (<[key := v]> flat)) (Ok (∅ : gmap string (list X))) keys = Raise e →
  e = KeyError.
Proof.
  induction keys as [|key keys IH]; cbn [foldr]; [done|].
  intros [H|(flat' & _ & H)]%result_bind_Raise; [by apply IH|].
  apply result_bind_Raise in H as [H|(v & _ & H)]; [|done].
  by eapply flatten_key_Raise.
Qed.

(** X16.  The flattened observations have the keys of the first action's
    observation, and under each key the concatenation, in the order of the
    actions, of that entry of every action's observation; keys that only
    later observations have are dropped. *)
Theorem flatten_observations_spec (obs : list (gmap string (list X)))
    (flat : gmap string (list X)) :
  flatten_observations obs = Ok flat →
  ∃ first,
    obs !! 0%nat = Some first
    ∧ dom flat = dom first
    ∧ ∀ key, key ∈ dom first →
        ∃ parts,
          Forall2 (λ o p, o !! key = Some p) obs parts
          ∧ flat !! key = Some (concat parts).
Proof.
  unfold flatten_observations. intros H.
  apply result_bind_Ok in H as (first & Hfirst & H).
  unfold getitem in Hfirst.
  destruct (obs !! 0%nat) as [first'|] eqn:Hobs; [|done]. injection Hfirst as ->.
  destruct (flatten_loop_Ok _ _ _ H) as [Hdom Hkeys].
  exists first. split; [done|]. split.
  - rewrite Hdom. apply set_eq. intros key.
    by rewrite elem_of_list_to_set, elem_of_elements.
  - intros key Hkey. destruct (Hkeys key) as (v & Hv & Hlookup).
    { by apply elem_of_elements. }
    apply flatten_key_Ok in Hv as (parts & Hparts & ->). by exists parts.
Qed.

(** An observation without a key of the first one. *)
Lemma flatten_observations_missing_key (obs : list (gmap string (list X)))
    (first : gmap string (list X)) (key : string) (o : gmap string (list X)) :
  obs !! 0%nat = Some first → key ∈ dom first → o ∈ obs → o !! key = None →
  flatten_observations obs = Raise KeyError.
Proof.
  intros Hfirst Hkey Ho Hnone.
  unfold flatten_observations, getitem. rewrite Hfirst.
  cbn [from_option mbind result_bind].
  destruct (foldr _ _ _) as [flat|e] eqn:Hloop.
  - destruct (flatten_loop_Ok _ _ _ Hloop) as [_ Hkeys].
    destruct (Hkeys key) as (v & Hv & _); [by apply elem_of_elements|].
    apply flatten_key_Ok in Hv as (parts & Hparts & _).
    apply list_elem_of_lookup in Ho as [i Hi].
    destruct (Forall2_lookup_l _ _ _ _ _ Hparts Hi) as (p & _ & Hp). congruence.
  - by apply flatten_loop_Raise in Hloop as ->.
Qed.

(** X17.  The flattening raises [IndexError] without any action
    observation and [KeyError] when an observation lacks a key of the first
    one; it succeeds when every observation has every key of the first
    one. *)
Theorem flatten_observations_errors (obs : list (gmap string (list X))) :
  (obs = [] → flatten_observations obs = Raise IndexError)
  ∧ (∀ first key o,
       obs !! 0%nat = Some first → key ∈ dom first → o ∈ obs → o !! key = None →
       flatten_observations obs = Raise KeyError)
  ∧ (∀ first,
       obs !! 0%nat = Some first →
       (∀ key o, key ∈ dom first → o ∈ obs → is_Some (o !! key)) →
       ∃ flat, flatten_observations obs = Ok flat).
Proof.
  split; [by intros ->|]. split; [apply flatten_observations_missing_key|].
  intros first Hfirst Hall.
  unfold flatten_observations, getitem. rewrite Hfirst.
  cbn [from_option mbind result_bind].
  assert (∀ key, key ∈ elements (dom first) → ∃ v, flatten_key obs key = Ok v)
    as Hkeys.
  { intros key Hkey%elem_of_elements.
    assert (∃ parts, Forall2 (λ o p, o !! key = Some p) obs parts) as [parts Hparts].
    { assert (∀ o, o ∈ obs → is_Some (o !! key)) as Hobs by (intros; by apply Hall).
      clear Hfirst Hall. induction obs as [|o obs IH]; [by exists []|].
      destruct (Hobs o) as [p Hp]; [left|].
      destruct IH as [ps Hps]; [intros; apply Hobs; by right|].
      exists (p :: ps). by constructor. }
    exists (concat parts). apply flatten_key_Ok. by exists parts. }
  induction (elements (dom first)) as [|key keys IH]; cbn [foldr]; [by eexists|].
  destruct IH as [flat' ->]; [intros; apply Hkeys; by right|].
  destruct (Hkeys key) as [v ->]; [left|].
  cbn [mbind result_bind]. by eexists.
Qed.

End gym_flatten_facts.

Lemma flatten_observations_spec_witness :
  ∃ first,
    GraphGym.action_observations Lab.gym_obs !! 0%nat = Some first
    ∧ dom Lab.gym_flat_obs = dom first.
Proof.
  destruct (flatten_observations_spec (GraphGym.action_observations Lab.gym_obs)
              Lab.gym_flat_obs gym_flatten) as (first & Hfirst & Hdom & _).
  exists first. split; [exact Hfirst|exact Hdom].
Defined.

Lemma flatten_observations_errors_witness :
  GraphGym.flatten_observations ([] : list (gmap string (list nat)))
  = Raise IndexError.
Proof.
  apply (flatten_observations_errors ([] : list (gmap string (list nat)))).
  reflexivity.
Defined.

(** ** GraphGymModel: where an observation row ends up *)

Section gym_layout_facts.

Import GraphGym.

Context {X : Type}.

(** Concatenating blocks of one length: block [a], offset [b]. *)
Lemma concat_lookup_block (parts : list (list X)) (n a b : nat) (p : list X) :
  Forall (λ q, length q = n) parts →
  parts !! a = Some p → (b < n)%nat →
  concat parts !! (a * n + b)%nat = p !! b.
Proof.
  revert a. induction parts as [|q parts IH]; intros a Hlen Ha Hb; [done|].
  apply Forall_cons in Hlen as [Hq Hlen]. destruct a as [|a]; simpl in Ha.
  - injection Ha as ->. cbn [concat]. rewrite lookup_app_l by lia. done.
  - cbn [concat]. rewrite lookup_app_r by lia.
    replace (S a * n + b - length q)%nat with (a * n + b)%nat by lia.
    by apply IH.
Qed.

Lemma concat_length_block (parts : list (list X)) (n : nat) :
  Forall (λ q, length q = n) parts →
  length (concat parts) = (length parts * n)%nat.
Proof.
  induction 1 as [|q parts Hq _ IH]; [done|].
  cbn [concat length]. rewrite length_app, IH, Hq. lia.
Qed.

(** X18.  When every action's observation holds [batch] rows under a
    key, the flattened tensor holds them action after action: row [b] of
    action [a] stands at position [a * batch + b]. *)
Theorem flatten_key_layout (obs : list (gmap string (list X))) (key : string)
    (flat : list X) (batch : nat) :
  flatten_key obs key = Ok flat →
  (∀ o p, o ∈ obs → o !! key = Some p → length p = batch) →
  length flat = (length obs * batch)%nat
  ∧ ∀ a b o p,
      obs !! a = Some o → o !! key = Some p → (b < batch)%nat →
      flat !! (a * batch + b)%nat = p !! b.
Proof.
  intros (parts & Hparts & ->)%flatten_key_Ok Hrows.
  assert (Forall (λ q, length q = batch) parts) as Hlen.
  { apply Forall_lookup. intros i q Hq.
    destruct (Forall2_lookup_r _ _ _ _ _ Hparts Hq) as (o & Ho & Hoq).
    apply (Hrows o q); [by eapply list_elem_of_lookup_2|done]. }
  split.
  - rewrite (concat_length_block _ batch Hlen).
    by rewrite (Forall2_length _ _ _ Hparts).
  - intros a b o p Ho Hp Hb.
    destruct (Forall2_lookup_l _ _ _ _ _ Hparts Ho) as (q & Hq & Hoq).
    rewrite Hp in Hoq. injection Hoq as <-.
    by apply (concat_lookup_block _ batch a b p).
Qed.

End gym_layout_facts.

Lemma gym_flatten_key :
  GraphGym.flatten_key (GraphGym.action_observations Lab.gym_obs) "atom"
  = Ok [5; 1; 7; 2; 3; 9]%nat.
Proof. by vm_compute. Qed.

Lemma gym_rows (o : gmap string (list nat)) (p : list nat) :
  o ∈ GraphGym.action_observations Lab.gym_obs → o !! "atom" = Some p →
  length p = 2%nat.
Proof.
  intros Ho Hp. cbn [Lab.gym_obs GraphGym.action_observations] in Ho.
  repeat (apply elem_of_cons in Ho as [->|Ho];
          [rewrite lookup_singleton_eq in Hp; by injection Hp as <-|]).
  by apply elem_of_nil in Ho.
Qed.

Lemma flatten_key_layout_witness :
  [5; 1; 7; 2; 3; 9]%nat !! (1 * 2 + 0)%nat = [7; 2]%nat !! 0%nat.
Proof.
  refine (proj2 (flatten_key_layout (GraphGym.action_observations Lab.gym_obs)
                   "atom" [5; 1; 7; 2; 3; 9]%nat 2 gym_flatten_key gym_rows)
            1%nat 0%nat {[ "atom" := [7; 2]%nat ]} [7; 2]%nat _ _ _).
  - reflexivity.
  - by rewrite lookup_singleton_eq.
  - lia.
Defined.

(** ** GraphGymModel: what a failing [forward] leaves behind *)

Section gym_failure_facts.

Import GraphGym.

Local Open Scope Q_scope.

Context {X S L : Type}.
Context (per_action_model : gmap string (list X) → FlatTensor * FlatTensor).
Context (reduce_max_empty : Q).

(** X19.  A [forward] whose observations cannot be flattened raises what
    the flattening raises and leaves [total_value] as it was: [IndexError]
    without any action observation, [KeyError] when an observation lacks a
    key of the first one; [value_function] still returns the old value. *)
Theorem forward_observation_errors (self : GraphGymModel) (obs : Obs)
    (state : S) (seq_lens : L) :
  (action_observations obs = [] →
     forward per_action_model reduce_max_empty self obs state seq_lens
     = (Raise IndexError, self)
     ∧ value_function
         (forward per_action_model reduce_max_empty self obs state seq_lens).2
       = value_function self)
  ∧ (∀ first key o,
       action_observations obs !! 0%nat = Some first →
       key ∈ dom first → o ∈ action_observations obs → o !! key = None →
       forward per_action_model reduce_max_empty self obs state seq_lens
       = (Raise KeyError, self)
       ∧ value_function
           (forward per_action_model reduce_max_empty self obs state seq_lens).2
         = value_function self).
Proof.
  split.
  - intros Hobs. unfold forward. by rewrite Hobs.
  - intros first key o Hfirst Hin Ho Hnone. unfold forward.
    by rewrite (flatten_observations_missing_key _ first key o Hfirst Hin Ho Hnone).
Qed.

(** X21.  A batch element without a valid action: under the
    hypotheses of a successful [forward], its value is [dtype.min] of the
    values and each of its weights is [dtype.min] of the weights. *)
Theorem forward_row_without_valid_action (self : GraphGymModel) (obs : Obs)
    (state : S) (seq_lens : L) (flat_obs : gmap string (list X)) (b : nat) :
  let mask := bool_mask (action_mask obs) in
  let batch := (shape mask).1 in
  let actions := (shape mask).2 in
  let flat_values := (per_action_model flat_obs).1 in
  let flat_weights := (per_action_model flat_obs).2 in
  flatten_observations (action_observations obs) = Ok flat_obs →
  length (entries mask) = (batch * actions)%nat →
  length (flat_entries flat_values) = (batch * actions)%nat →
  length (flat_entries flat_weights) = (batch * actions)%nat →
  (b < batch)%nat → (0 < actions)%nat →
  (∀ a, (a < actions)%nat → entry mask b a = Some false) →
  ∃ action_weights total_value,
    forward per_action_model reduce_max_empty self obs state seq_lens
    = (Ok (action_weights, state), {| total_value := Some total_value |})
    ∧ total_value !! b = Some (dtype_min flat_values)
    ∧ ∀ a, (a < actions)%nat →
        entry action_weights b a = Some (dtype_min flat_weights).
Proof.
  intros mask batch actions flat_values flat_weights Hflat Hmask Hvalues Hweights
    Hb Hpos Hnone.
  destruct (forward_unfold per_action_model reduce_max_empty self obs state
              seq_lens flat_obs Hflat Hvalues Hweights) as [_ Hforward].
  fold mask flat_values flat_weights in Hforward.
  set (values := {| shape := shape mask; entries := flat_entries flat_values |}) in *.
  set (weights := {| shape := shape mask; entries := flat_entries flat_weights |}) in *.
  set (action_values := tf_where mask values (dtype_min flat_values)) in *.
  set (action_weights := tf_where mask weights (dtype_min flat_weights)) in *.
  exists action_weights, (tf_reduce_max_axis1 reduce_max_empty action_values).
  split; [exact Hforward|].
  assert (∀ a, (a < actions)%nat →
            entry action_values b a = Some (dtype_min flat_values)
            ∧ entry action_weights b a = Some (dtype_min flat_weights)) as Hentries.
  { intros a Ha.
    destruct (entry_is_Some values b a Hvalues Hb Ha) as [v Hv].
    destruct (entry_is_Some weights b a Hweights Hb Ha) as [wt Hwt].
    split.
    - apply (tf_where_entry mask values _ b a false v); [done|by apply Hnone|done].
    - apply (tf_where_entry mask weights _ b a false wt); [done|by apply Hnone|done]. }
  split; [|intros a Ha; by apply Hentries].
  unfold tf_reduce_max_axis1. rewrite list_lookup_fmap.
  cbn [action_values tf_where shape values]. fold batch.
  rewrite lookup_seq_lt by done. cbn [fmap option_fmap option_map]. f_equal.
  assert (length (row action_values b) = actions) as Hrow.
  { apply row_length; [|done].
    cbn [action_values tf_where shape entries values].
    rewrite length_zip_with. fold batch actions. lia. }
  destruct (max_of_spec reduce_max_empty (row action_values b)) as [Hin _].
  { intros Hnil. rewrite Hnil in Hrow. simpl in Hrow. lia. }
  apply list_elem_of_lookup in Hin as [a Ha].
  assert (a < actions)%nat as Hlt.
  { rewrite <- Hrow. by eapply lookup_lt_Some. }
  rewrite row_lookup in Ha by done.
  destruct (Hentries a Hlt) as [Hav _]. rewrite Hav in Ha. by injection Ha.
Qed.

End gym_failure_facts.

(** The laboratory batches meet the hypotheses of the theorems above. *)
Lemma gym_no_weights_values :
  length (GraphGym.flat_entries (Lab.gym_model_no_weights Lab.gym_flat_obs).1)
  = (2 * 3)%nat.
Proof. by vm_compute. Qed.

Lemma gym_no_weights_weights :
  length (GraphGym.flat_entries (Lab.gym_model_no_weights Lab.gym_flat_obs).2)
  ≠ (2 * 3)%nat.
Proof. by vm_compute. Qed.

Lemma gym_idle_mask_length :
  length (GraphGym.entries (GraphGym.bool_mask (GraphGym.action_mask Lab.gym_obs_idle)))
  = (2 * 3)%nat.
Proof. by vm_compute. Qed.

Lemma gym_idle_row (a : nat) :
  (a < 3)%nat →
  GraphGym.entry (GraphGym.bool_mask (GraphGym.action_mask Lab.gym_obs_idle)) 1 a
  = Some false.
Proof. intros Ha. destruct a as [|[|[|a]]]; [reflexivity..|lia]. Qed.

Lemma forward_observation_errors_witness :
  GraphGym.forward Lab.gym_model 0%Q {| GraphGym.total_value := None |}
    Lab.gym_obs_empty tt tt
  = (Raise IndexError, {| GraphGym.total_value := None |}).
Proof.
  exact (proj1 (proj1 (forward_observation_errors Lab.gym_model 0%Q
                         {| GraphGym.total_value := None |} Lab.gym_obs_empty tt tt)
                  eq_refl)).
Defined.

Lemma forward_row_without_valid_action_witness :
  ∃ action_weights total_value,
    GraphGym.forward Lab.gym_model 0%Q {| GraphGym.total_value := None |}
      Lab.gym_obs_idle tt tt
    = (Ok (action_weights, tt), {| GraphGym.total_value := Some total_value |})
    ∧ total_value !! 1%nat = Some Lab.float32_min.
Proof.
  destruct (forward_row_without_valid_action Lab.gym_model 0%Q
              {| GraphGym.total_value := None |} Lab.gym_obs_idle tt tt
              Lab.gym_flat_obs 1 gym_flatten gym_idle_mask_length
              gym_values_length gym_weights_length)
    as (action_weights & total_value & Hforward & Hvalue & _).
  - cbn. lia.
  - cbn. lia.
  - exact gym_idle_row.
  - exists action_weights, total_value. split; [exact Hforward|exact Hvalue].
Defined.

(** ** A molecule without a radical atom *)

Section closed_shell.

Context {rdkit : RDKit} {collab : Collaborators}.

Local Open Scope Q_scope.

(** X22.  Scoring a forced-terminal in-domain molecule that has no
    radical atom raises [TypeError], after the stability and the redox
    model have run and before the BDE model; the molecule is left as it
    was. *)
Theorem get_reward_without_radical (state : MoleculeState) (w : World)
    (site : nat * Q * Q) :
  let m := store w (molecule state) in
  let policy_inputs := get_policy_inputs state m in
  in_domain policy_inputs = true →
  forced_terminal state = true →
  radical_site (stability_model policy_inputs).1 (stability_model policy_inputs).2 m
    = Ok site →
  radical_count m = 0%nat →
  get_reward state w
  = (Raise TypeError, after_predict RedoxModel (after_predict StabilityModel w)).
Proof.
  intros m policy_inputs Hdomain Hterminal Hsite Hcount.
  rewrite get_reward_unfold. fold m policy_inputs. rewrite Hdomain, Hterminal.
  rewrite calc_reward_unfold. cbv zeta. fold m policy_inputs. rewrite Hsite.
  destruct site as [[atom_index max_spin] spin_buried_vol].
  by rewrite calc_bde_no_radical.
Qed.

End closed_shell.

Lemma methane_in_domain :
  in_domain (get_policy_inputs (Lab.state true "C")
               (store (Lab.world Lab.methane) (molecule (Lab.state true "C"))))
  = true.
Proof. by vm_compute. Qed.

Lemma methane_site :
  radical_site
    (stability_model
       (get_policy_inputs (Lab.state true "C")
          (store (Lab.world Lab.methane) (molecule (Lab.state true "C"))))).1
    (stability_model
       (get_policy_inputs (Lab.state true "C")
          (store (Lab.world Lab.methane) (molecule (Lab.state true "C"))))).2
    (store (Lab.world Lab.methane) (molecule (Lab.state true "C")))
  = Ok (0%nat, 2 # 10, 42)%Q.
Proof. by vm_compute. Qed.

Lemma get_reward_without_radical_witness :
  get_reward (Lab.state true "C") (Lab.world Lab.methane)
  = (Raise TypeError,
     after_predict RedoxModel (after_predict StabilityModel (Lab.world Lab.methane))).
Proof.
  exact (get_reward_without_radical (Lab.state true "C") (Lab.world Lab.methane)
           (0%nat, 2 # 10, 42)%Q methane_in_domain eq_refl methane_site eq_refl).
Defined.

(** ** GraphGymModel: which observation a reported value belongs to *)

Section gym_position_facts.

Import GraphGym.

Local Open Scope Q_scope.

Context {X S L : Type}.
Context (per_action_model : gmap string (list X) → FlatTensor * FlatTensor).
Context (reduce_max_empty : Q).

(** The mask that [forward] works with holds the validity of every
    action. *)
Lemma bool_mask_entry (mask : MaskTensor) (b a : nat) :
  shape (bool_mask mask) = mask_shape mask
  ∧ entry (bool_mask mask) b a = valid_action mask b a.
Proof.
  destruct mask as [t|t]; [done|]. split; [done|].
  unfold valid_action, bool_mask, tf_equal_1, entry. cbn [shape entries].
  destruct (decide (a < (shape t).2)%nat); [|done].
  by rewrite list_lookup_fmap.
Qed.

(** A mask with an entry for every action of every batch element. *)
Lemma bool_mask_length (mask : MaskTensor) (batch actions : nat) :
  mask_shape mask = (batch, actions) →
  (∀ b a, (b < batch)%nat → (a < actions)%nat → is_Some (valid_action mask b a)) →
  ∀ b a, (b < batch)%nat → (a < actions)%nat →
    ∃ valid, entry (bool_mask mask) b a = Some valid
             ∧ valid_action mask b a = Some valid.
Proof.
  intros Hshape Hfull b a Hb Ha. destruct (Hfull b a Hb Ha) as [valid Hvalid].
  exists valid. split; [|done]. by rewrite (proj2 (bool_mask_entry mask b a)).
Qed.

(** [tf.where] on a reshaped flat tensor, entry by entry. *)
Lemma masked_entry (mask : Tensor bool) (flat : FlatTensor) (b a : nat)
    (valid : bool) :
  length (flat_entries flat) = ((shape mask).1 * (shape mask).2)%nat →
  (b < (shape mask).1)%nat → (a < (shape mask).2)%nat →
  entry mask b a = Some valid →
  ∃ x,
    flat_entries flat !! (b * (shape mask).2 + a)%nat = Some x
    ∧ entry (tf_where mask {| shape := shape mask; entries := flat_entries flat |}
               (dtype_min flat)) b a
      = Some (if valid then x else dtype_min flat).
Proof.
  intros Hlen Hb Ha Hvalid.
  set (t := {| shape := shape mask; entries := flat_entries flat |}).
  destruct (entry_is_Some t b a Hlen Hb Ha) as [x Hx].
  exists x. split.
  - unfold entry in Hx. cbn [t shape entries] in Hx.
    by rewrite decide_True in Hx.
  - by apply tf_where_entry.
Qed.

(** The greatest masked value of a row. *)
Lemma masked_row_max (mask : Tensor bool) (flat : FlatTensor) (b : nat) :
  let action_values :=
    tf_where mask {| shape := shape mask; entries := flat_entries flat |}
      (dtype_min flat) in
  ((shape mask).1 * (shape mask).2 <= length (entries mask))%nat →
  length (flat_entries flat) = ((shape mask).1 * (shape mask).2)%nat →
  (b < (shape mask).1)%nat →
  ∃ vmax,
    tf_reduce_max_axis1 reduce_max_empty action_values !! b = Some vmax
    ∧ vmax = max_of reduce_max_empty (row action_values b)
    ∧ (∀ a x, (a < (shape mask).2)%nat → entry action_values b a = Some x → x <= vmax)
    ∧ ((0 < (shape mask).2)%nat →
       ∃ a, (a < (shape mask).2)%nat ∧ entry action_values b a = Some vmax).
Proof.
  intros action_values Hmask Hvalues Hb.
  exists (max_of reduce_max_empty (row action_values b)). split.
  { unfold tf_reduce_max_axis1. rewrite list_lookup_fmap.
    cbn [action_values tf_where shape]. by rewrite lookup_seq_lt. }
  split; [done|].
  assert (length (row action_values b) = (shape mask).2) as Hrow.
  { apply (row_length action_values b); [|done].
    cbn [action_values tf_where shape entries].
    rewrite length_zip_with. lia. }
  assert (∀ a, (a < (shape mask).2)%nat →
            row action_values b !! a = entry action_values b a) as Hlookup.
  { intros a Ha. by apply row_lookup. }
  destruct (decide ((shape mask).2 = 0%nat)) as [Hzero|Hpos].
  { split; [intros a x Ha; lia|intros Ha; lia]. }
  destruct (max_of_spec reduce_max_empty (row action_values b)) as [Hin Hle].
  { intros Hnil. rewrite Hnil in Hrow. simpl in Hrow. lia. }
  split.
  - intros a x Ha Hx. apply Hle. rewrite <- Hlookup in Hx by done.
    by eapply list_elem_of_lookup_2.
  - intros _. apply list_elem_of_lookup in Hin as [a Ha].
    assert (a < (shape mask).2)%nat as Hlt.
    { rewrite <- Hrow. by eapply lookup_lt_Some. }
    exists a. split; [done|]. by rewrite <- Hlookup.
Qed.

(** Where a row of the flattened observations comes from. *)
Lemma flatten_observations_row (obs : list (gmap string (list X)))
    (flat_obs first : gmap string (list X)) (batch : nat) (key : string) (p : nat) :
  flatten_observations obs = Ok flat_obs →
  obs !! 0%nat = Some first →
  key ∈ dom first →
  (∀ o rows, o ∈ obs → o !! key = Some rows → length rows = batch) →
  (p < length obs * batch)%nat →
  ∃ o rows flat_rows,
    obs !! (p / batch)%nat = Some o
    ∧ o !! key = Some rows
    ∧ flat_obs !! key = Some flat_rows
    ∧ flat_rows !! p = rows !! (p mod batch)%nat
    ∧ is_Some (rows !! (p mod batch)%nat).
Proof.
  intros Hflat Hfirst Hkey Hrows Hp.
  assert (batch ≠ 0)%nat as Hbatch by lia.
  unfold flatten_observations, getitem in Hflat. rewrite Hfirst in Hflat.
  cbn [from_option mbind result_bind] in Hflat.
  destruct (flatten_loop_Ok _ _ _ Hflat) as [_ Hkeys].
  destruct (Hkeys key) as (flat_rows & Hv & Hlookup); [by apply elem_of_elements|].
  apply flatten_key_Ok in Hv as (parts & Hparts & ->).
  assert (p / batch < length obs)%nat as Hdiv.
  { apply Nat.Div0.div_lt_upper_bound. lia. }
  destruct (lookup_lt_is_Some_2 obs (p / batch)%nat Hdiv) as [o Ho].
  destruct (Forall2_lookup_l _ _ _ _ _ Hparts Ho) as (rows & Hpart & Hrow).
  exists o, rows, (concat parts). split; [done|]. split; [done|]. split; [done|].
  assert (Forall (λ q, length q = batch) parts) as Hlen.
  { apply Forall_lookup. intros i q Hq.
    destruct (Forall2_lookup_r _ _ _ _ _ Hparts Hq) as (o' & Ho' & Hoq).
    apply (Hrows o' q); [by eapply list_elem_of_lookup_2|done]. }
  assert (p mod batch < batch)%nat as Hmod by by apply Nat.mod_upper_bound.
  split.
  - rewrite <- (concat_lookup_block parts batch (p / batch) (p mod batch) rows)
      by done.
    f_equal. rewrite (Nat.div_mod_eq p batch) at 1. lia.
  - apply lookup_lt_is_Some. rewrite (Hrows o rows); [done| |done].
    by eapply list_elem_of_lookup_2.
Qed.

(** A mask with every entry has at least as many entries as its shape
    says. *)
Lemma full_mask_length (mask : Tensor bool) :
  (∀ b a, (b < (shape mask).1)%nat → (a < (shape mask).2)%nat →
     is_Some (entry mask b a)) →
  ((shape mask).1 * (shape mask).2 <= length (entries mask))%nat.
Proof.
  intros Hfull.
  destruct (decide ((shape mask).1 = 0%nat)) as [->|Hb]; [lia|].
  destruct (decide ((shape mask).2 = 0%nat)) as [->|Ha]; [lia|].
  destruct (Hfull ((shape mask).1 - 1)%nat ((shape mask).2 - 1)%nat) as [v Hv];
    [lia..|].
  unfold entry in Hv. rewrite decide_True in Hv by lia.
  apply lookup_lt_Some in Hv. nia.
Qed.

(** C10.  [forward] masks by position: entry [(b, a)] of the weights it
    returns, and of the action values it keeps, is [dtype.min] where action
    [a] of batch element [b] is invalid, and otherwise what the per-action
    model returned at position [b * actions + a] of its flat output;
    [value_function] then returns the greatest masked value of each row.
    But the row that the per-action model was given at that position is
    not the observation of action [a] in batch element [b]: the
    observations are concatenated action after action, so position [p]
    holds the observation of batch element [p mod batch] under action
    [p / batch].  The two agree for a batch of one; with two or more batch
    elements and actions, entry (0, 1) is computed from the observation of
    batch element 1 under action 0. *)
Theorem forward_masks_invalid_actions (self : GraphGymModel) (obs : Obs)
    (state : S) (seq_lens : L) (flat_obs first : gmap string (list X))
    (batch actions : nat) :
  let flat_values := (per_action_model flat_obs).1 in
  let flat_weights := (per_action_model flat_obs).2 in
  mask_shape (action_mask obs) = (batch, actions) →
  (∀ b a, (b < batch)%nat → (a < actions)%nat →
     is_Some (valid_action (action_mask obs) b a)) →
  length (action_observations obs) = actions →
  action_observations obs !! 0%nat = Some first →
  (∀ o key rows, o ∈ action_observations obs → key ∈ dom first →
     o !! key = Some rows → length rows = batch) →
  flatten_observations (action_observations obs) = Ok flat_obs →
  length (flat_entries flat_values) = (batch * actions)%nat →
  length (flat_entries flat_weights) = (batch * actions)%nat →
  ∃ action_weights action_values total_value,
    forward per_action_model reduce_max_empty self obs state seq_lens
      = (Ok (action_weights, state), {| total_value := Some total_value |})
    ∧ masked_action_values (bool_mask (action_mask obs)) flat_values
      = Ok action_values
    ∧ value_function {| total_value := Some total_value |} = Some total_value
    ∧ length total_value = batch
    ∧ (∀ b a, (b < batch)%nat → (a < actions)%nat →
         ∃ valid v wt,
           valid_action (action_mask obs) b a = Some valid
           ∧ flat_entries flat_values !! (b * actions + a)%nat = Some v
           ∧ flat_entries flat_weights !! (b * actions + a)%nat = Some wt
           ∧ entry action_values b a
             = Some (if valid then v else dtype_min flat_values)
           ∧ entry action_weights b a
             = Some (if valid then wt else dtype_min flat_weights))
    ∧ (∀ b, (b < batch)%nat →
         ∃ vmax,
           total_value !! b = Some vmax
           ∧ (∀ a x, (a < actions)%nat → entry action_values b a = Some x →
                x <= vmax)
           ∧ ((0 < actions)%nat →
              ∃ a, (a < actions)%nat ∧ entry action_values b a = Some vmax))
    ∧ (∀ b a key, (b < batch)%nat → (a < actions)%nat → key ∈ dom first →
         ∃ o rows flat_rows,
           action_observations obs !! ((b * actions + a) / batch)%nat = Some o
           ∧ o !! key = Some rows
           ∧ flat_obs !! key = Some flat_rows
           ∧ flat_rows !! (b * actions + a)%nat
             = rows !! ((b * actions + a) mod batch)%nat
           ∧ is_Some (rows !! ((b * actions + a) mod batch)%nat))
    ∧ (batch = 1%nat → ∀ a,
         ((0 * actions + a) / batch = a ∧ (0 * actions + a) mod batch = 0)%nat)
    ∧ ((2 <= batch)%nat → (2 <= actions)%nat →
       ((0 * actions + 1) / batch = 0 ∧ (0 * actions + 1) mod batch = 1)%nat).
Proof.
  intros flat_values flat_weights Hshape Hfull Hactions Hfirst Hrows Hflat
    Hvalues Hweights.
  set (mask := bool_mask (action_mask obs)).
  assert (shape mask = (batch, actions)) as Hmask_shape.
  { unfold mask. by rewrite (proj1 (bool_mask_entry (action_mask obs) 0 0)). }
  assert (∀ b a, entry mask b a = valid_action (action_mask obs) b a) as Hentry.
  { intros b a. apply bool_mask_entry. }
  assert ((shape mask).1 = batch ∧ (shape mask).2 = actions) as [Hb Ha]
    by by rewrite Hmask_shape.
  assert ((shape mask).1 * (shape mask).2 <= length (entries mask))%nat as Hmask.
  { apply full_mask_length. intros b a Hlb Hla. rewrite Hentry.
    apply Hfull; lia. }
  rewrite <- Hb, <- Ha in Hvalues, Hweights.
  destruct (forward_unfold per_action_model reduce_max_empty self obs state
              seq_lens flat_obs Hflat Hvalues Hweights) as [Hmasked Hforward].
  fold mask flat_values flat_weights in Hmasked, Hforward.
  set (action_values :=
         tf_where mask {| shape := shape mask; entries := flat_entries flat_values |}
           (dtype_min flat_values)) in *.
  set (action_weights :=
         tf_where mask {| shape := shape mask; entries := flat_entries flat_weights |}
           (dtype_min flat_weights)) in *.
  exists action_weights, action_values,
    (tf_reduce_max_axis1 reduce_max_empty action_values).
  split; [exact Hforward|]. split; [exact Hmasked|]. split; [done|].
  split.
  { unfold tf_reduce_max_axis1. rewrite length_fmap, length_seq.
    cbn [action_values tf_where shape]. exact Hb. }
  split.
  { intros b a Hlb Hla.
    destruct (Hfull b a Hlb Hla) as [valid Hvalid].
    destruct (masked_entry mask flat_values b a valid) as (v & Hv & Hav);
      [done|lia|lia|by rewrite Hentry|].
    destruct (masked_entry mask flat_weights b a valid) as (wt & Hwt & Haw);
      [done|lia|lia|by rewrite Hentry|].
    rewrite Ha in Hv, Hwt. by exists valid, v, wt. }
  split.
  { intros b Hlb.
    destruct (masked_row_max mask flat_values b Hmask Hvalues)
      as (vmax & Hvmax & _ & Hle & Hattained); [lia|].
    rewrite Ha in Hle, Hattained. by exists vmax. }
  split.
  { intros b a key Hlb Hla Hkey.
    apply (flatten_observations_row (action_observations obs) flat_obs first
             batch key (b * actions + a)); [done..| |].
    - intros o rows Ho Hrow. by apply (Hrows o key rows).
    - rewrite Hactions. nia. }
  split.
  - intros -> a. rewrite Nat.div_1_r, Nat.mod_1_r. lia.
  - intros Hbatch _. cbn [Nat.mul Nat.add].
    rewrite Nat.div_small, Nat.mod_small by lia. done.
Qed.

End gym_position_facts.

(** The laboratory batch meets the hypotheses of the theorem. *)
Lemma gym_mask_full (b a : nat) :
  (b < 2)%nat → (a < 3)%nat →
  is_Some (GraphGym.valid_action (GraphGym.action_mask Lab.gym_obs) b a).
Proof.
  intros Hb Ha.
  destruct b as [|[|b]]; [| |lia]; destruct a as [|[|[|a]]]; try lia; by eexists.
Qed.

Lemma gym_rows_all (o : gmap string (list nat)) (key : string) (rows : list nat) :
  o ∈ GraphGym.action_observations Lab.gym_obs →
  key ∈ dom ({[ "atom" := [5; 1]%nat ]} : gmap string (list nat)) →
  o !! key = Some rows →
  length rows = 2%nat.
Proof.
  intros Ho Hkey Hrows. apply elem_of_dom in Hkey as [v Hv].
  apply lookup_singleton_Some in Hv as [<- _]. by apply (gym_rows o).
Qed.

Lemma forward_masks_invalid_actions_witness :
  ∃ action_weights total_value o rows flat_rows,
    GraphGym.forward Lab.gym_model 0%Q {| GraphGym.total_value := None |}
      Lab.gym_obs tt tt
    = (Ok (action_weights, tt), {| GraphGym.total_value := Some total_value |})
    ∧ length total_value = 2%nat
    ∧ GraphGym.action_observations Lab.gym_obs !! ((0 * 3 + 2) / 2)%nat = Some o
    ∧ o !! "atom" = Some rows
    ∧ Lab.gym_flat_obs !! "atom" = Some flat_rows
    ∧ flat_rows !! (0 * 3 + 2)%nat = rows !! ((0 * 3 + 2) mod 2)%nat.
Proof.
  destruct (forward_masks_invalid_actions Lab.gym_model 0%Q
              {| GraphGym.total_value := None |} Lab.gym_obs tt tt
              Lab.gym_flat_obs {[ "atom" := [5; 1]%nat ]} 2 3
              eq_refl gym_mask_full eq_refl eq_refl gym_rows_all gym_flatten
              gym_values_length gym_weights_length)
    as (action_weights & action_values & total_value & Hforward & _ & _ & Hlen
        & _ & _ & Hrow & _).
  destruct (Hrow 0%nat 2%nat "atom") as (o & rows & flat_rows & Ho & Hrows & Hflat
                                         & Hpos & _).
  - lia.
  - lia.
  - apply elem_of_dom. by eexists.
  - exists action_weights, total_value, o, rows, flat_rows.
    split; [exact Hforward|]. split; [exact Hlen|]. split; [exact Ho|].
    split; [exact Hrows|]. split; [exact Hflat|exact Hpos].
Defined.

(** C10, on the laboratory batch.  In batch element 0 the actions 0 and 2
    are valid and action 1 is masked; the observations of the three actions
    are 5, 7 and 3, which the per-action model values at 5, 7 and 3.  The
    greatest value over the valid actions is 5; [value_function] reports
    7, the value of the masked action. *)
Lemma forward_reports_masked_action :
  GraphGym.value_function
    (GraphGym.forward Lab.gym_model 0%Q {| GraphGym.total_value := None |}
       Lab.gym_obs tt tt).2
  = Some [7; 9]%Q
  ∧ GraphGym.valid_action (GraphGym.action_mask Lab.gym_obs) 0 0 = Some true
  ∧ GraphGym.valid_action (GraphGym.action_mask Lab.gym_obs) 0 1 = Some false
  ∧ GraphGym.valid_action (GraphGym.action_mask Lab.gym_obs) 0 2 = Some true
  ∧ (λ o : gmap string (list nat), o !! "atom" ≫= (λ rows, rows !! 0%nat))
      <$> GraphGym.action_observations Lab.gym_obs
    = [Some 5; Some 7; Some 3]%nat
  ∧ GraphGym.flat_entries (Lab.gym_model {[ "atom" := [5; 7; 3]%nat ]}).1
    = [5; 7; 3]%Q.
Proof. by vm_compute. Qed.

(** ** GraphGymModel: a failed reshape *)

Section gym_shape_facts.

Import GraphGym.

Local Open Scope Q_scope.

Context {X S L : Type}.
Context (per_action_model : gmap string (list X) → FlatTensor * FlatTensor).
Context (reduce_max_empty : Q).

(** X20.  A per-action model that returns a wrong number of values makes
    [forward] raise [InvalidArgumentError] with [total_value] as it was.
    With the right number of values but a wrong number of weights,
    [forward] raises the same exception after [total_value] has been
    set, whatever it held before, to the greatest masked value of each row
    of this call; [value_function] then returns these. *)
Theorem forward_shape_errors (self : GraphGymModel) (obs : Obs)
    (state : S) (seq_lens : L) (flat_obs : gmap string (list X)) :
  let mask := bool_mask (action_mask obs) in
  let flat_values := (per_action_model flat_obs).1 in
  let flat_weights := (per_action_model flat_obs).2 in
  flatten_observations (action_observations obs) = Ok flat_obs →
  (length (flat_entries flat_values) ≠ ((shape mask).1 * (shape mask).2)%nat →
     forward per_action_model reduce_max_empty self obs state seq_lens
     = (Raise InvalidArgumentError, self))
  ∧ (length (flat_entries flat_values) = ((shape mask).1 * (shape mask).2)%nat →
     length (flat_entries flat_weights) ≠ ((shape mask).1 * (shape mask).2)%nat →
     ∃ action_values,
       masked_action_values mask flat_values = Ok action_values
       ∧ forward per_action_model reduce_max_empty self obs state seq_lens
         = (Raise InvalidArgumentError,
            {| total_value :=
                 Some (tf_reduce_max_axis1 reduce_max_empty action_values) |})
       ∧ value_function
           (forward per_action_model reduce_max_empty self obs state seq_lens).2
         = Some (tf_reduce_max_axis1 reduce_max_empty action_values)
       ∧ length (tf_reduce_max_axis1 reduce_max_empty action_values)
         = (shape mask).1
       ∧ (((shape mask).1 * (shape mask).2 <= length (entries mask))%nat →
          ∀ b, (b < (shape mask).1)%nat →
            (∀ a valid, (a < (shape mask).2)%nat → entry mask b a = Some valid →
               ∃ v,
                 flat_entries flat_values !! (b * (shape mask).2 + a)%nat = Some v
                 ∧ entry action_values b a
                   = Some (if valid then v else dtype_min flat_values))
            ∧ ∃ vmax,
                tf_reduce_max_axis1 reduce_max_empty action_values !! b = Some vmax
                ∧ (∀ a x, (a < (shape mask).2)%nat →
                     entry action_values b a = Some x → x <= vmax)
                ∧ ((0 < (shape mask).2)%nat →
                   ∃ a, (a < (shape mask).2)%nat
                        ∧ entry action_values b a = Some vmax))).
Proof.
  intros mask flat_values flat_weights Hflat. unfold forward. rewrite Hflat.
  fold mask. unfold flat_values, flat_weights.
  destruct (per_action_model flat_obs) as [fv fw]. cbn [fst snd].
  unfold masked_action_values, tf_reshape. split.
  - intros Hvalues. by rewrite decide_False.
  - intros Hvalues Hweights. rewrite decide_True by done.
    cbn [mbind result_bind mret result_ret]. rewrite decide_False by done.
    eexists. split; [done|]. split; [done|]. split; [done|]. split.
    { unfold tf_reduce_max_axis1. by rewrite length_fmap, length_seq. }
    intros Hmask b Hb. split.
    + intros a valid Ha Hvalid. by apply masked_entry.
    + destruct (masked_row_max reduce_max_empty mask fv b Hmask Hvalues Hb)
        as (vmax & Hvmax & _ & Hle & Hattained).
      by exists vmax.
Qed.

End gym_shape_facts.

Lemma forward_shape_errors_witness :
  GraphGym.forward Lab.gym_model_no_weights 0%Q {| GraphGym.total_value := None |}
    Lab.gym_obs tt tt
  = (Raise InvalidArgumentError, {| GraphGym.total_value := Some [7; 9]%Q |}).
Proof.
  destruct (forward_shape_errors Lab.gym_model_no_weights 0%Q
              {| GraphGym.total_value := None |} Lab.gym_obs tt tt
              Lab.gym_flat_obs gym_flatten) as [_ Hweights].
  destruct (Hweights gym_no_weights_values gym_no_weights_weights)
    as (action_values & Hmasked & Hforward & _).
  vm_compute in Hmasked. injection Hmasked as <-. exact Hforward.
Defined.
